(** * Deep Hedging gym: the rollout-and-objective engine of [gym.py]

    A shallow embedding of [VanillaDeepHedgingGym] ([build], [_call],
    [_clip_actions], [_features], [create_cache], [restore_from_cache]) and
    the properties of its rollout and of its cache.

    Numbers.  The gym computes on tensors of float32.  Scalars are
    modelled as idealised floats [fval]: a real number, one of the two
    infinities, or NaN.  Finite arithmetic is exact (no rounding, no
    overflow, no signed zero); the special values follow IEEE 754, and
    [tf.minimum]/[tf.maximum] propagate NaN as TensorFlow's kernels do.
    The properties stated are those that rounding and overflow leave as
    they are: comparisons, minima and maxima, signs and the order of
    values, what is checked and what is not, shapes and faults.  Two facts
    of exact arithmetic are not facts of the gym, and are refuted in
    binary32 itself: the soft clip stays below the upper bound, and a sum
    of finite values is finite.

    Tensors.  A tensor is a static shape together with its row-major
    buffer, as in TensorFlow.

    Faults.  [_log.verify], [tf.debugging.assert_*],
    [tf.debugging.check_numerics] and Python's own exceptions abort the
    call; all of them are values of [fault] carried by [result].

    Collaborators.  The agent and the two monetary utilities are functions
    handed to the gym; gradients play no part ([tf.stop_gradient] is the
    identity on values).  Of keras, the cache needs the weights of the
    model and its optimizer; what [set_weights] accepts is left open.

    The file has three parts: the embedding of the gym, the definitions
    that the statements need together with concrete gyms and batches, and
    the properties with their proofs. *)

From Stdlib Require Import Reals Lra Lia String Bool Arith List.
From Stdlib Require Floats.SpecFloat.
Import ListNotations.

Local Open Scope R_scope.

(* ------------------------------------------------------------------ *)
(** * Faults and the error monad *)

Inductive fault : Type :=
| ShapeMismatch (field : string)   (* _log.verify on the shape of a market tensor or of the action *)
| FeatureShapeMismatch (f : string) (* _log.verify on the shape of data['features']['per_step'][f] *)
| BoundViolation (msg : string)    (* tf.debugging.assert_greater_equal / assert_less_equal *)
| NumericalError (what : string)   (* tf.debugging.check_numerics *)
| NotBuilt                         (* assert not self.agent is None *)
| BuiltTwice                       (* assert self.agent is None *)
| IndexOutOfRange                  (* slice index out of bounds *)
| IncompatibleShapes               (* operands that do not broadcast *)
| PyTypeError (msg : string)       (* TypeError / AttributeError raised by Python *).

Inductive result (A : Type) : Type :=
| Ok (a : A)
| Error (e : fault).
Arguments Ok {A} a.
Arguments Error {A} e.

Definition bind {A B : Type} (m : result A) (k : A -> result B) : result B :=
  match m with
  | Ok a => k a
  | Error e => Error e
  end.

Notation "x <- m ;; k" := (bind m (fun x => k))
  (at level 61, m at next level, right associativity).
Notation "' pat <- m ;; k" := (bind m (fun x => match x with pat => k end))
  (at level 61, pat pattern, m at next level, right associativity).

(** [_log.verify( cond, msg )]: raises when [cond] is false. *)
Definition verify (cond : bool) (e : fault) : result unit :=
  if cond then Ok tt else Error e.

(* ------------------------------------------------------------------ *)
(** * Scalars *)

Inductive fval : Type :=
| Fin (r : R)
| PInf
| NInf
| NaN.

Definition R_ltb (x y : R) : bool := if Rlt_dec x y then true else false.
Definition R_leb (x y : R) : bool := if Rle_dec x y then true else false.

Definition is_finite (a : fval) : bool :=
  match a with Fin _ => true | _ => false end.

Definition is_nan (a : fval) : bool :=
  match a with NaN => true | _ => false end.

Definition fneg (a : fval) : fval :=
  match a with
  | Fin r => Fin (- r)
  | PInf => NInf
  | NInf => PInf
  | NaN => NaN
  end.

Definition fabs (a : fval) : fval :=
  match a with
  | Fin r => Fin (Rabs r)
  | PInf | NInf => PInf
  | NaN => NaN
  end.

(** Arithmetic: that of the real numbers on finite values, that of
    IEEE 754 on the infinities and on NaN. *)
Definition fadd (a b : fval) : fval :=
  match a, b with
  | NaN, _ | _, NaN => NaN
  | Fin x, Fin y => Fin (x + y)
  | PInf, NInf | NInf, PInf => NaN
  | PInf, _ | _, PInf => PInf
  | NInf, _ | _, NInf => NInf
  end.

Definition fsub (a b : fval) : fval := fadd a (fneg b).

(** Sign of an infinite product or quotient: [inf] scaled by the real [r]. *)
Definition inf_scale (pos : bool) (r : R) : fval :=
  if R_ltb 0 r then (if pos then PInf else NInf)
  else if R_ltb r 0 then (if pos then NInf else PInf)
  else NaN.

Definition fmul (a b : fval) : fval :=
  match a, b with
  | NaN, _ | _, NaN => NaN
  | Fin x, Fin y => Fin (x * y)
  | PInf, Fin y => inf_scale true y
  | NInf, Fin y => inf_scale false y
  | Fin x, PInf => inf_scale true x
  | Fin x, NInf => inf_scale false x
  | PInf, PInf | NInf, NInf => PInf
  | PInf, NInf | NInf, PInf => NInf
  end.

Definition fdiv (a b : fval) : fval :=
  match a, b with
  | NaN, _ | _, NaN => NaN
  | Fin x, Fin y =>
      if R_ltb 0 y then Fin (x / y)
      else if R_ltb y 0 then Fin (x / y)
      else inf_scale true x            (* x / 0 : inf, -inf or NaN *)
  | Fin _, PInf | Fin _, NInf => Fin 0
  | PInf, Fin y => if R_ltb y 0 then NInf else PInf
  | NInf, Fin y => if R_ltb y 0 then PInf else NInf
  | _, _ => NaN                         (* inf / inf *)
  end.

(** Comparisons: false as soon as one side is NaN. *)
Definition fltb (a b : fval) : bool :=
  match a, b with
  | NaN, _ | _, NaN => false
  | Fin x, Fin y => R_ltb x y
  | NInf, NInf | PInf, _ => false
  | NInf, _ => true
  | Fin _, PInf => true
  | Fin _, NInf => false
  end.

Definition fleb (a b : fval) : bool :=
  match a, b with
  | NaN, _ | _, NaN => false
  | Fin x, Fin y => R_leb x y
  | NInf, _ | _, PInf => true
  | PInf, _ | _, NInf => false
  end.

Definition fgeb (a b : fval) : bool := fleb b a.
Definition fgtb (a b : fval) : bool := fltb b a.

(** [tf.minimum], [tf.maximum] on one element. *)
Definition fmin (a b : fval) : fval :=
  match a, b with
  | NaN, _ | _, NaN => NaN
  | _, _ => if fltb b a then b else a
  end.

Definition fmax (a b : fval) : fval :=
  match a, b with
  | NaN, _ | _, NaN => NaN
  | _, _ => if fltb a b then b else a
  end.

(** ** The soft clip of the gym

    [tfp.bijectors.SoftClip( low=0., high=1., hinge_softness=c )] maps [x] to
    [high - softplus(high - low - softplus(x - low)) * (high - low) / softplus(high - low)]
    with [softplus(x) = c * log(1 + exp(x / c))]. *)
Definition softplus (c x : R) : R := c * ln (1 + exp (x / c)).

Definition softclip01 (c x : R) : R :=
  1 - softplus c (1 - 0 - softplus c (x - 0)) * (1 - 0) / softplus c (1 - 0).

Definition fsoftclip (c : R) (a : fval) : fval :=
  match a with
  | Fin x => Fin (softclip01 c x)
  | PInf => Fin 1
  | NInf => Fin 0
  | NaN => NaN
  end.

(** ** Binary32

    Rounding and overflow are left out of [fval].  Where they decide what
    may be stated of the gym, the operations of IEEE 754 binary32 are at
    hand, as the Standard Library specifies them: 24 bits of precision,
    exponents below 128. *)
Definition b32 : Type := SpecFloat.spec_float.
Definition b32_valid : b32 -> bool := SpecFloat.valid_binary 24 128.
Definition b32_add : b32 -> b32 -> b32 := SpecFloat.SFadd 24 128.
Definition b32_sub : b32 -> b32 -> b32 := SpecFloat.SFsub 24 128.
Definition b32_mul : b32 -> b32 -> b32 := SpecFloat.SFmul 24 128.
Definition b32_ltb : b32 -> b32 -> bool := SpecFloat.SFltb.

(** [rel * dbnd + lbnd_a] with [dbnd = ubnd_a - lbnd_a]: the rescaling of
    the soft clip in [_clip_actions]. *)
Definition rescale_b32 (rel lbnd_a ubnd_a : b32) : b32 :=
  let dbnd := b32_sub ubnd_a lbnd_a in
  b32_add (b32_mul rel dbnd) lbnd_a.

(** [payoff + pnl - cost]: the gains of [_call]. *)
Definition gains_b32 (payoff pnl cost : b32) : b32 := b32_sub (b32_add payoff pnl) cost.

Local Close Scope R_scope.

(* ------------------------------------------------------------------ *)
(** * Tensors *)

Record Tensor : Type := mkTensor { shape : list nat; data : list fval }.

Fixpoint shape_eqb (s1 s2 : list nat) : bool :=
  match s1, s2 with
  | [], [] => true
  | a :: r1, b :: r2 => Nat.eqb a b && shape_eqb r1 r2
  | _, _ => false
  end.

Definition numel (s : list nat) : nat := fold_right Nat.mul 1 s.

(** The buffer has as many elements as the shape says. *)
Definition wf (x : Tensor) : Prop := length (data x) = numel (shape x).

(** Row-major access and construction for ranks 2 and 3. *)
Definition get2 (n : nat) (d : list fval) (i j : nat) : fval :=
  nth (i * n + j) d NaN.

Definition get3 (m n : nat) (d : list fval) (i t j : nat) : fval :=
  nth ((i * m + t) * n + j) d NaN.

Definition tabulate2 (b n : nat) (f : nat -> nat -> fval) : list fval :=
  flat_map (fun i => map (f i) (seq 0 n)) (seq 0 b).

Definition tabulate3 (b m n : nat) (f : nat -> nat -> nat -> fval) : list fval :=
  flat_map (fun i => tabulate2 m n (f i)) (seq 0 b).

(** Elementwise operations. *)
Definition tmap (f : fval -> fval) (x : Tensor) : Tensor :=
  mkTensor (shape x) (map f (data x)).

Definition map2 {A B C : Type} (f : A -> B -> C) (l1 : list A) (l2 : list B) : list C :=
  map (fun p => f (fst p) (snd p)) (combine l1 l2).

(** [tf.zeros_like]. *)
Definition zeros_like (x : Tensor) : Tensor := tmap (fun _ => Fin 0%R) x.

(** Broadcasting of two operands.  Equal shapes pair up as they are; a
    [1,n] operand is repeated along the batch axis of a [b,n] operand.  In
    its loop and on its results the engine meets no other combination:
    every other pair is refused.  (The line that tiles the state of a
    recurrent agent has its own, general broadcasting below.) *)
Definition broadcast2 (x y : Tensor)
  : result (list nat * (list fval * list fval)) :=
  if shape_eqb (shape x) (shape y) then Ok (shape x, (data x, data y))
  else match shape x, shape y with
       | [1; n], [b; n'] =>
           if Nat.eqb n n'
           then Ok ([b; n'], (tabulate2 b n (fun _ j => get2 n (data x) 0 j), data y))
           else Error IncompatibleShapes
       | [b; n], [1; n'] =>
           if Nat.eqb n n'
           then Ok ([b; n], (data x, tabulate2 b n (fun _ j => get2 n (data y) 0 j)))
           else Error IncompatibleShapes
       | _, _ => Error IncompatibleShapes
       end.

Definition tbin (f : fval -> fval -> fval) (x y : Tensor) : result Tensor :=
  '(s, (dx, dy)) <- broadcast2 x y ;;
  Ok (mkTensor s (map2 f dx dy)).

Definition tf_add := tbin fadd.
Definition tf_sub := tbin fsub.
Definition tf_mul := tbin fmul.
Definition tf_div := tbin fdiv.
Definition tf_minimum := tbin fmin.
Definition tf_maximum := tbin fmax.
Definition tf_neg := tmap fneg.
Definition tf_abs := tmap fabs.

(** A tensor times a Python float. *)
Definition tf_scale (x : Tensor) (k : R) : Tensor := tmap (fun a => fmul a (Fin k)) x.

(** Broadcasting of operands of any rank, as the line that tiles the state
    of a recurrent agent needs it.  The shapes are aligned at their last
    axes, missing leading axes count as 1, and two sizes go together when
    they are equal or one of them is 1. *)
Definition pad_shape (r : nat) (s : list nat) : list nat := repeat 1 (r - length s) ++ s.

Fixpoint broadcast_shape (s1 s2 : list nat) : option (list nat) :=
  match s1, s2 with
  | [], [] => Some []
  | a :: r1, b :: r2 =>
      match broadcast_shape r1 r2 with
      | Some r => if Nat.eqb a b then Some (a :: r)
                  else if Nat.eqb a 1 then Some (b :: r)
                  else if Nat.eqb b 1 then Some (a :: r)
                  else None
      | None => None
      end
  | _, _ => None
  end.

(** The multi-indices of a shape, in row-major order. *)
Fixpoint indices (s : list nat) : list (list nat) :=
  match s with
  | [] => [[]]
  | d :: s' => flat_map (fun i => map (cons i) (indices s')) (seq 0 d)
  end.

(** The row-major offset, in a buffer of shape [s], of the element that
    goes with the multi-index [idx] of the result: along an axis of size 1
    it is the only element there is. *)
Fixpoint offset (s idx : list nat) : nat :=
  match s, idx with
  | d :: s', i :: idx' => (if Nat.eqb d 1 then 0 else i) * numel s' + offset s' idx'
  | _, _ => 0
  end.

Definition broadcast_to (s : list nat) (x : Tensor) : list fval :=
  let sx := pad_shape (length s) (shape x) in
  map (fun idx => nth (offset sx idx) (data x) NaN) (indices s).

Definition tbin_nd (f : fval -> fval -> fval) (x y : Tensor) : result Tensor :=
  let r := Nat.max (length (shape x)) (length (shape y)) in
  match broadcast_shape (pad_shape r (shape x)) (pad_shape r (shape y)) with
  | Some s => Ok (mkTensor s (map2 f (broadcast_to s x) (broadcast_to s y)))
  | None => Error IncompatibleShapes
  end.

(** [tf.where( c > 0., x, 0. )]. *)
Definition tf_where_pos (c x : Tensor) : result Tensor :=
  tbin (fun d v => if fgtb d (Fin 0%R) then v else Fin 0%R) c x.

(** [x[:,t,:]] of a rank-3 tensor. *)
Definition slice_step (x : Tensor) (t : nat) : result Tensor :=
  match shape x with
  | [b; m; n] =>
      if Nat.ltb t m
      then Ok (mkTensor [b; n] (tabulate2 b n (fun i j => get3 m n (data x) i t j)))
      else Error IndexOutOfRange
  | _ => Error IndexOutOfRange
  end.

(** [x[:,0]] of a rank-2 tensor. *)
Definition slice_col0 (x : Tensor) : result Tensor :=
  match shape x with
  | [b; m] =>
      if Nat.ltb 0 m
      then Ok (mkTensor [b] (map (fun i => get2 m (data x) i 0) (seq 0 b)))
      else Error IndexOutOfRange
  | _ => Error IndexOutOfRange
  end.

(** [x[:,tf.newaxis]]: a new axis after the first one. *)
Definition expand_second (x : Tensor) : result Tensor :=
  match shape x with
  | d :: rest => Ok (mkTensor (d :: 1 :: rest) (data x))
  | [] => Error IndexOutOfRange
  end.

(** [x[tf.newaxis,:]]: a new first axis, and a slice of the axis that was
    the first; a scalar has no axis to slice. *)
Definition expand_front_slice (x : Tensor) : result Tensor :=
  match shape x with
  | _ :: _ => Ok (mkTensor (1 :: shape x) (data x))
  | [] => Error IndexOutOfRange
  end.

(** [x[:,tf.newaxis,:]] of a rank-2 tensor. *)
Definition expand_step (x : Tensor) : result Tensor :=
  match shape x with
  | [b; n] => Ok (mkTensor [b; 1; n] (data x))
  | _ => Error IndexOutOfRange
  end.

(** [tf.concat( [x,y], axis=1 )] of two rank-3 tensors. *)
Definition concat_steps (x y : Tensor) : result Tensor :=
  match shape x, shape y with
  | [b; m; n], [b'; m'; n'] =>
      if Nat.eqb b b' && Nat.eqb n n'
      then Ok (mkTensor [b; m + m'; n]
                 (tabulate3 b (m + m') n
                    (fun i t j => if Nat.ltb t m then get3 m n (data x) i t j
                                  else get3 m' n (data y) i (t - m) j)))
      else Error IncompatibleShapes
  | _, _ => Error IncompatibleShapes
  end.

(** [tf.reduce_sum( x, axis=1 )] of a rank-2 tensor. *)
Definition fsum (l : list fval) : fval := fold_left fadd l (Fin 0%R).

Definition reduce_sum1 (x : Tensor) : result Tensor :=
  match shape x with
  | [b; n] =>
      Ok (mkTensor [b] (map (fun i => fsum (map (get2 n (data x) i) (seq 0 n))) (seq 0 b)))
  | _ => Error IncompatibleShapes
  end.

(** [tf.debugging.check_numerics]. *)
Definition check_numerics (x : Tensor) (what : string) : result Tensor :=
  if forallb is_finite (data x) then Ok x else Error (NumericalError what).

(** [tf.debugging.assert_greater_equal( x, y )] and the versions against a
    Python float. *)
Definition assert_greater_equal (x y : Tensor) (msg : string) : result unit :=
  '(_, (dx, dy)) <- broadcast2 x y ;;
  verify (forallb (fun p => fgeb (fst p) (snd p)) (combine dx dy)) (BoundViolation msg).

Definition assert_greater_equal_c (x : Tensor) (k : R) (msg : string) : result unit :=
  verify (forallb (fun a => fgeb a (Fin k)) (data x)) (BoundViolation msg).

Definition assert_less_equal_c (x : Tensor) (k : R) (msg : string) : result unit :=
  verify (forallb (fun a => fleb a (Fin k)) (data x)) (BoundViolation msg).

(* ------------------------------------------------------------------ *)
(** * Python dictionaries with string keys *)

Definition dict (V : Type) : Type := list (string * V).

Fixpoint dict_set {V : Type} (k : string) (v : V) (d : dict V) : dict V :=
  match d with
  | [] => [(k, v)]
  | (k', v') :: r => if String.eqb k k' then (k, v) :: r else (k', v') :: dict_set k v r
  end.

Fixpoint dict_get {V : Type} (k : string) (d : dict V) : option V :=
  match d with
  | [] => None
  | (k', v') :: r => if String.eqb k k' then Some v' else dict_get k r
  end.

(** [d.update( e )]. *)
Definition dict_update {V : Type} (d e : dict V) : dict V :=
  fold_left (fun acc kv => dict_set (fst kv) (snd kv) acc) e d.

Definition dict_keys {V : Type} (d : dict V) : list string := map fst d.

(* ------------------------------------------------------------------ *)
(** * The data of a call and its result *)

(** [data['market']]. *)
Module Market.
Record t : Type := mk
  { hedges : Tensor; cost : Tensor; ubnd_a : Tensor; lbnd_a : Tensor; payoff : Tensor }.
End Market.

(** [data['features']]; a missing entry is the empty dictionary. *)
Module Features.
Record t : Type := mk { per_step : dict Tensor; per_path : dict Tensor }.
End Features.

Module Data.
Record t : Type := mk { market : Market.t; features : Features.t }.
End Data.

(** The dictionary returned by [call]. *)
Module Out.
Record t : Type := mk
  { loss : Tensor; utility : Tensor; utility0 : Tensor; gains : Tensor;
    payoff : Tensor; pnl : Tensor; cost : Tensor; actions : Tensor }.
End Out.

(** ** Collaborators *)

(** The agent (policy): features in, raw action and new state out.  The
    returned state of an agent that is not recurrent is ignored. *)
Record Agent : Type := mkAgent
  { is_recurrent : bool;
    state_feature_name : string;
    init_state : bool -> Tensor;
    agent_call : dict Tensor -> bool -> Tensor * Tensor }.

(** The argument of a monetary utility: [dict( features_time_0, payoff, pnl, cost )]. *)
Module UtilityData.
Record t : Type := mk
  { features_time_0 : dict Tensor; payoff : Tensor; pnl : Tensor; cost : Tensor }.
End UtilityData.

Definition Utility : Type := UtilityData.t -> bool -> Tensor.

(** Modelled from the spec: [tf_make_dim] of base.py, which the gym imports
    and which is not among the sources.  It brings a tensor to the rank
    [dim]: trailing axes of size 1 are appended to a tensor of lower rank,
    the trailing axes of a tensor of higher rank are merged into one.  The
    buffer is unchanged. *)
Definition tf_make_dim (x : Tensor) (dim : nat) : Tensor :=
  let s := shape x in
  if Nat.ltb dim (length s)
  then mkTensor (firstn (dim - 1) s ++ [numel (skipn (dim - 1) s)]) (data x)
  else mkTensor (s ++ repeat 1 (dim - length s)) (data x).

(** The running state of the main loop. *)
Module Rollout.
Record t : Type := mk
  { pnl : Tensor; cost : Tensor; delta : Tensor; action : Tensor;
    actions : Tensor; state : Tensor }.
End Rollout.

Local Open Scope string_scope.

Notation "m ;; k" := (bind m (fun _ => k))
  (at level 61, right associativity).

(* ------------------------------------------------------------------ *)
(** * VanillaDeepHedgingGym *)

Section Gym.

(** [Config] is the configuration type of cdxbasics.  [PyObj] is the type of
    whatever [tf_make_dim] returns when it is handed a feature name instead
    of a tensor: [tf_make_dim_name] stands for that call, of which the gym's
    source says nothing; [None] is an exception raised by it. *)
Context {Config PyObj : Type}.
Variable AgentFactory : nat -> Config -> string -> Agent.
Variable MonetaryUtility : Config -> string -> Utility.
Variable tf_make_dim_name : string -> nat -> option PyObj.

Record Gym : Type := mkGym
  { hard_clip : bool;
    outer_clip : bool;
    outer_clip_cut_off : R;
    hinge_softness : R;
    config_agent : Config;
    config_objective : Config;
    agent : option Agent;
    utility : option Utility;
    utility0 : option Utility }.

(** [build( shapes )], given [shapes['market']['hedges']]. *)
Definition build (self : Gym) (hedges_shape : list nat) : result Gym :=
  match agent self with
  | Some _ => Error BuiltTwice
  | None =>
      match nth_error hedges_shape 2 with
      | None => Error IndexOutOfRange
      | Some nInst =>
          Ok {| hard_clip := hard_clip self;
                outer_clip := outer_clip self;
                outer_clip_cut_off := outer_clip_cut_off self;
                hinge_softness := hinge_softness self;
                config_agent := config_agent self;
                config_objective := config_objective self;
                agent := Some (AgentFactory nInst (config_agent self) "agent");
                utility := Some (MonetaryUtility (config_objective self) "utility");
                utility0 := Some (MonetaryUtility (config_objective self) "utility0") |}
      end
  end.

(** [_clip_actions( actions, lbnd_a, ubnd_a )]. *)
Definition _clip_actions (self : Gym) (actions lbnd_a ubnd_a : Tensor) : result Tensor :=
  assert_greater_equal ubnd_a lbnd_a "Upper bound for actions must be bigger than lower bound" ;;
  assert_greater_equal_c ubnd_a 0 "Upper bound for actions must not be negative" ;;
  assert_less_equal_c lbnd_a 0 "Lower bound for actions must not be positive" ;;
  if hard_clip self then
    actions <- tf_minimum actions ubnd_a ;;
    actions <- tf_maximum actions lbnd_a ;;
    Ok actions
  else
    actions <- (if outer_clip self then
                  actions <- tf_minimum actions (tf_scale ubnd_a (outer_clip_cut_off self)) ;;
                  tf_maximum actions (tf_scale lbnd_a (outer_clip_cut_off self))
                else Ok actions) ;;
    dbnd <- tf_sub ubnd_a lbnd_a ;;
    diff <- tf_sub actions lbnd_a ;;
    rel <- tf_div diff dbnd ;;
    let rel := tmap (fsoftclip (hinge_softness self)) rel in
    scaled <- tf_mul rel dbnd ;;
    shifted <- tf_add scaled lbnd_a ;;
    act <- tf_where_pos dbnd shifted ;;
    check_numerics act "Numerical error clipping action".

(** The loop over [features_per_step_i] of [_features]. *)
Fixpoint per_step_features (items : dict Tensor) (nSteps : nat) (acc : dict Tensor)
  : result (dict Tensor) :=
  match items with
  | [] => Ok acc
  | (f, feature) :: rest =>
      verify (Nat.leb 2 (length (shape feature))) (FeatureShapeMismatch f) ;;
      verify (Nat.eqb (nth 1 (shape feature) 0) nSteps) (FeatureShapeMismatch f) ;;
      per_step_features rest nSteps (dict_set f (tf_make_dim feature 3) acc)
  end.

(** [{ tf_make_dim( _, dim=2 ) for _ in features_per_path_i }]: a set
    comprehension; iterating over a dictionary yields its keys. *)
Fixpoint per_path_features (names : list string) : result (list PyObj) :=
  match names with
  | [] => Ok []
  | name :: rest =>
      o <- match tf_make_dim_name name 2 with
           | Some o => Ok o
           | None => Error (PyTypeError "tf_make_dim of a feature name")
           end ;;
      os <- per_path_features rest ;;
      Ok (o :: os)
  end.

(** [_features( data, nSteps )]: a dictionary and a set. *)
Definition _features (data : Data.t) (nSteps : nat) : result (dict Tensor * list PyObj) :=
  let features := Data.features data in
  features_per_step <- per_step_features (Features.per_step features) nSteps [] ;;
  features_per_path <- per_path_features (dict_keys (Features.per_path features)) ;;
  Ok (features_per_step, features_per_path).

(** [{ f:features_per_path[f] for f in features_per_path }]: a set has no
    subscript, the first element raises. *)
Definition subscript_each (features_per_path : list PyObj) : result (dict Tensor) :=
  match features_per_path with
  | [] => Ok []
  | _ :: _ => Error (PyTypeError "'set' object is not subscriptable")
  end.

(** [{ f:features_per_step[f][:,t,:] for f in features_per_step }]. *)
Fixpoint slice_each (features_per_step : dict Tensor) (t : nat) : result (dict Tensor) :=
  match features_per_step with
  | [] => Ok []
  | (f, x) :: rest =>
      xt <- slice_step x t ;;
      rest_t <- slice_each rest t ;;
      Ok ((f, xt) :: rest_t)
  end.

(** [pnl[:,tf.newaxis]*0. + state[tf.newaxis,:]]: for [pnl] of shape [b], a
    state of shape [k] is repeated for every path and gives the shape
    [b,k]; a scalar state raises; a state of higher rank is broadcast
    against [b,1] at its last two axes, or fails to be. *)
Definition state_to_batch (pnl state : Tensor) : result Tensor :=
  pnl_ <- expand_second pnl ;;
  state_ <- expand_front_slice state ;;
  tbin_nd fadd (tf_scale pnl_ 0) state_.

(** The state before the first step: [init_state] of a recurrent agent,
    brought to the batch; zeros for an agent that is not recurrent. *)
Definition initial_state (ag : Agent) (training : bool) (pnl : Tensor) : result Tensor :=
  if is_recurrent ag then state_to_batch pnl (init_state ag training)
  else Ok (zeros_like pnl).

(** [action[tf.newaxis,:]]. *)
Definition expand_front (x : Tensor) : Tensor := mkTensor (1 :: shape x) (data x).

(** One iteration of the main loop of [_call], for the step [t]. *)
Definition step (self : Gym) (ag : Agent) (training : bool)
    (mkt : Market.t) (nBatch nInst : nat)
    (features_per_step : dict Tensor) (features_per_path : list PyObj)
    (t : nat) (s : Rollout.t) : result Rollout.t :=
  (* build features, including recurrent state *)
  let live_features :=
    [("action", Rollout.action s); ("delta", Rollout.delta s);
     ("cost", Rollout.cost s); ("pnl", Rollout.pnl s)] in
  per_path_items <- subscript_each features_per_path ;;
  let live_features := dict_update live_features per_path_items in
  per_step_items <- slice_each features_per_step t ;;
  let live_features := dict_update live_features per_step_items in
  let live_features := dict_set "delta" (Rollout.delta s) live_features in
  let live_features := dict_set "action" (Rollout.action s) live_features in
  let live_features :=
    if is_recurrent ag then dict_set (state_feature_name ag) (Rollout.state s) live_features
    else live_features in
  (* action *)
  let '(action, state_) := agent_call ag live_features training in
  verify (shape_eqb (shape action) [nBatch; nInst] || shape_eqb (shape action) [1; nInst])
         (ShapeMismatch "action") ;;
  let action := if Nat.eqb (length (shape action)) 2 then action else expand_front action in
  lbnd_t <- slice_step (Market.lbnd_a mkt) t ;;
  ubnd_t <- slice_step (Market.ubnd_a mkt) t ;;
  action <- _clip_actions self action lbnd_t ubnd_t ;;
  let state := if is_recurrent ag then state_ else Rollout.state s in
  delta <- tf_add (Rollout.delta s) action ;;
  (* record actions per path, per step *)
  action_ <- expand_step action ;;
  actions <- (if Nat.ltb 0 t then concat_steps (Rollout.actions s) action_ else Ok action_) ;;
  (* trade *)
  cost_rate_t <- slice_step (Market.cost mkt) t ;;
  paid <- tf_mul (tf_abs action) cost_rate_t ;;
  cost_t <- reduce_sum1 paid ;;
  cost <- tf_add (Rollout.cost s) cost_t ;;
  hedges_t <- slice_step (Market.hedges mkt) t ;;
  earned <- tf_mul action hedges_t ;;
  pnl_t <- reduce_sum1 earned ;;
  pnl <- tf_add (Rollout.pnl s) pnl_t ;;
  Ok {| Rollout.pnl := pnl; Rollout.cost := cost; Rollout.delta := delta;
        Rollout.action := action; Rollout.actions := actions; Rollout.state := state |}.

(** [while tf.less(t,nSteps)]: the iterations [t, t+1, ..., t+n-1]; the
    source notes that the loop is [for t in range(nSteps)]. *)
Fixpoint main_loop (body : nat -> Rollout.t -> result Rollout.t)
    (n t : nat) (s : Rollout.t) : result Rollout.t :=
  match n with
  | 0 => Ok s
  | S n' => s' <- body t s ;; main_loop body n' (S t) s'
  end.

(** [_call( data, training )]. *)
Definition _call (self : Gym) (data : Data.t) (training : bool) : result Out.t :=
  ag <- match agent self, utility self with
        | Some ag, Some _ => Ok ag
        | _, _ => Error NotBuilt
        end ;;
  (* geometry *)
  let mkt := Data.market data in
  let hedges := Market.hedges mkt in
  '(nBatch, nSteps, nInst) <-
     match shape hedges with
     | [b; m; n] => Ok (b, m, n)
     | _ => Error (ShapeMismatch "data['market']['hedges']")
     end ;;
  (* extract market data *)
  let trading_cost := Market.cost mkt in
  let ubnd_a := Market.ubnd_a mkt in
  let lbnd_a := Market.lbnd_a mkt in
  let payoff := Market.payoff mkt in
  payoff <- (if shape_eqb (shape payoff) [nBatch; 1] then slice_col0 payoff else Ok payoff) ;;
  verify (shape_eqb (shape trading_cost) [nBatch; nSteps; nInst]) (ShapeMismatch "data['market']['cost']") ;;
  verify (shape_eqb (shape ubnd_a) [nBatch; nSteps; nInst]) (ShapeMismatch "data['market']['ubnd_a']") ;;
  verify (shape_eqb (shape lbnd_a) [nBatch; nSteps; nInst]) (ShapeMismatch "data['market']['lbnd_a']") ;;
  verify (shape_eqb (shape payoff) [nBatch]) (ShapeMismatch "data['market']['payoff']") ;;
  (* features *)
  '(features_per_step, features_per_path) <- _features data nSteps ;;
  (* main loop *)
  let pnl := zeros_like payoff in
  let cost := zeros_like payoff in
  cost_0 <- slice_step trading_cost 0 ;;
  let delta := zeros_like cost_0 in
  let action := zeros_like cost_0 in
  cost_0_ <- expand_step cost_0 ;;
  let actions := zeros_like cost_0_ in
  state <- initial_state ag training pnl ;;
  s <- main_loop (step self ag training mkt nBatch nInst features_per_step features_per_path)
         nSteps 0
         {| Rollout.pnl := pnl; Rollout.cost := cost; Rollout.delta := delta;
            Rollout.action := action; Rollout.actions := actions; Rollout.state := state |} ;;
  pnl <- check_numerics (Rollout.pnl s) "Numerical error computing pnl" ;;
  cost <- check_numerics (Rollout.cost s) "Numerical error computing cost" ;;
  (* compute utility *)
  per_path_items <- subscript_each features_per_path ;;
  let features_time_0 := dict_update [] per_path_items in
  per_step_items <- slice_each features_per_step 0 ;;
  let features_time_0 := dict_update features_time_0 per_step_items in
  ut <- match utility self with Some u => Ok u | None => Error NotBuilt end ;;
  let utility :=
    ut {| UtilityData.features_time_0 := features_time_0;
          UtilityData.payoff := payoff;
          UtilityData.pnl := pnl;
          UtilityData.cost := cost |} training in
  ut0 <- match utility0 self with
         | Some u => Ok u
         | None => Error (PyTypeError "'NoneType' object is not callable")
         end ;;
  let utility0 :=
    ut0 {| UtilityData.features_time_0 := features_time_0;
           UtilityData.payoff := payoff;
           UtilityData.pnl := tf_scale pnl 0;
           UtilityData.cost := tf_scale cost 0 |} training in
  (* prepare output *)
  loss <- tf_sub (tf_neg utility) utility0 ;;
  paid <- tf_add payoff pnl ;;
  gains <- tf_sub paid cost ;;
  Ok {| Out.loss := loss;
        Out.utility := utility;
        Out.utility0 := utility0;
        Out.gains := gains;
        Out.payoff := payoff;
        Out.pnl := pnl;
        Out.cost := cost;
        Out.actions := Rollout.actions s |}.

End Gym.

(* ------------------------------------------------------------------ *)
(** * Auxiliary definitions for the statements *)

(** ** The clip of one action value

    What [_clip_actions] computes at one position of its tensors. *)

Definition hard_clip_value (a l u : fval) : fval := fmax (fmin a u) l.

Definition soft_clip_value (outer : bool) (K c : R) (a l u : fval) : fval :=
  let a := if outer then fmax (fmin a (fmul u (Fin K))) (fmul l (Fin K)) else a in
  let dbnd := fsub u l in
  let rel := fsoftclip c (fdiv (fsub a l) dbnd) in
  if fgtb dbnd (Fin 0%R) then fadd (fmul rel dbnd) l else Fin 0%R.

(** A [1,n] tensor repeated along the batch axis, as broadcasting does. *)
Definition broadcast_rows (b : nat) (x : Tensor) : Tensor :=
  match shape x with
  | [1; n] =>
      if Nat.eqb b 1 then x
      else mkTensor [b; n] (tabulate2 b n (fun _ j => get2 n (data x) 0 j))
  | _ => x
  end.

(** The state in which the main loop of [_call] starts.  The loop is
    reached only when [initial_state] has returned; the other branch is
    never looked at. *)
Definition initial_rollout (ag : Agent) (training : bool) (payoff : Tensor) (b n : nat)
    (cost_0 : list fval) : Rollout.t :=
  {| Rollout.pnl := zeros_like payoff;
     Rollout.cost := zeros_like payoff;
     Rollout.delta := zeros_like (mkTensor [b; n] cost_0);
     Rollout.action := zeros_like (mkTensor [b; n] cost_0);
     Rollout.actions := zeros_like (mkTensor [b; 1; n] cost_0);
     Rollout.state := match initial_state ag training (zeros_like payoff) with
                      | Ok state => state
                      | Error _ => zeros_like (zeros_like payoff)
                      end |}.

(** The buffer of [x[:,t,:]], for the buffer [d] of a [b,m,n] tensor. *)
Definition slice_data (b m n : nat) (d : list fval) (t : nat) : list fval :=
  tabulate2 b n (fun i j => get3 m n d i t j).

(** The buffer of [tf.reduce_sum( x, axis=1 )], for the buffer [d] of a
    [b,n] tensor. *)
Definition row_sums (b n : nat) (d : list fval) : list fval :=
  map (fun i => fsum (map (get2 n d i) (seq 0 n))) (seq 0 b).

(** The features shown to the agent at a step, when there is no per-path
    feature: the running state, the per-step features of the step and, for
    a recurrent agent, its state. *)
Definition live_features (ag : Agent) (per_step_items : dict Tensor) (s : Rollout.t)
  : dict Tensor :=
  let lf := [("action", Rollout.action s); ("delta", Rollout.delta s);
             ("cost", Rollout.cost s); ("pnl", Rollout.pnl s)] in
  let lf := dict_update (dict_update lf []) per_step_items in
  let lf := dict_set "action" (Rollout.action s) (dict_set "delta" (Rollout.delta s) lf) in
  if is_recurrent ag then dict_set (state_feature_name ag) (Rollout.state s) lf else lf.

(** The state after the step [t], given the clipped action [act] of that
    step and the state [state_] returned by the agent; [k] is the number of
    steps recorded in the history. *)
Definition traded (mkt : Market.t) (b m n : nat) (ag : Agent) (t k : nat)
    (act state_ : Tensor) (s : Rollout.t) : Rollout.t :=
  {| Rollout.pnl :=
       mkTensor [b] (map2 fadd (data (Rollout.pnl s))
                       (row_sums b n (map2 fmul (data act)
                                        (slice_data b m n (data (Market.hedges mkt)) t))));
     Rollout.cost :=
       mkTensor [b] (map2 fadd (data (Rollout.cost s))
                       (row_sums b n (map2 fmul (map fabs (data act))
                                        (slice_data b m n (data (Market.cost mkt)) t))));
     Rollout.delta := mkTensor [b; n] (map2 fadd (data (Rollout.delta s)) (data act));
     Rollout.action := act;
     Rollout.actions :=
       if Nat.ltb 0 t
       then mkTensor [b; k + 1; n]
              (tabulate3 b (k + 1) n
                 (fun i t' j => if Nat.ltb t' k
                                then get3 k n (data (Rollout.actions s)) i t' j
                                else get3 1 n (data act) i (t' - k) j))
       else mkTensor [b; 1; n] (data act);
     Rollout.state := if is_recurrent ag then state_ else Rollout.state s |}.

(** Shapes of the running state before the step [t]. *)
Definition shaped (b n t : nat) (s : Rollout.t) : Prop :=
  shape (Rollout.pnl s) = [b] /\ shape (Rollout.cost s) = [b] /\
  shape (Rollout.delta s) = [b; n] /\
  shape (Rollout.actions s) = [b; Nat.max 1 t; n].

(** Sizes of the buffers of the running totals. *)
Definition sized (b : nat) (s : Rollout.t) : Prop :=
  length (data (Rollout.pnl s)) = b /\ length (data (Rollout.cost s)) = b.

(** Size of the buffer of the history before the step [t]. *)
Definition recorded (b n t : nat) (s : Rollout.t) : Prop :=
  length (data (Rollout.actions s)) = b * (Nat.max 1 t * n).

(** The agent returns well-formed tensors. *)
Definition agent_wf (ag : Agent) : Prop :=
  forall features training, wf (fst (agent_call ag features training)).

(** A utility returns one value per path. *)
Definition one_per_path (u : Utility) : Prop :=
  forall d training, shape (u d training) = shape (UtilityData.payoff d).

(** Values that occur when the action is zero. *)
Definition is_zero (a : fval) : Prop := a = Fin 0%R.
Definition zero_or_nan (a : fval) : Prop := a = Fin 0%R \/ a = NaN.

(** The agent returns the zero raw action, whatever it is shown. *)
Definition zero_policy (ag : Agent) : Prop :=
  forall features training,
    wf (fst (agent_call ag features training)) /\
    Forall is_zero (data (fst (agent_call ag features training))).

(** [data] with another payoff tensor. *)
Definition with_payoff (data : Data.t) (p : Tensor) : Data.t :=
  let mkt := Data.market data in
  Data.mk (Market.mk (Market.hedges mkt) (Market.cost mkt) (Market.ubnd_a mkt)
             (Market.lbnd_a mkt) p)
          (Data.features data).

(** The states after each of the iterations [t, ..., t+n-1] of the loop. *)
Fixpoint rollout_trace (body : nat -> Rollout.t -> result Rollout.t)
    (n t : nat) (s : Rollout.t) : result (list Rollout.t) :=
  match n with
  | 0 => Ok []
  | S n' =>
      s' <- body t s ;;
      rest <- rollout_trace body n' (S t) s' ;;
      Ok (s' :: rest)
  end.

(** Finite values. *)
Definition finite (a : fval) : Prop := is_finite a = true.



(** A per-step feature after [tf_make_dim( feature, 3 )]: its second axis
    is the time axis. *)
Definition time_major (m : nat) (kv : string * Tensor) : Prop :=
  exists b' k', shape (snd kv) = [b'; m; k'].


(* ------------------------------------------------------------------ *)
(** * Caching: [create_cache] and [restore_from_cache]

    The two functions read and write the keras side of the gym: the weights
    of the model ([get_weights], [set_weights]), its optimizer, and the
    log.  That side is carried by [Model], next to the gym itself. *)

(** [get_weights()]: a list of arrays. *)
Definition Weights : Type := list Tensor.

(** What [_log.warn] is called with. *)
Inductive warning : Type :=
| GymIdMismatch (cached current : string)        (* line 361 *)
| OptimizerIdMismatch (cached current : string)  (* line 364 *)
| GymWeightsIncompatible                         (* line 374 *)
| OptimizerWeightsIncompatible                   (* line 385 *).

(** The outcome of a statement of a function that returns a [bool]: the
    next statement runs, or the function has returned, or an exception
    left it. *)
Inductive flow (S : Type) : Type :=
| Next (s : S)
| Return (b : bool) (s : S)
| Raise (e : fault).
Arguments Next {S} s.
Arguments Return {S} b s.
Arguments Raise {S} e.

Definition then_ {S : Type} (first second : S -> flow S) : S -> flow S :=
  fun s =>
    match first s with
    | Next s' => second s'
    | Return b s' => Return b s'
    | Raise e => Raise e
    end.

Notation "p ;;; q" := (then_ p q) (at level 62, right associativity).

(** [if cond: body]. *)
Definition when {S : Type} (cond : S -> bool) (body : S -> flow S) : S -> flow S :=
  fun s => if cond s then body s else Next s.

(** [return b]. *)
Definition return_ {S : Type} (b : bool) : S -> flow S := fun s => Return b s.

Section Caching.

(** [OptConfig] is what [tf.keras.optimizers.serialize] returns, and
    [uniqueHash] the hash of cdxbasics.  [set_weights current given] is
    [Model.set_weights] of keras: the weights of the model afterwards, or
    [None] when it raises ValueError and leaves the model as it was.
    The last variable is [set_weights] of the optimizer. *)
Context {Config OptConfig : Type}.
Variable uniqueHash : OptConfig -> string.
Variable set_weights : Weights -> Weights -> option Weights.

Record Optimizer : Type := mkOptimizer
  { serialize : OptConfig;               (* tf.keras.optimizers.serialize( optimizer ) *)
    get_weights : option Weights;        (* optimizer.get_weights(); None: no such attribute (TensorFlow 2.11) *)
    variables : Weights                  (* optimizer.variables() *) }.

Variable optimizer_set_weights : Optimizer -> Weights -> option Optimizer.

Record Model : Type := mkModel
  { gym : @Gym Config;
    unique_id : string;                  (* config.unique_id() *)
    weights : Weights;                   (* self.get_weights() *)
    optimizer : option Optimizer;        (* self.optimizer *)
    warnings : list warning }.

(** The dictionary that [create_cache] returns and [restore_from_cache]
    reads. *)
Record Cache : Type := mkCache
  { gym_uid : string;
    gym_weights : Weights;
    opt_uid : string;
    opt_config : option OptConfig;
    opt_weights : Weights }.

(** [create_cache()]. *)
Definition create_cache (self : Model) : result Cache :=
  match agent (gym self) with
  | None => Error NotBuilt
  | Some _ =>
      let opt_config := option_map serialize (optimizer self) in
      let opt_weights :=
        match optimizer self with
        | Some o => get_weights o          (* getattr( self.optimizer, "get_weights", None ) *)
        | None => None
        end in
      let opt_weights :=
        match opt_config, opt_weights with
        | Some _, None => option_map variables (optimizer self)
        | _, _ => opt_weights
        end in
      let gym_uid := unique_id self in
      let gym_weights := weights self in
      let opt_uid := match opt_config with Some c => uniqueHash c | None => "" end in
      (* opt_weights = self.optimizer.get_weights() *)
      w <- match optimizer self with
           | None => Error (PyTypeError "'NoneType' object has no attribute 'get_weights'")
           | Some o =>
               match get_weights o with
               | None => Error (PyTypeError "optimizer has no attribute 'get_weights'")
               | Some w => Ok w
               end
           end ;;
      Ok (mkCache gym_uid gym_weights opt_uid opt_config w)
  end.

(** The hash under which a model files its optimizer ([self_opt_uid]). *)
Definition own_opt_uid (self : Model) : string :=
  match optimizer self with Some o => uniqueHash (serialize o) | None => "" end.

Definition warn (w : warning) : Model -> flow Model :=
  fun self => Next {| gym := gym self; unique_id := unique_id self; weights := weights self;
                      optimizer := optimizer self; warnings := warnings self ++ [w] |}.

(** [restore_from_cache( cache )], statement by statement. *)
Definition restore_from_cache (cache : Cache) : Model -> flow Model :=
  (fun self => match agent (gym self) with None => Raise NotBuilt | Some _ => Next self end) ;;;
  (fun self =>
     let gym_uid := gym_uid cache in
     let gym_weights := gym_weights cache in
     let opt_uid := opt_uid cache in
     let opt_config := opt_config cache in
     let opt_weights := opt_weights cache in
     let self_opt_config := option_map serialize (optimizer self) in
     let self_opt_uid := match self_opt_config with Some c => uniqueHash c | None => "" end in
     ((* check that the objects correspond to the correct configs *)
      when (fun self => negb (String.eqb gym_uid (unique_id self)))
        (fun self => (warn (GymIdMismatch gym_uid (unique_id self)) ;;; return_ false) self) ;;;
      when (fun _ => negb (String.eqb opt_uid self_opt_uid))
        (warn (OptimizerIdMismatch opt_uid self_opt_uid) ;;; return_ false) ;;;
      (* load weights *)
      (fun self =>
         match set_weights (weights self) gym_weights with
         | Some w => Next {| gym := gym self; unique_id := unique_id self; weights := w;
                             optimizer := optimizer self; warnings := warnings self |}
         | None => (warn GymWeightsIncompatible ;;; return_ false) self
         end) ;;;
      return_ true ;;;
      (* the statements after [return True] *)
      when (fun self => match optimizer self with None => true | Some _ => false end)
        (return_ true) ;;;
      (fun self =>
         match optimizer self with
         | None => Raise (PyTypeError "'NoneType' object has no attribute 'set_weights'")
         | Some o =>
             match optimizer_set_weights o opt_weights with
             | Some o' => Next {| gym := gym self; unique_id := unique_id self;
                                  weights := weights self; optimizer := Some o';
                                  warnings := warnings self |}
             | None => (warn OptimizerWeightsIncompatible ;;; return_ false) self
             end
         end) ;;;
      return_ true) self).

End Caching.

(* ------------------------------------------------------------------ *)
(** * Further definitions for the statements *)

(** What the loop accumulates on one path over the steps [0, ..., m-1],
    in the order of the loop: at the step [t] it adds the sum, over the
    [n] instruments [j], of [term t j]. *)
Definition accumulated (m n : nat) (term : nat -> nat -> fval) : fval :=
  fold_left (fun acc t => fadd acc (fsum (map (term t) (seq 0 n)))) (seq 0 m) (Fin 0%R).

(** A value that is not negative, or NaN. *)
Definition nonneg_or_nan (a : fval) : Prop := a = NaN \/ fleb (Fin 0%R) a = true.

(** The gym with another agent in the place of its own. *)
Definition with_agent {Config : Type} (self : @Gym Config) (ag : Agent) : @Gym Config :=
  mkGym (hard_clip self) (outer_clip self) (outer_clip_cut_off self) (hinge_softness self)
        (config_agent self) (config_objective self) (Some ag) (utility self) (utility0 self).

(* ------------------------------------------------------------------ *)
(** * Concrete gyms and inputs *)

(** An agent that is not recurrent and returns the same tensor at every
    step; [const_agent x] proposes the raw action [x] for its single
    instrument, as a [1,1] tensor. *)
Definition fixed_agent (raw : Tensor) : Agent :=
  mkAgent false "recurrent_state" (fun _ => mkTensor [0] [])
    (fun _ _ => (raw, mkTensor [0] [])).

Definition const_agent (x : fval) : Agent := fixed_agent (mkTensor [1; 1] [x]).

(** A utility that returns the gains of each path. *)
Definition gains_utility : Utility :=
  fun d _ =>
    mkTensor (shape (UtilityData.payoff d))
      (map2 fadd (data (UtilityData.payoff d))
         (map2 fsub (data (UtilityData.pnl d)) (data (UtilityData.cost d)))).

(** A built gym with the default environment ([outer_clip_cut_off] 10,
    hinge softness 1), in hard-clip or in soft-clip mode. *)
Definition gym_of (hard : bool) (ag : Agent) : @Gym unit :=
  mkGym hard true 10 1 tt tt (Some ag) (Some gains_utility) (Some gains_utility).

Definition demo_gym (hard : bool) (x : fval) : @Gym unit := gym_of hard (const_agent x).

Definition demo_factory : nat -> unit -> string -> Agent :=
  fun _ _ _ => const_agent (Fin (1 / 2)).

Definition demo_utility_class : unit -> string -> Utility :=
  fun _ _ => gains_utility.

Definition unbuilt_gym : @Gym unit := mkGym true true 10 1 tt tt None None None.

(** [tf_make_dim] handed a feature name: say it raises. *)
Definition no_name_dim : string -> nat -> option unit := fun _ _ => None.

Definition fins (l : list R) : list fval := map Fin l.

(** The end-to-end example of the specification: two paths, three steps,
    one instrument, no trading cost, bounds [-1,1], returns 1 and 2. *)
Definition demo_market : Market.t :=
  Market.mk (mkTensor [2; 3; 1] (fins [1; 1; 1; 2; 2; 2]%R))
            (mkTensor [2; 3; 1] (fins [0; 0; 0; 0; 0; 0]%R))
            (mkTensor [2; 3; 1] (fins [1; 1; 1; 1; 1; 1]%R))
            (mkTensor [2; 3; 1] (fins [-1; -1; -1; -1; -1; -1]%R))
            (mkTensor [2] (fins [5; 7]%R)).

Definition demo_data : Data.t := Data.mk demo_market (Features.mk [] []).

(** The same batch with its payoff given as a column. *)
Definition demo_data_column : Data.t :=
  with_payoff demo_data (mkTensor [2; 1] (fins [5; 7]%R)).

(** The same batch with one per-path feature. *)
Definition demo_data_per_path : Data.t :=
  Data.mk demo_market (Features.mk [] [("vol", mkTensor [2; 1] (fins [3; 4]%R))]).

(** One path, one step, one instrument: return 2, cost rate 1, bounds [0,1]. *)
Definition unit_market : Market.t :=
  Market.mk (mkTensor [1; 1; 1] [Fin 2%R]) (mkTensor [1; 1; 1] [Fin 1%R])
            (mkTensor [1; 1; 1] [Fin 1%R]) (mkTensor [1; 1; 1] [Fin 0%R])
            (mkTensor [1] [Fin 5%R]).

Definition unit_data : Data.t := Data.mk unit_market (Features.mk [] []).

(** Bounds of two paths and one instrument: [-1,1] and the degenerate [0,0]. *)
Definition bounds_lo : Tensor := mkTensor [2; 1] [Fin (-1); Fin 0%R].
Definition bounds_hi : Tensor := mkTensor [2; 1] [Fin 1%R; Fin 0%R].
Definition zero_bound : Tensor := mkTensor [1; 1] [Fin 0%R].

(** Numbers of binary32: 0.1 and -0.7 as float32 has them, 1, 0 and 3e38. *)
Definition b32_tenth : b32 := SpecFloat.S754_finite false 13421773 (-27).
Definition b32_minus_seven_tenths : b32 := SpecFloat.S754_finite true 11744051 (-24).
Definition b32_one : b32 := SpecFloat.S754_finite false 8388608 (-23).
Definition b32_zero : b32 := SpecFloat.S754_zero false.
Definition b32_3e38 : b32 := SpecFloat.S754_finite false 14791641 104.

(** A per-step feature of the example, given with rank 2, and a per-step
    feature that has the name of a running total. *)
Definition demo_price : Tensor := mkTensor [2; 3] (fins [10; 11; 12; 20; 21; 22]%R).
Definition demo_named_pnl : Tensor := mkTensor [2; 3; 1] (fins [7; 7; 7; 8; 8; 8]%R).

Definition demo_data_features : Data.t :=
  Data.mk demo_market (Features.mk [("price", demo_price); ("pnl", demo_named_pnl)] []).

(** The same batch with a feature that has two steps instead of three. *)
Definition demo_data_short_feature : Data.t :=
  Data.mk demo_market
    (Features.mk [("price", demo_price); ("vol", mkTensor [2; 2] (fins [1; 2; 3; 4]%R))] []).

(** The example with other returns and bounds at the last step, and another
    payoff. *)
Definition demo_market_later : Market.t :=
  Market.mk (mkTensor [2; 3; 1] (fins [1; 1; 9; 2; 2; 9]%R))
            (mkTensor [2; 3; 1] (fins [0; 0; 0; 0; 0; 0]%R))
            (mkTensor [2; 3; 1] (fins [1; 1; 4; 1; 1; 4]%R))
            (mkTensor [2; 3; 1] (fins [-1; -1; -1; -1; -1; -1]%R))
            (mkTensor [2] (fins [0; 0]%R)).

Definition demo_data_later : Data.t := Data.mk demo_market_later (Features.mk [] []).

(** A recurrent agent: its state counts the steps, its action is 1/2. *)
Definition counting_agent : Agent :=
  mkAgent true "steps" (fun _ => mkTensor [1] [Fin 0%R])
    (fun features _ =>
       (mkTensor [1; 1] [Fin (1 / 2)],
        match dict_get "steps" features with
        | Some st => tmap (fun a => fadd a (Fin 1%R)) st
        | None => mkTensor [0] []
        end)).

(** An agent that is not recurrent and returns a state all the same. *)
Definition chatty_agent : Agent :=
  mkAgent false "unused" (fun _ => mkTensor [1] [Fin 0%R])
    (fun _ _ => (mkTensor [1; 1] [Fin (1 / 2)], mkTensor [1] [Fin 42%R])).

(** A model around the gym of the example: keras accepts weights of the
    shapes of the model's own. *)
Fixpoint same_shapes (current given : Weights) : bool :=
  match current, given with
  | [], [] => true
  | x :: current', y :: given' => shape_eqb (shape x) (shape y) && same_shapes current' given'
  | _, _ => false
  end.

Definition demo_set_weights (current given : Weights) : option Weights :=
  if same_shapes current given then Some given else None.

Definition demo_hash : string -> string := fun config => config.

Definition demo_optimizer (w : R) : @Optimizer string :=
  mkOptimizer "Adam" (Some [mkTensor [1] [Fin w]]) [mkTensor [1] [Fin w]].

Definition demo_optimizer_set_weights (o : @Optimizer string) (w : Weights)
  : option (@Optimizer string) :=
  Some (mkOptimizer (serialize o) (Some w) w).

Definition demo_model (w : R) : @Model unit string :=
  mkModel (demo_gym true (Fin (1 / 2))) "gym-1" [mkTensor [2] (fins [w; w]%R)]
          (Some (demo_optimizer w)) [].

(** A cache of a gym with another configuration. *)
Definition stale_cache : @Cache string :=
  mkCache "gym-0" [mkTensor [2] (fins [5; 5]%R)] "Adam" (Some "Adam") [mkTensor [1] [Fin 5%R]].


(** The per-step features of [demo_data_features] as [_features] returns
    them, and the state in which the loop starts on the example. *)
Definition demo_per_step : dict Tensor :=
  [("price", tf_make_dim demo_price 3); ("pnl", demo_named_pnl)].

Definition demo_start (ag : Agent) : Rollout.t :=
  initial_rollout ag false (Market.payoff demo_market) 2 1
    (slice_data 2 3 1 (data (Market.cost demo_market)) 0).

(** The example with an infinite payoff on its first path. *)
Definition demo_data_infinite_payoff : Data.t :=
  with_payoff demo_data (mkTensor [2] [PInf; Fin 7%R]).

(* ================================================================== *)
(** * Properties *)

(** ** Scalars *)

Lemma R_ltb_true (x y : R) : (x < y)%R -> R_ltb x y = true.
Proof. intros H. unfold R_ltb. destruct (Rlt_dec x y); [reflexivity | contradiction]. Qed.

Lemma R_ltb_false (x y : R) : (y <= x)%R -> R_ltb x y = false.
Proof. intros H. unfold R_ltb. destruct (Rlt_dec x y); [lra | reflexivity]. Qed.

Lemma R_leb_true (x y : R) : (x <= y)%R -> R_leb x y = true.
Proof. intros H. unfold R_leb. destruct (Rle_dec x y); [reflexivity | contradiction]. Qed.

Lemma R_leb_false (x y : R) : (y < x)%R -> R_leb x y = false.
Proof. intros H. unfold R_leb. destruct (Rle_dec x y); [lra | reflexivity]. Qed.

(** Decide every comparison of reals that occurs in the goal. *)
Ltac rdec :=
  repeat match goal with
  | |- context [R_ltb ?x ?y] =>
      first [ rewrite (R_ltb_true x y) by lra | rewrite (R_ltb_false x y) by lra ]
  | |- context [R_leb ?x ?y] =>
      first [ rewrite (R_leb_true x y) by lra | rewrite (R_leb_false x y) by lra ]
  end.

Ltac rcases :=
  repeat match goal with
  | H : context [R_ltb ?x ?y] |- _ =>
      let E := fresh "E" in
      destruct (Rlt_dec x y) as [E | E];
      [ rewrite (R_ltb_true x y E) in * | rewrite (R_ltb_false x y) in * by lra ]
  | |- context [R_ltb ?x ?y] =>
      let E := fresh "E" in
      destruct (Rlt_dec x y) as [E | E];
      [ rewrite (R_ltb_true x y E) in * | rewrite (R_ltb_false x y) in * by lra ]
  | H : context [R_leb ?x ?y] |- _ =>
      let E := fresh "E" in
      destruct (Rle_dec x y) as [E | E];
      [ rewrite (R_leb_true x y E) in * | rewrite (R_leb_false x y) in * by lra ]
  | |- context [R_leb ?x ?y] =>
      let E := fresh "E" in
      destruct (Rle_dec x y) as [E | E];
      [ rewrite (R_leb_true x y E) in * | rewrite (R_leb_false x y) in * by lra ]
  end.

(** *** The soft clip takes its values strictly between 0 and 1 *)

Lemma softplus_pos (c x : R) : (0 < c)%R -> (0 < softplus c x)%R.
Proof.
  intros Hc. unfold softplus.
  apply Rmult_lt_0_compat; [assumption|].
  rewrite <- ln_1. apply ln_increasing; [lra|].
  pose proof (exp_pos (x / c)). lra.
Qed.

Lemma softplus_increasing (c x y : R) :
  (0 < c)%R -> (x < y)%R -> (softplus c x < softplus c y)%R.
Proof.
  intros Hc Hxy. unfold softplus.
  apply Rmult_lt_compat_l; [assumption|].
  pose proof (exp_pos (x / c)).
  apply ln_increasing; [lra|].
  apply Rplus_lt_compat_l. apply exp_increasing.
  unfold Rdiv. apply Rmult_lt_compat_r; [|assumption].
  apply Rinv_0_lt_compat; assumption.
Qed.

Lemma softclip01_range (c x : R) :
  (0 < c)%R -> (0 < softclip01 c x < 1)%R.
Proof.
  intros Hc. unfold softclip01.
  pose proof (softplus_pos c (x - 0) Hc) as Hs.
  pose proof (softplus_pos c (1 - 0) Hc) as Hd.
  pose proof (softplus_pos c (1 - 0 - softplus c (x - 0)) Hc) as Ha.
  assert (Hlt : (softplus c (1 - 0 - softplus c (x - 0)) < softplus c (1 - 0))%R)
    by (apply softplus_increasing; [assumption | lra]).
  set (A := softplus c (1 - 0 - softplus c (x - 0))) in *.
  set (D := softplus c (1 - 0)) in *.
  assert (Hq : (0 < A * (1 - 0) / D < 1)%R).
  { split.
    - apply Rdiv_lt_0_compat; lra.
    - apply Rmult_lt_reg_r with D; [assumption|].
      unfold Rdiv. rewrite Rmult_assoc, Rinv_l by lra. lra. }
  lra.
Qed.

Lemma fsoftclip_range (c : R) (a : fval) :
  (0 < c)%R -> a = NaN /\ fsoftclip c a = NaN \/
               exists s, fsoftclip c a = Fin s /\ (0 <= s <= 1)%R.
Proof.
  intros Hc. destruct a; simpl.
  - right. exists (softclip01 c r). split; [reflexivity|].
    pose proof (softclip01_range c r Hc). lra.
  - right. exists 1%R. split; [reflexivity | lra].
  - right. exists 0%R. split; [reflexivity | lra].
  - left. split; reflexivity.
Qed.

(** ** Lists and buffers *)

Lemma length_map2 {A B C : Type} (f : A -> B -> C) (l1 : list A) (l2 : list B) :
  length (map2 f l1 l2) = Nat.min (length l1) (length l2).
Proof. unfold map2. rewrite length_map, length_combine. reflexivity. Qed.

Lemma nth_map2 {A B C : Type} (f : A -> B -> C) (l1 : list A) (l2 : list B)
    (k : nat) (d1 : A) (d2 : B) (d : C) :
  k < length l1 -> k < length l2 ->
  nth k (map2 f l1 l2) d = f (nth k l1 d1) (nth k l2 d2).
Proof.
  revert l2 k. induction l1 as [|a l1 IH]; intros [|b l2] k H1 H2; simpl in *; try lia.
  destruct k as [|k]; [reflexivity|].
  apply IH; lia.
Qed.

Lemma nth_map_lt {A B : Type} (f : A -> B) (l : list A) (k : nat) (d : A) (d' : B) :
  k < length l -> nth k (map f l) d' = f (nth k l d).
Proof.
  intros H. rewrite (nth_indep (map f l) d' (f d)) by (rewrite length_map; exact H).
  apply map_nth.
Qed.

Lemma forallb_nth {A : Type} (p : A -> bool) (l : list A) (k : nat) (d : A) :
  forallb p l = true -> k < length l -> p (nth k l d) = true.
Proof.
  intros H Hk. rewrite forallb_forall in H. apply H. apply nth_In. exact Hk.
Qed.

Lemma length_flat_map_uniform {A B : Type} (f : A -> list B) (l : list A) (n : nat) :
  (forall a, In a l -> length (f a) = n) -> length (flat_map f l) = length l * n.
Proof.
  induction l as [|a l IH]; intros H; simpl; [reflexivity|].
  rewrite length_app, H by (left; reflexivity).
  rewrite IH by (intros; apply H; right; assumption). reflexivity.
Qed.

Lemma length_tabulate2 (b n : nat) (f : nat -> nat -> fval) :
  length (tabulate2 b n f) = b * n.
Proof.
  unfold tabulate2. rewrite (length_flat_map_uniform _ _ n).
  - rewrite length_seq. reflexivity.
  - intros. rewrite length_map, length_seq. reflexivity.
Qed.

Lemma length_tabulate3 (b m n : nat) (f : nat -> nat -> nat -> fval) :
  length (tabulate3 b m n f) = b * (m * n).
Proof.
  unfold tabulate3. rewrite (length_flat_map_uniform _ _ (m * n)).
  - rewrite length_seq. reflexivity.
  - intros. apply length_tabulate2.
Qed.


Lemma nth_flat_map_uniform {B : Type} (f : nat -> list B) (n b i j : nat) (d : B) :
  (forall a, a < b -> length (f a) = n) -> i < b -> j < n ->
  nth (i * n + j) (flat_map f (seq 0 b)) d = nth j (f i) d.
Proof.
  intros Hlen Hi Hj.
  assert (G : forall k s, (forall a, s <= a < s + k -> length (f a) = n) ->
              forall i', i' < k ->
              nth (i' * n + j) (flat_map f (seq s k)) d = nth j (f (s + i')) d).
  { induction k as [|k IH]; intros s Hl i' Hi'; [lia|].
    simpl. destruct i' as [|i'].
    - simpl. rewrite app_nth1 by (rewrite Hl by lia; exact Hj).
      rewrite Nat.add_0_r. reflexivity.
    - rewrite app_nth2 by (rewrite Hl by lia; simpl; lia).
      rewrite Hl by lia.
      replace (S i' * n + j - n) with (i' * n + j) by (simpl; lia).
      rewrite IH by (try (intros; apply Hl); lia).
      f_equal. f_equal. lia. }
  rewrite (G b 0) by (try (intros; apply Hlen); lia). reflexivity.
Qed.

Lemma get2_tabulate2 (b n : nat) (f : nat -> nat -> fval) (i j : nat) :
  i < b -> j < n -> get2 n (tabulate2 b n f) i j = f i j.
Proof.
  intros Hi Hj. unfold get2, tabulate2.
  rewrite (nth_flat_map_uniform _ n b i j) by
    (try (intros; rewrite length_map, length_seq); auto).
  rewrite (nth_map_lt _ _ _ 0) by (rewrite length_seq; exact Hj).
  rewrite seq_nth by exact Hj. reflexivity.
Qed.

Lemma get3_tabulate3 (b m n : nat) (f : nat -> nat -> nat -> fval) (i t j : nat) :
  i < b -> t < m -> j < n -> get3 m n (tabulate3 b m n f) i t j = f i t j.
Proof.
  intros Hi Ht Hj. unfold get3, tabulate3.
  replace ((i * m + t) * n + j) with (i * (m * n) + (t * n + j)) by lia.
  rewrite (nth_flat_map_uniform _ (m * n) b i (t * n + j)).
  - apply (get2_tabulate2 m n (f i) t j); assumption.
  - intros. apply length_tabulate2.
  - assumption.
  - nia.
Qed.

Lemma shape_eqb_eq (s1 s2 : list nat) : shape_eqb s1 s2 = true <-> s1 = s2.
Proof.
  revert s2. induction s1 as [|a s1 IH]; intros [|b s2]; simpl; split; intros H;
    try reflexivity; try discriminate.
  - apply andb_true_iff in H. destruct H as [Hab Hr].
    apply Nat.eqb_eq in Hab. apply IH in Hr. subst. reflexivity.
  - inversion H; subst. rewrite Nat.eqb_refl. simpl. apply IH. reflexivity.
Qed.

Lemma shape_eqb_refl (s : list nat) : shape_eqb s s = true.
Proof. apply shape_eqb_eq. reflexivity. Qed.

(** ** The bounded action transform *)

Ltac fdone := try reflexivity; try discriminate; try (exfalso; lra); try lra.
Ltac fcases := repeat (rcases; simpl in * ).


Lemma hard_clip_value_zero (l u : fval) :
  fgeb u (Fin 0%R) = true -> fleb l (Fin 0%R) = true ->
  hard_clip_value (Fin 0%R) l u = Fin 0%R.
Proof.
  unfold hard_clip_value, fgeb.
  destruct l, u; simpl; intros Hu Hl; try discriminate; fcases; fdone.
Qed.

Lemma hard_clip_value_degenerate (a l u : fval) :
  fgeb u (Fin 0%R) = true -> fleb l (Fin 0%R) = true -> l = u -> is_nan a = false ->
  hard_clip_value a l u = Fin 0%R.
Proof.
  unfold hard_clip_value, fgeb. intros Hu Hl E Ha. subst u.
  destruct a, l; simpl in *; try discriminate; fcases; fdone;
  f_equal; lra.
Qed.

Lemma soft_clip_value_degenerate (outer : bool) (K c : R) (a l u : fval) :
  fgeb u (Fin 0%R) = true -> fleb l (Fin 0%R) = true -> l = u ->
  soft_clip_value outer K c a l u = Fin 0%R.
Proof.
  unfold soft_clip_value, fgeb, fgtb, fsub. intros Hu Hl E. subst u.
  destruct l; simpl in *; try discriminate.
  fcases; fdone.
Qed.


Lemma bind_Ok_inv {A B : Type} (m : result A) (k : A -> result B) (b : B) :
  bind m k = Ok b -> exists a, m = Ok a /\ k a = Ok b.
Proof. destruct m; simpl; intros H; [eauto | discriminate]. Qed.

Lemma verify_Ok_inv (c : bool) (e : fault) (u : unit) : verify c e = Ok u -> c = true.
Proof. unfold verify. destruct c; [reflexivity | discriminate]. Qed.

Lemma broadcast2_same_shape (x y : Tensor) :
  shape x = shape y -> broadcast2 x y = Ok (shape x, (data x, data y)).
Proof. intros E. unfold broadcast2. rewrite E, shape_eqb_refl. reflexivity. Qed.

Lemma tbin_same_shape (f : fval -> fval -> fval) (x y : Tensor) :
  shape x = shape y -> tbin f x y = Ok (mkTensor (shape x) (map2 f (data x) (data y))).
Proof. intros E. unfold tbin. rewrite broadcast2_same_shape by exact E. reflexivity. Qed.

Section ClipSameShape.
Context {Config : Type}.
Implicit Type self : @Gym Config.

Lemma clip_actions_same_shape self (A L U out : Tensor) :
  shape A = shape L -> shape U = shape L ->
  length (data A) = length (data L) -> length (data U) = length (data L) ->
  _clip_actions self A L U = Ok out ->
  shape out = shape L /\ length (data out) = length (data L) /\
  forall k, k < length (data L) ->
    fgeb (nth k (data U) NaN) (Fin 0%R) = true /\
    fleb (nth k (data L) NaN) (Fin 0%R) = true /\
    nth k (data out) NaN =
      (if hard_clip self
       then hard_clip_value (nth k (data A) NaN) (nth k (data L) NaN) (nth k (data U) NaN)
       else soft_clip_value (outer_clip self) (outer_clip_cut_off self) (hinge_softness self)
              (nth k (data A) NaN) (nth k (data L) NaN) (nth k (data U) NaN)) /\
    (hard_clip self = false -> is_finite (nth k (data out) NaN) = true).
Proof.
  intros SA SU LA LU H. unfold _clip_actions in H.
  apply bind_Ok_inv in H. destruct H as [[] [H1 H]].
  apply bind_Ok_inv in H. destruct H as [[] [H2 H]].
  apply bind_Ok_inv in H. destruct H as [[] [H3 H]].
  unfold assert_greater_equal_c in H2. apply verify_Ok_inv in H2.
  unfold assert_less_equal_c in H3. apply verify_Ok_inv in H3.
  assert (Hsign : forall k, k < length (data L) ->
            fgeb (nth k (data U) NaN) (Fin 0%R) = true /\
            fleb (nth k (data L) NaN) (Fin 0%R) = true).
  { intros k Hk. split.
    - apply (forallb_nth (fun a => fgeb a (Fin 0%R))); [exact H2 | lia].
    - apply (forallb_nth (fun a => fleb a (Fin 0%R))); [exact H3 | lia]. }
  unfold tf_minimum, tf_maximum, tf_sub, tf_div, tf_mul, tf_add, tf_where_pos, tf_scale in H.
  destruct (hard_clip self).
  - rewrite tbin_same_shape in H by congruence. simpl in H.
    rewrite tbin_same_shape in H by (simpl; congruence). simpl in H.
    inversion H; subst out; clear H. simpl.
    split; [congruence|]. split; [rewrite !length_map2; lia|].
    intros k Hk. destruct (Hsign k Hk) as [Hu Hl].
    repeat split; try assumption; try discriminate.
    unfold hard_clip_value.
    rewrite (nth_map2 _ _ _ _ NaN NaN) by (rewrite ?length_map2; lia).
    rewrite (nth_map2 _ _ _ _ NaN NaN) by (rewrite ?length_map2; lia).
    reflexivity.
  - assert (HA' : exists A', (if outer_clip self
     then
      actions <-
      tbin fmin A
        (tmap (fun a : fval => fmul a (Fin (outer_clip_cut_off self))) U);;
      tbin fmax actions
        (tmap (fun a : fval => fmul a (Fin (outer_clip_cut_off self))) L)
     else Ok A) = Ok A' /\ shape A' = shape L /\
        length (data A') = length (data L) /\
        forall k, k < length (data L) ->
          nth k (data A') NaN =
          (if outer_clip self
           then fmax (fmin (nth k (data A) NaN)
                           (fmul (nth k (data U) NaN) (Fin (outer_clip_cut_off self))))
                     (fmul (nth k (data L) NaN) (Fin (outer_clip_cut_off self)))
           else nth k (data A) NaN)).
    { destruct (outer_clip self).
      - rewrite tbin_same_shape by (simpl; congruence). simpl.
        rewrite tbin_same_shape by (simpl; congruence). simpl.
        eexists. split; [reflexivity|]. simpl.
        split; [congruence|]. split; [rewrite !length_map2, !length_map; lia|].
        intros k Hk.
        rewrite (nth_map2 _ _ _ _ NaN NaN) by (rewrite ?length_map2, ?length_map; lia).
        rewrite (nth_map2 _ _ _ _ NaN NaN) by (rewrite ?length_map2, ?length_map; lia).
        rewrite !(nth_map_lt _ _ _ NaN) by lia. reflexivity.
      - exists A. repeat split; auto. }
    destruct HA' as [A' [EA' [SA' [LA' NA']]]]. rewrite EA' in H. simpl in H.
    rewrite (tbin_same_shape fsub U L) in H by congruence. simpl in H.
    rewrite (tbin_same_shape fsub A' L) in H by congruence. simpl in H.
    rewrite tbin_same_shape in H by (simpl; congruence). simpl in H.
    rewrite tbin_same_shape in H by (simpl; congruence). simpl in H.
    rewrite tbin_same_shape in H by (simpl; congruence). simpl in H.
    rewrite tbin_same_shape in H by (simpl; congruence). simpl in H.
    unfold check_numerics in H. simpl in H.
    match type of H with (if ?c then _ else _) = _ => destruct c eqn:Hfin end;
      [|discriminate].
    inversion H; subst out; clear H. simpl.
    split; [congruence|].
    assert (Hlen : forall f g h i j k0 : fval -> fval -> fval, forall sc : fval -> fval,
              length (map2 f (map2 g (data U) (data L))
                  (map2 h (map2 i (map sc (map2 j (map2 k0 (data A') (data L))
                     (map2 g (data U) (data L)))) (map2 g (data U) (data L))) (data L)))
              = length (data L))
      by (intros; rewrite ?length_map2, ?length_map, ?length_map2; lia).
    split; [apply Hlen|].
    intros k Hk. destruct (Hsign k Hk) as [Hu Hl].
    split; [exact Hu|]. split; [exact Hl|].
    split.
    + unfold soft_clip_value. rewrite <- NA' by exact Hk.
      repeat (first [ rewrite (nth_map2 _ _ _ _ NaN NaN)
                        by (rewrite ?length_map2, ?length_map, ?length_map2; lia)
                    | rewrite (nth_map_lt _ _ _ NaN)
                        by (rewrite ?length_map2, ?length_map, ?length_map2; lia) ]).
      reflexivity.
    + intros _. apply forallb_nth; [exact Hfin|]. rewrite Hlen. exact Hk.
Qed.
End ClipSameShape.

Lemma tbin_broadcast_rows (f : fval -> fval -> fval) (A X : Tensor) (b n : nat) :
  shape A = [1; n] -> shape X = [b; n] ->
  tbin f A X = tbin f (broadcast_rows b A) X.
Proof.
  intros HA HX. unfold broadcast_rows. rewrite HA.
  destruct (Nat.eqb_spec b 1) as [E | E]; [reflexivity|].
  unfold tbin, broadcast2. simpl. rewrite HA, HX. simpl.
  destruct b as [|[|b]]; try lia; simpl; rewrite !Nat.eqb_refl; try rewrite shape_eqb_refl;
    reflexivity.
Qed.

Lemma broadcast_rows_shape (A : Tensor) (b n : nat) :
  shape A = [b; n] \/ shape A = [1; n] -> wf A ->
  shape (broadcast_rows b A) = [b; n] /\ length (data (broadcast_rows b A)) = b * n.
Proof.
  unfold wf, broadcast_rows. intros [H | H] W; rewrite H in *; simpl in W.
  - destruct b as [|[|b]]; simpl; rewrite ?H; split; try reflexivity; lia.
  - destruct (Nat.eqb_spec b 1) as [E | E].
    + subst b. rewrite H. split; [reflexivity | lia].
    + simpl. split; [reflexivity | apply length_tabulate2].
Qed.

Lemma get2_broadcast_rows (A : Tensor) (b n i j : nat) :
  shape A = [b; n] \/ shape A = [1; n] -> i < b -> j < n ->
  get2 n (data (broadcast_rows b A)) i j =
  get2 n (data A) (if shape_eqb (shape A) [b; n] then i else 0) j.
Proof.
  unfold broadcast_rows. intros [H | H] Hi Hj; rewrite H.
  - rewrite shape_eqb_refl. destruct b as [|[|b]]; reflexivity.
  - destruct (Nat.eqb_spec b 1) as [E | E].
    + subst b. simpl. replace i with 0 by lia. rewrite Nat.eqb_refl. reflexivity.
    + simpl. rewrite get2_tabulate2 by assumption.
      destruct b as [|[|b]]; try lia; reflexivity.
Qed.

Lemma bind_Error_inv {A B : Type} (m : result A) (k : A -> result B) (e : fault) :
  bind m k = Error e -> m = Error e \/ exists a, m = Ok a /\ k a = Error e.
Proof. destruct m; simpl; intros H; [right; eauto | left; congruence]. Qed.

Lemma broadcast2_Error (x y : Tensor) (e : fault) :
  broadcast2 x y = Error e -> e = IncompatibleShapes.
Proof.
  unfold broadcast2. intros H.
  repeat match type of H with
         | context [if ?c then _ else _] => destruct c
         | context [match ?c with _ => _ end] => destruct c
         end; congruence.
Qed.

Lemma tbin_Error (f : fval -> fval -> fval) (x y : Tensor) (e : fault) :
  tbin f x y = Error e -> e = IncompatibleShapes.
Proof.
  unfold tbin. intros H. apply bind_Error_inv in H.
  destruct H as [H | [[s [dx dy]] [_ H]]]; [|discriminate].
  apply broadcast2_Error in H. exact H.
Qed.


Section ClipProps.
Context {Config : Type}.
Implicit Type self : @Gym Config.

Lemma clip_actions_broadcast self (A L U : Tensor) (b n : nat) :
  shape A = [1; n] -> shape L = [b; n] -> shape U = [b; n] ->
  _clip_actions self A L U = _clip_actions self (broadcast_rows b A) L U.
Proof.
  intros HA HL HU. unfold _clip_actions.
  unfold tf_minimum, tf_maximum, tf_sub.
  rewrite (tbin_broadcast_rows fmin A U b n HA HU).
  rewrite (tbin_broadcast_rows fmin A (tf_scale U (outer_clip_cut_off self)) b n HA)
    by exact HU.
  destruct (outer_clip self); [reflexivity|].
  simpl. rewrite (tbin_broadcast_rows fsub A L b n HA HL). reflexivity.
Qed.

(** What a successful [_clip_actions] returns, position by position. *)
Lemma clip_actions_Ok_inv self (A L U out : Tensor) (b n : nat) :
  shape L = [b; n] -> shape U = [b; n] -> wf L -> wf U ->
  shape A = [b; n] \/ shape A = [1; n] -> wf A ->
  _clip_actions self A L U = Ok out ->
  shape out = [b; n] /\ wf out /\
  forall i j, i < b -> j < n ->
    let a := get2 n (data A) (if shape_eqb (shape A) [b; n] then i else 0) j in
    let l := get2 n (data L) i j in
    let u := get2 n (data U) i j in
    fgeb u (Fin 0%R) = true /\ fleb l (Fin 0%R) = true /\
    get2 n (data out) i j =
      (if hard_clip self then hard_clip_value a l u
       else soft_clip_value (outer_clip self) (outer_clip_cut_off self)
              (hinge_softness self) a l u) /\
    (hard_clip self = false -> is_finite (get2 n (data out) i j) = true).
Proof.
  intros HL HU WL WU HA WA H.
  assert (E : _clip_actions self A L U = _clip_actions self (broadcast_rows b A) L U).
  { destruct HA as [HA | HA].
    - unfold broadcast_rows. rewrite HA. destruct b as [|[|b]]; reflexivity.
    - apply (clip_actions_broadcast self A L U b n); assumption. }
  rewrite E in H. clear E.
  destruct (broadcast_rows_shape A b n HA WA) as [SB LB].
  unfold wf in WL, WU. rewrite HL in WL. rewrite HU in WU. simpl in WL, WU.
  apply clip_actions_same_shape in H; try congruence; try lia.
  destruct H as [So [Lo Hk]].
  split; [congruence|]. split; [unfold wf; rewrite So, HL; simpl; lia|].
  intros i j Hi Hj.
  assert (Hij : i * n + j < length (data L)) by (rewrite WL; nia).
  specialize (Hk (i * n + j) Hij).
  rewrite <- (get2_broadcast_rows A b n i j HA Hi Hj).
  exact Hk.
Qed.


(** C4, amended.  At a position where lbnd equals ubnd, the clipped action
    that [_clip_actions] returns is exactly 0: in soft-clip mode whatever
    the raw action, in hard-clip mode for every raw action that is not
    NaN there. *)
Theorem clip_actions_degenerate self (actions lbnd_a ubnd_a out : Tensor) (b n i j : nat) :
  shape lbnd_a = [b; n] -> shape ubnd_a = [b; n] -> wf lbnd_a -> wf ubnd_a ->
  shape actions = [b; n] \/ shape actions = [1; n] -> wf actions ->
  i < b -> j < n ->
  get2 n (data lbnd_a) i j = get2 n (data ubnd_a) i j ->
  (hard_clip self = true ->
   is_nan (get2 n (data actions) (if shape_eqb (shape actions) [b; n] then i else 0) j) = false) ->
  _clip_actions self actions lbnd_a ubnd_a = Ok out ->
  get2 n (data out) i j = Fin 0%R.
Proof.
  intros HL HU WL WU HA WA Hi Hj E Hnan H.
  destruct (clip_actions_Ok_inv self actions lbnd_a ubnd_a out b n HL HU WL WU HA WA H)
    as [So [Wo Hij]].
  destruct (Hij i j Hi Hj) as [Hu [Hl [Ho Hf]]]. clear Hij.
  rewrite Ho. destruct (hard_clip self).
  - apply hard_clip_value_degenerate; auto.
  - apply soft_clip_value_degenerate; auto.
Qed.


End ClipProps.

(** *** What binary32 does not keep

    The rescaling of the soft clip rounds.  Between the bounds -0.7 and
    0.1, where the squashed value has reached 1 the result is
    0.10000002384, which is above the upper bound. *)
Lemma rescaling_exceeds_ubnd_in_binary32 :
  b32_valid b32_tenth = true /\ b32_valid b32_minus_seven_tenths = true /\
  rescale_b32 b32_one b32_minus_seven_tenths b32_tenth
    = SpecFloat.S754_finite false 13421776 (-27) /\
  b32_ltb b32_tenth (rescale_b32 b32_one b32_minus_seven_tenths b32_tenth) = true.
Proof. vm_compute. repeat split. Qed.

(** The gains are a sum of three numbers, and nothing checks them: a
    payoff and a pnl of 3e38, both finite, give infinite gains. *)
Lemma gains_overflow_in_binary32 :
  b32_valid b32_3e38 = true /\
  gains_b32 b32_3e38 b32_3e38 b32_zero = SpecFloat.S754_infinity false.
Proof. vm_compute. split; reflexivity. Qed.

(** ** One step of the rollout *)

Section StepProps.
Context {Config PyObj : Type}.
Implicit Type self : @Gym Config.

Lemma clip_actions_shape self (A L U out : Tensor) (b n : nat) :
  shape L = [b; n] -> shape U = [b; n] ->
  shape A = [b; n] \/ shape A = [1; n] ->
  _clip_actions self A L U = Ok out -> shape out = [b; n].
Proof.
  intros HL HU HA H.
  assert (E : _clip_actions self A L U = _clip_actions self (broadcast_rows b A) L U).
  { destruct HA as [HA | HA].
    - unfold broadcast_rows. rewrite HA. destruct b as [|[|b]]; reflexivity.
    - apply (clip_actions_broadcast self A L U b n); assumption. }
  rewrite E in H. clear E.
  assert (SB : shape (broadcast_rows b A) = [b; n]).
  { unfold broadcast_rows. destruct HA as [HA | HA]; rewrite HA.
    - destruct b as [|[|b]]; simpl; rewrite ?HA; reflexivity.
    - destruct (Nat.eqb_spec b 1); [subst; exact HA | reflexivity]. }
  set (A' := broadcast_rows b A) in *. clearbody A'.
  unfold _clip_actions in H.
  repeat (apply bind_Ok_inv in H; destruct H as [[] [_ H]]).
  unfold tf_minimum, tf_maximum, tf_sub, tf_div, tf_mul, tf_add, tf_where_pos, tf_scale in H.
  destruct (hard_clip self).
  - rewrite tbin_same_shape in H by congruence. simpl in H.
    rewrite tbin_same_shape in H by (simpl; congruence). simpl in H.
    inversion H. simpl. exact SB.
  - destruct (outer_clip self).
    + rewrite tbin_same_shape in H by (simpl; congruence). simpl in H.
      rewrite tbin_same_shape in H by (simpl; congruence). simpl in H.
      rewrite (tbin_same_shape fsub U L) in H by congruence. simpl in H.
      repeat (rewrite tbin_same_shape in H by (simpl; congruence); simpl in H).
      unfold check_numerics in H. destruct (forallb _ _); [|discriminate].
      inversion H. simpl. exact HU.
    + simpl in H.
      rewrite (tbin_same_shape fsub U L) in H by congruence. simpl in H.
      repeat (rewrite tbin_same_shape in H by (simpl; congruence); simpl in H).
      unfold check_numerics in H. destruct (forallb _ _); [|discriminate].
      inversion H. simpl. exact HU.
Qed.

Lemma step_Ok_inv self (ag : Agent) (training : bool) (mkt : Market.t) (b m n : nat)
    (fs : dict Tensor) (t k : nat) (s s' : Rollout.t) :
  shape (Market.hedges mkt) = [b; m; n] ->
  shape (Market.cost mkt) = [b; m; n] ->
  shape (Market.ubnd_a mkt) = [b; m; n] ->
  shape (Market.lbnd_a mkt) = [b; m; n] ->
  shape (Rollout.pnl s) = [b] -> shape (Rollout.cost s) = [b] ->
  shape (Rollout.delta s) = [b; n] -> shape (Rollout.actions s) = [b; k; n] ->
  step self ag training mkt b n fs (@nil PyObj) t s = Ok s' ->
  t < m /\
  exists items raw state_ act,
    slice_each fs t = Ok items /\
    agent_call ag (live_features ag items s) training = (raw, state_) /\
    (shape raw = [b; n] \/ shape raw = [1; n]) /\
    _clip_actions self raw
      (mkTensor [b; n] (slice_data b m n (data (Market.lbnd_a mkt)) t))
      (mkTensor [b; n] (slice_data b m n (data (Market.ubnd_a mkt)) t)) = Ok act /\
    shape act = [b; n] /\
    s' = traded mkt b m n ag t k act state_ s.
Proof.
  intros Hh Hc Hu Hl Sp Sc Sd Sa H. unfold step in H.
  simpl subscript_each in H. simpl bind in H.
  apply bind_Ok_inv in H. destruct H as [items [Hit H]].
  match type of H with context [agent_call ag ?lf training] =>
    change lf with (live_features ag items s) in H end.
  destruct (agent_call ag (live_features ag items s) training) as [raw state_] eqn:Eag.
  apply bind_Ok_inv in H. destruct H as [[] [Hv H]].
  apply verify_Ok_inv, orb_true_iff in Hv.
  assert (Hraw : shape raw = [b; n] \/ shape raw = [1; n])
    by (destruct Hv as [Hv | Hv]; apply shape_eqb_eq in Hv; auto).
  clear Hv.
  assert (Hrank : Nat.eqb (length (shape raw)) 2 = true)
    by (destruct Hraw as [E | E]; rewrite E; reflexivity).
  rewrite Hrank in H.
  unfold slice_step in H. rewrite Hl, Hu, Hc, Hh in H.
  destruct (Nat.ltb_spec t m) as [Ht | Ht]; [|discriminate].
  split; [exact Ht|].
  simpl bind in H.
  apply bind_Ok_inv in H. destruct H as [act [Hact H]].
  fold (slice_data b m n (data (Market.lbnd_a mkt)) t) in Hact.
  fold (slice_data b m n (data (Market.ubnd_a mkt)) t) in Hact.
  assert (Sact : shape act = [b; n])
    by (eapply clip_actions_shape; [| | exact Hraw | exact Hact]; reflexivity).
  exists items, raw, state_, act.
  repeat (split; [assumption|]).
  unfold tf_add, tf_mul, tf_abs in H.
  rewrite tbin_same_shape in H by congruence. simpl bind in H.
  unfold expand_step in H. rewrite Sact in H. simpl bind in H.
  apply bind_Ok_inv in H. destruct H as [actions [Hacts H]].
  unfold reduce_sum1 in H.
  repeat (first [ rewrite tbin_same_shape in H by (simpl; congruence)
                | progress (simpl shape in H; rewrite ?Sact in H) ];
          simpl bind in H).
  inversion H; subst s'; clear H.
  unfold traded. rewrite Sp, Sc, Sd. 
  f_equal.
  destruct (Nat.ltb 0 t).
  - unfold concat_steps in Hacts. rewrite Sa in Hacts. simpl in Hacts.
    rewrite !Nat.eqb_refl in Hacts. simpl in Hacts. inversion Hacts. reflexivity.
  - inversion Hacts. reflexivity.
Qed.

End StepProps.

(** ** The whole call *)

Section CallProps.
Context {Config PyObj : Type}.
Variable tf_make_dim_name : string -> nat -> option PyObj.
Implicit Type self : @Gym Config.

Lemma call_Ok_inv self (batch : Data.t) (training : bool) (res : Out.t) :
  _call tf_make_dim_name self batch training = Ok res ->
  let mkt := Data.market batch in
  exists ag ut ut0 b m n payoff fs sf ft0,
    agent self = Some ag /\ utility self = Some ut /\ utility0 self = Some ut0 /\
    shape (Market.hedges mkt) = [b; m; n] /\
    shape (Market.cost mkt) = [b; m; n] /\
    shape (Market.ubnd_a mkt) = [b; m; n] /\
    shape (Market.lbnd_a mkt) = [b; m; n] /\
    (if shape_eqb (shape (Market.payoff mkt)) [b; 1]
     then slice_col0 (Market.payoff mkt) else Ok (Market.payoff mkt)) = Ok payoff /\
    shape payoff = [b] /\
    0 < m /\
    _features tf_make_dim_name batch m = Ok (fs, @nil PyObj) /\
    main_loop (step self ag training mkt b n fs (@nil PyObj)) m 0
      (initial_rollout ag training payoff b n
         (tabulate2 b n (fun i j => get3 m n (data (Market.cost mkt)) i 0 j)))
      = Ok sf /\
    forallb is_finite (data (Rollout.pnl sf)) = true /\
    forallb is_finite (data (Rollout.cost sf)) = true /\
    (exists items, slice_each fs 0 = Ok items /\ ft0 = dict_update [] items) /\
    let utility := ut (UtilityData.mk ft0 payoff (Rollout.pnl sf) (Rollout.cost sf)) training in
    let utility0 := ut0 (UtilityData.mk ft0 payoff (tf_scale (Rollout.pnl sf) 0)
                           (tf_scale (Rollout.cost sf) 0)) training in
    exists loss paid gains,
      tf_sub (tf_neg utility) utility0 = Ok loss /\
      tf_add payoff (Rollout.pnl sf) = Ok paid /\
      tf_sub paid (Rollout.cost sf) = Ok gains /\
      res = Out.mk loss utility utility0 gains payoff (Rollout.pnl sf) (Rollout.cost sf)
              (Rollout.actions sf).
Proof.
  intros H mkt. unfold _call in H. fold mkt in H.
  apply bind_Ok_inv in H. destruct H as [ag [Hag H]].
  destruct (agent self) as [ag'|] eqn:Eag; [|discriminate].
  destruct (utility self) as [ut|] eqn:Eut; [|discriminate].
  inversion Hag; subst ag'; clear Hag.
  apply bind_Ok_inv in H. destruct H as [[[b m] n] [Hsh H]].
  destruct (shape (Market.hedges mkt)) as [|b' [|m' [|n' [|]]]] eqn:Eh; try discriminate.
  inversion Hsh; subst b' m' n'; clear Hsh.
  apply bind_Ok_inv in H. destruct H as [payoff [Hp H]].
  apply bind_Ok_inv in H. destruct H as [[] [Hc H]]. apply verify_Ok_inv, shape_eqb_eq in Hc.
  apply bind_Ok_inv in H. destruct H as [[] [Hu H]]. apply verify_Ok_inv, shape_eqb_eq in Hu.
  apply bind_Ok_inv in H. destruct H as [[] [Hl H]]. apply verify_Ok_inv, shape_eqb_eq in Hl.
  apply bind_Ok_inv in H. destruct H as [[] [Hpo H]]. apply verify_Ok_inv, shape_eqb_eq in Hpo.
  apply bind_Ok_inv in H. destruct H as [[fs fp] [Hf H]].
  apply bind_Ok_inv in H. destruct H as [cost_0 [Hc0 H]].
  unfold slice_step in Hc0. rewrite Hc in Hc0.
  destruct (Nat.ltb_spec 0 m) as [Hm | Hm]; [|discriminate].
  inversion Hc0; subst cost_0; clear Hc0.
  apply bind_Ok_inv in H. destruct H as [cost_0_ [Hc0 H]].
  unfold expand_step in Hc0. simpl in Hc0. inversion Hc0; subst cost_0_; clear Hc0.
  apply bind_Ok_inv in H. destruct H as [state [Hstate H]].
  apply bind_Ok_inv in H. destruct H as [sf [Hloop H]].
  assert (Hloop' :
    main_loop (step self ag training mkt b n fs fp) m 0
      (initial_rollout ag training payoff b n
         (tabulate2 b n (fun i j => get3 m n (data (Market.cost mkt)) i 0 j))) = Ok sf).
  { unfold initial_rollout. rewrite Hstate. exact Hloop. }
  clear Hloop Hstate state. rename Hloop' into Hloop.
  apply bind_Ok_inv in H. destruct H as [pnl [Hpnl H]].
  apply bind_Ok_inv in H. destruct H as [cost [Hcost H]].
  apply bind_Ok_inv in H. destruct H as [ppi [Hppi H]].
  apply bind_Ok_inv in H. destruct H as [psi [Hpsi H]].
  apply bind_Ok_inv in H. destruct H as [ut' [Hut H]]. inversion Hut; subst ut'; clear Hut.
  apply bind_Ok_inv in H. destruct H as [ut0 [Hut0 H]].
  destruct (utility0 self) as [ut0'|] eqn:Eut0; [|discriminate].
  inversion Hut0; subst ut0'; clear Hut0.
  apply bind_Ok_inv in H. destruct H as [loss [Hloss H]].
  apply bind_Ok_inv in H. destruct H as [paid [Hpaid H]].
  apply bind_Ok_inv in H. destruct H as [gains [Hgains H]].
  inversion H; subst res; clear H.
  unfold subscript_each in Hppi. destruct fp; [|discriminate].
  inversion Hppi; subst ppi; clear Hppi.
  unfold check_numerics in Hpnl, Hcost.
  destruct (forallb is_finite (data (Rollout.pnl sf))) eqn:Fp; [|discriminate].
  destruct (forallb is_finite (data (Rollout.cost sf))) eqn:Fc; [|discriminate].
  inversion Hpnl; subst pnl. inversion Hcost; subst cost.
  exists ag, ut, ut0, b, m, n, payoff, fs, sf, (dict_update (dict_update [] []) psi).
  repeat (split; [first [reflexivity | assumption | eauto] |]).
  exists loss, paid, gains. repeat split; assumption.
Qed.

End CallProps.

(** ** The main loop *)

Lemma main_loop_inv (body : nat -> Rollout.t -> result Rollout.t)
    (P : nat -> Rollout.t -> Prop) (n t : nat) (s sf : Rollout.t) :
  (forall t' s1 s2, t <= t' < t + n -> P t' s1 -> body t' s1 = Ok s2 -> P (S t') s2) ->
  P t s -> main_loop body n t s = Ok sf -> P (t + n) sf.
Proof.
  revert t s. induction n as [|n IH]; intros t s Hstep HP H; simpl in H.
  - inversion H; subst. rewrite Nat.add_0_r. exact HP.
  - apply bind_Ok_inv in H. destruct H as [s1 [H1 H]].
    replace (t + S n) with (S t + n) by lia.
    apply (IH (S t) s1); [| | exact H].
    + intros t' s2 s3 Ht'. apply Hstep. lia.
    + apply (Hstep t s s1); [lia | exact HP | exact H1].
Qed.

Lemma length_row_sums (b n : nat) (d : list fval) : length (row_sums b n d) = b.
Proof. unfold row_sums. rewrite length_map, length_seq. reflexivity. Qed.

Lemma length_slice_data (b m n : nat) (d : list fval) (t : nat) :
  length (slice_data b m n d t) = b * n.
Proof. apply length_tabulate2. Qed.

Lemma shaped_traded (mkt : Market.t) (b m n : nat) (ag : Agent) (t : nat)
    (act state_ : Tensor) (s : Rollout.t) :
  shaped b n t s -> shaped b n (S t) (traded mkt b m n ag t (Nat.max 1 t) act state_ s).
Proof.
  intros [Sp [Sc [Sd Sa]]]. unfold shaped, traded. simpl.
  repeat split.
  destruct t as [|t]; simpl; [reflexivity|].
  do 2 f_equal. lia.
Qed.

Lemma sized_traded (mkt : Market.t) (b m n : nat) (ag : Agent) (t k : nat)
    (act state_ : Tensor) (s : Rollout.t) :
  sized b s -> sized b (traded mkt b m n ag t k act state_ s).
Proof.
  intros [Lp Lc]. unfold sized, traded. simpl.
  split; rewrite length_map2, length_row_sums; lia.
Qed.

Lemma recorded_traded (mkt : Market.t) (b m n : nat) (ag : Agent) (t : nat)
    (act state_ : Tensor) (s : Rollout.t) :
  length (data act) = b * n ->
  recorded b n (S t) (traded mkt b m n ag t (Nat.max 1 t) act state_ s).
Proof.
  intros La. unfold recorded, traded. simpl Rollout.actions.
  destruct t as [|t]; simpl Nat.ltb; cbv iota; simpl data.
  - rewrite La. simpl. lia.
  - rewrite length_tabulate3. f_equal. f_equal. lia.
Qed.

Section LoopProps.
Context {Config PyObj : Type}.
Implicit Type self : @Gym Config.

Lemma shaped_initial (ag : Agent) (training : bool) (payoff : Tensor) (b n : nat)
    (cost_0 : list fval) :
  shape payoff = [b] ->
  shaped b n 0 (initial_rollout ag training payoff b n cost_0).
Proof.
  intros Sp. unfold shaped, initial_rollout. simpl. repeat split; assumption.
Qed.

Lemma sized_initial (ag : Agent) (training : bool) (payoff : Tensor) (b n : nat)
    (cost_0 : list fval) :
  shape payoff = [b] -> wf payoff ->
  sized b (initial_rollout ag training payoff b n cost_0).
Proof.
  intros Sp Wp. unfold wf in Wp. rewrite Sp in Wp. simpl in Wp.
  unfold sized, initial_rollout. simpl. rewrite !length_map. lia.
Qed.

End LoopProps.

(** The payoff after [payoff[:,0]] is well formed whenever the given one is. *)
Lemma flattened_payoff_wf (p payoff : Tensor) (b : nat) :
  wf p ->
  (if shape_eqb (shape p) [b; 1] then slice_col0 p else Ok p) = Ok payoff ->
  wf payoff.
Proof.
  intros W H. destruct (shape_eqb (shape p) [b; 1]) eqn:E.
  - apply shape_eqb_eq in E. unfold slice_col0 in H. rewrite E in H. simpl in H.
    inversion H; subst. unfold wf. simpl. rewrite length_map, length_seq. lia.
  - inversion H; subst. exact W.
Qed.

(** ** The action history *)

Lemma last_cons {A : Type} (a d : A) (l : list A) : last (a :: l) d = last l a.
Proof.
  revert a d. induction l as [|x l IH]; intros a d; [reflexivity|].
  change (last (a :: x :: l) d) with (last (x :: l) d).
  change (last (x :: l) a) with (last (x :: l) a).
  rewrite (IH x d), (IH x a). reflexivity.
Qed.

Lemma main_loop_trace (body : nat -> Rollout.t -> result Rollout.t) (n t : nat)
    (s sf : Rollout.t) :
  main_loop body n t s = Ok sf ->
  exists tr, rollout_trace body n t s = Ok tr /\ length tr = n /\ last tr s = sf.
Proof.
  revert t s. induction n as [|n IH]; intros t s H; simpl in H.
  - inversion H; subst. exists []. repeat split.
  - apply bind_Ok_inv in H. destruct H as [s1 [H1 H]].
    destruct (IH (S t) s1 H) as [tr [Htr [Hlen Hlast]]].
    exists (s1 :: tr).
    split; [simpl; rewrite H1; simpl; rewrite Htr; reflexivity|].
    split; [simpl; lia|].
    rewrite last_cons. exact Hlast.
Qed.

(** The history after a step: the entries recorded before are kept, and
    the new entry is the clipped action of the step. *)
Lemma traded_history (mkt : Market.t) (b m n : nat) (ag : Agent) (t : nat)
    (act state_ : Tensor) (s : Rollout.t) (i t' j : nat) :
  i < b -> j < n -> t' <= t ->
  get3 (Nat.max 1 (S t)) n
    (data (Rollout.actions (traded mkt b m n ag t (Nat.max 1 t) act state_ s))) i t' j =
  if Nat.ltb t' t then get3 (Nat.max 1 t) n (data (Rollout.actions s)) i t' j
  else get2 n (data act) i j.
Proof.
  intros Hi Hj Ht. unfold traded. simpl Rollout.actions.
  destruct t as [|t].
  - replace t' with 0 by lia. simpl. unfold get3, get2. f_equal. lia.
  - replace (Nat.max 1 (S (S t))) with (Nat.max 1 (S t) + 1) by lia.
    replace (Nat.ltb 0 (S t)) with true by reflexivity. simpl data.
    rewrite get3_tabulate3 by lia.
    replace (Nat.max 1 (S t)) with (S t) by lia.
    destruct (Nat.ltb_spec t' (S t)) as [L | G]; [reflexivity|].
    replace (t' - S t) with 0 by lia. unfold get3, get2. f_equal. lia.
Qed.

Section History.
Context {Config PyObj : Type}.
Implicit Type self : @Gym Config.

Lemma rollout_history self (ag : Agent) (training : bool) (mkt : Market.t) (b m n : nat)
    (fs : dict Tensor) (k t : nat) (s : Rollout.t) (tr : list Rollout.t) :
  shape (Market.hedges mkt) = [b; m; n] ->
  shape (Market.cost mkt) = [b; m; n] ->
  shape (Market.ubnd_a mkt) = [b; m; n] ->
  shape (Market.lbnd_a mkt) = [b; m; n] ->
  shaped b n t s ->
  rollout_trace (step self ag training mkt b n fs (@nil PyObj)) k t s = Ok tr ->
  length tr = k /\
  forall i j, i < b -> j < n ->
    (forall t', t' < t ->
       get3 (Nat.max 1 (t + k)) n (data (Rollout.actions (last tr s))) i t' j =
       get3 (Nat.max 1 t) n (data (Rollout.actions s)) i t' j) /\
    (forall q, q < k ->
       get3 (Nat.max 1 (t + k)) n (data (Rollout.actions (last tr s))) i (t + q) j =
       get2 n (data (Rollout.action (nth q tr s))) i j).
Proof.
  intros Hh Hc Hu Hl. revert t s tr.
  induction k as [|k IH]; intros t s tr HS H; simpl in H.
  - inversion H; subst tr. split; [reflexivity|].
    intros i j Hi Hj. rewrite Nat.add_0_r. simpl. split; [reflexivity|]. intros q Hq. lia.
  - apply bind_Ok_inv in H. destruct H as [s1 [H1 H]].
    apply bind_Ok_inv in H. destruct H as [rest [Hrest H]].
    inversion H; subst tr; clear H.
    pose proof HS as [Sp1 [Sc1 [Sd1 Sa1]]].
    destruct (step_Ok_inv self ag training mkt b m n fs t (Nat.max 1 t) s s1
                Hh Hc Hu Hl Sp1 Sc1 Sd1 Sa1 H1)
      as [_ [items [raw [state_ [act [_ [_ [_ [_ [_ E]]]]]]]]]].
    assert (HS1 : shaped b n (S t) s1) by (subst s1; apply shaped_traded; exact HS).
    destruct (IH (S t) s1 rest HS1 Hrest) as [Hlen Hhist].
    split; [simpl; lia|].
    intros i j Hi Hj. destruct (Hhist i j Hi Hj) as [Hold Hnew].
    rewrite last_cons. replace (t + S k) with (S t + k) by lia.
    split.
    + intros t' Ht'. rewrite Hold by lia. subst s1.
      rewrite traded_history by lia.
      replace (Nat.ltb t' t) with true by (symmetry; apply Nat.ltb_lt; exact Ht').
      reflexivity.
    + intros q Hq. destruct q as [|q].
      * rewrite Nat.add_0_r. rewrite Hold by lia. subst s1.
        rewrite traded_history by lia. rewrite Nat.ltb_irrefl. reflexivity.
      * replace (t + S q) with (S t + q) by lia. rewrite Hnew by lia.
        simpl. rewrite (nth_indep rest s1 s) by lia. reflexivity.
Qed.

End History.

Section HistoryOfCall.
Context {Config PyObj : Type}.
Variable tf_make_dim_name : string -> nat -> option PyObj.
Implicit Type self : @Gym Config.

(** The history returned by a completed rollout holds, at the step [t], the
    clipped action of the step [t]: the action of the state that the loop
    reaches after that step. *)
Lemma history_of_call self (batch : Data.t) (training : bool) (res : Out.t) (b m n : nat) :
  shape (Market.hedges (Data.market batch)) = [b; m; n] ->
  _call tf_make_dim_name self batch training = Ok res ->
  exists ag fs trace,
    agent self = Some ag /\
    _features tf_make_dim_name batch m = Ok (fs, @nil PyObj) /\
    let s0 := initial_rollout ag training (Out.payoff res) b n
                (slice_data b m n (data (Market.cost (Data.market batch))) 0) in
    rollout_trace (step self ag training (Data.market batch) b n fs (@nil PyObj)) m 0 s0
      = Ok trace /\
    length trace = m /\
    forall t i j, t < m -> i < b -> j < n ->
      get3 m n (data (Out.actions res)) i t j =
      get2 n (data (Rollout.action (nth t trace s0))) i j.
Proof.
  intros Hshape H. apply call_Ok_inv in H.
  destruct H as (ag & ut & ut0 & b' & m' & n' & payoff & fs & sf & ft0 & Eag & Eut & Eut0
                 & Hh & Hc & Hu & Hl & Hflat & Sp & Hm & Hf & Hloop & Fp & Fc & Hft
                 & loss & paid & gains & Hloss & Hpaid & Hgains & E).
  rewrite Hshape in Hh. inversion Hh; subst b' m' n'; clear Hh.
  exists ag, fs.
  apply main_loop_trace in Hloop. destruct Hloop as [trace [Htr [Hlen Hlast]]].
  exists trace. subst res. simpl.
  split; [exact Eag|]. split; [exact Hf|]. split; [exact Htr|]. split; [exact Hlen|].
  intros t i j Ht Hi Hj.
  destruct (rollout_history self ag training (Data.market batch) b m n fs m 0 _ trace
              Hshape Hc Hu Hl (shaped_initial ag training payoff b n _ Sp) Htr)
    as [_ Hhist].
  destruct (Hhist i j Hi Hj) as [_ Hnew]. specialize (Hnew t Ht).
  rewrite Nat.add_0_l in Hnew. replace (Nat.max 1 m) with m in Hnew by lia.
  unfold slice_data. rewrite <- Hlast. exact Hnew.
Qed.

End HistoryOfCall.

(** ** The result of a call *)

Lemma fsub_fneg (a b : fval) : fsub (fneg a) b = fneg (fadd a b).
Proof. destruct a, b; simpl; try reflexivity. f_equal. lra. Qed.

Lemma map2_map_l {A A' B C : Type} (f : A' -> B -> C) (g : A -> A') (l1 : list A) (l2 : list B) :
  map2 f (map g l1) l2 = map2 (fun a b => f (g a) b) l1 l2.
Proof.
  revert l2. induction l1 as [|a l1 IH]; intros [|b l2]; simpl; try reflexivity.
  unfold map2 in *. simpl. f_equal. apply IH.
Qed.

Lemma map_map2 {A B C D : Type} (g : C -> D) (f : A -> B -> C) (l1 : list A) (l2 : list B) :
  map g (map2 f l1 l2) = map2 (fun a b => g (f a b)) l1 l2.
Proof. unfold map2. rewrite map_map. reflexivity. Qed.

Lemma map2_ext {A B C : Type} (f g : A -> B -> C) (l1 : list A) (l2 : list B) :
  (forall a b, f a b = g a b) -> map2 f l1 l2 = map2 g l1 l2.
Proof. intros H. unfold map2. apply map_ext. intros [a b]. apply H. Qed.

Lemma tabulate2_map (f : fval -> fval) (b n : nat) (g : nat -> nat -> fval) :
  map f (tabulate2 b n g) = tabulate2 b n (fun i j => f (g i j)).
Proof.
  unfold tabulate2. induction (seq 0 b) as [|i l IH]; simpl; [reflexivity|].
  rewrite map_app, IH, map_map. reflexivity.
Qed.

Lemma tabulate2_ext (b n : nat) (f g : nat -> nat -> fval) :
  (forall i j, f i j = g i j) -> tabulate2 b n f = tabulate2 b n g.
Proof.
  intros H. unfold tabulate2. apply flat_map_ext. intros i. apply map_ext. intros j. apply H.
Qed.

Lemma get2_map (f : fval -> fval) (n : nat) (d : list fval) (i j : nat) :
  f NaN = NaN -> get2 n (map f d) i j = f (get2 n d i j).
Proof. intros H. unfold get2. rewrite <- H at 1. apply map_nth. Qed.

Lemma broadcast2_tmap_l (f : fval -> fval) (x y : Tensor) :
  f NaN = NaN ->
  broadcast2 (tmap f x) y =
  match broadcast2 x y with
  | Ok (s, (dx, dy)) => Ok (s, (map f dx, dy))
  | Error e => Error e
  end.
Proof.
  intros Hf. unfold broadcast2, tmap. simpl.
  destruct (shape_eqb (shape x) (shape y)); [reflexivity|].
  destruct (shape x) as [|[|[|a]] [|n [|]]]; try reflexivity;
    destruct (shape y) as [|b [|n' [|]]]; try reflexivity;
    try (destruct b as [|[|b]]; try reflexivity);
    destruct (Nat.eqb n n'); try reflexivity;
    rewrite tabulate2_map; do 2 f_equal;
    try (f_equal; apply tabulate2_ext; intros i j; apply get2_map; exact Hf).
Qed.

Lemma tf_sub_neg (x y l : Tensor) :
  tf_sub (tf_neg x) y = Ok l ->
  exists s, tf_add x y = Ok s /\ l = tf_neg s.
Proof.
  unfold tf_sub, tf_add, tf_neg, tbin. intros H.
  rewrite broadcast2_tmap_l in H by reflexivity.
  destruct (broadcast2 x y) as [[s [dx dy]]|e]; [|discriminate].
  simpl in *. inversion H; subst l; clear H.
  eexists. split; [reflexivity|].
  unfold tmap. simpl. f_equal.
  rewrite map2_map_l, map_map2. apply map2_ext. intros a b. apply fsub_fneg.
Qed.

Lemma map_const_repeat {A B : Type} (c : B) (l : list A) :
  map (fun _ => c) l = repeat c (length l).
Proof. induction l as [|a l IH]; simpl; [reflexivity | rewrite IH; reflexivity]. Qed.

Lemma scale_zero_finite (l : list fval) :
  forallb is_finite l = true ->
  map (fun a => fmul a (Fin 0%R)) l = repeat (Fin 0%R) (length l).
Proof.
  induction l as [|a l IH]; simpl; intros H; [reflexivity|].
  apply andb_true_iff in H. destruct H as [Ha Hl].
  rewrite IH by exact Hl. destruct a; try discriminate.
  simpl. do 2 f_equal. lra.
Qed.

(** Finite totals times [0.] are the zeros of the payoff's shape. *)
Lemma tf_scale_zero (x payoff : Tensor) (b : nat) :
  shape x = [b] -> length (data x) = b -> shape payoff = [b] -> wf payoff ->
  forallb is_finite (data x) = true ->
  tf_scale x 0 = zeros_like payoff.
Proof.
  intros Sx Lx Sp Wp F. unfold tf_scale, zeros_like, tmap.
  unfold wf in Wp. rewrite Sp in Wp. simpl in Wp.
  rewrite Sx, Sp. f_equal.
  rewrite scale_zero_finite by exact F. rewrite map_const_repeat. f_equal. lia.
Qed.

Section Objective.
Context {Config PyObj : Type}.
Variable tf_make_dim_name : string -> nat -> option PyObj.
Implicit Type self : @Gym Config.

Lemma wf_slice (b m n : nat) (d : list fval) (t : nat) :
  wf (mkTensor [b; n] (slice_data b m n d t)).
Proof. unfold wf. simpl. rewrite length_slice_data. lia. Qed.

Lemma rollout_invariants self (ag : Agent) (training : bool) (mkt : Market.t)
    (b m n : nat) (fs : dict Tensor) (payoff : Tensor) (cost_0 : list fval)
    (sf : Rollout.t) :
  shape (Market.hedges mkt) = [b; m; n] ->
  shape (Market.cost mkt) = [b; m; n] ->
  shape (Market.ubnd_a mkt) = [b; m; n] ->
  shape (Market.lbnd_a mkt) = [b; m; n] ->
  shape payoff = [b] -> length cost_0 = b * n ->
  main_loop (step self ag training mkt b n fs (@nil PyObj)) m 0
    (initial_rollout ag training payoff b n cost_0) = Ok sf ->
  shaped b n m sf /\ (wf payoff -> sized b sf) /\ (agent_wf ag -> recorded b n m sf).
Proof.
  intros Hh Hc Hu Hl Sp Lc0 H.
  apply (main_loop_inv _
           (fun t s => shaped b n t s /\ (wf payoff -> sized b s) /\
                       (agent_wf ag -> recorded b n t s))) in H.
  - exact H.
  - intros t s1 s2 _ [HS [HZ HR]] Hstep.
    pose proof HS as [Sp1 [Sc1 [Sd1 Sa1]]].
    destruct (step_Ok_inv self ag training mkt b m n fs t (Nat.max 1 t) s1 s2
                Hh Hc Hu Hl Sp1 Sc1 Sd1 Sa1 Hstep)
      as [_ [items [raw [state_ [act [_ [Eag [Hraw [Hclip [Sact E]]]]]]]]]].
    subst s2. split; [apply shaped_traded; exact HS|].
    split; [intros W; apply sized_traded; auto|].
    intros Wag. apply recorded_traded.
    assert (Wraw : wf raw) by (specialize (Wag (live_features ag items s1) training);
                               rewrite Eag in Wag; exact Wag).
    apply clip_actions_Ok_inv with (b := b) (n := n) in Hclip;
      try reflexivity; try apply wf_slice; try assumption.
    destruct Hclip as [_ [Wact _]]. unfold wf in Wact. rewrite Sact in Wact.
    simpl in Wact. lia.
  - split; [apply shaped_initial; exact Sp|].
    split; [intros W; apply sized_initial; assumption|].
    intros _. unfold recorded, initial_rollout. simpl. rewrite length_map. lia.
Qed.

(** The two utility calls of a completed rollout. *)
Lemma utilities_of_call self (batch : Data.t) (training : bool) (res : Out.t) :
  wf (Market.payoff (Data.market batch)) ->
  _call tf_make_dim_name self batch training = Ok res ->
  exists ut ut0 b m n fs items,
    utility self = Some ut /\ utility0 self = Some ut0 /\
    shape (Market.hedges (Data.market batch)) = [b; m; n] /\
    (if shape_eqb (shape (Market.payoff (Data.market batch))) [b; 1]
     then slice_col0 (Market.payoff (Data.market batch))
     else Ok (Market.payoff (Data.market batch))) = Ok (Out.payoff res) /\
    _features tf_make_dim_name batch m = Ok (fs, @nil PyObj) /\
    slice_each fs 0 = Ok items /\
    Out.utility res =
      ut (UtilityData.mk (dict_update [] items) (Out.payoff res) (Out.pnl res) (Out.cost res))
         training /\
    Out.utility0 res =
      ut0 (UtilityData.mk (dict_update [] items) (Out.payoff res)
             (zeros_like (Out.payoff res)) (zeros_like (Out.payoff res))) training.
Proof.
  intros Wp H. apply call_Ok_inv in H.
  destruct H as (ag & ut & ut0 & b & m & n & payoff & fs & sf & ft0 & Eag & Eut & Eut0
                 & Hh & Hc & Hu & Hl & Hflat & Sp & Hm & Hf & Hloop & Fp & Fc
                 & [items [Hit Eft]]
                 & loss & paid & gains & Hloss & Hpaid & Hgains & E).
  apply rollout_invariants with (m := m) in Hloop;
    try assumption; try apply length_tabulate2.
  destruct Hloop as [[Sp' [Sc' _]] [HZ _]].
  assert (Wpay : wf payoff) by (eapply flattened_payoff_wf; eassumption).
  destruct (HZ Wpay) as [Lp Lc].
  exists ut, ut0, b, m, n, fs, items. subst res ft0. simpl.
  repeat (split; [assumption|]). split; [reflexivity|].
  rewrite (tf_scale_zero (Rollout.pnl sf) payoff b) by assumption.
  rewrite (tf_scale_zero (Rollout.cost sf) payoff b) by assumption.
  reflexivity.
Qed.

(** C2.  Whenever a rollout completes, its result satisfies
    loss = -(utility + utility0) and gains = payoff + pnl - cost, whatever
    the values of utility, utility0, payoff, pnl and cost are. *)
Theorem loss_and_gains_identities self (batch : Data.t) (training : bool) (res : Out.t) :
  _call tf_make_dim_name self batch training = Ok res ->
  (exists sum, tf_add (Out.utility res) (Out.utility0 res) = Ok sum /\
               Out.loss res = tf_neg sum) /\
  (exists paid, tf_add (Out.payoff res) (Out.pnl res) = Ok paid /\
                tf_sub paid (Out.cost res) = Ok (Out.gains res)).
Proof.
  intros H. apply call_Ok_inv in H.
  destruct H as (ag & ut & ut0 & b & m & n & payoff & fs & sf & ft0 & _ & _ & _ & _ & _ & _
                 & _ & _ & _ & _ & _ & _ & _ & _ & _ & loss & paid & gains
                 & Hloss & Hpaid & Hgains & E).
  subst res. simpl. split.
  - apply tf_sub_neg. exact Hloss.
  - exists paid. split; assumption.
Qed.

(** C8.  For a batch of [b] paths, [m] steps and [n] instruments, the
    result of a completed rollout has [actions] of shape [b,m,n], with a
    buffer of that size, and each of loss, utility, utility0, gains,
    payoff, pnl and cost of shape [b].  The history holds one entry per
    step, in step order: its entry [t] is the clipped action of the state
    that the loop reaches after the step [t].  The agent is taken to
    return well-formed tensors and the two utilities one value per path. *)
Theorem result_shapes self (batch : Data.t) (training : bool) (res : Out.t) (b m n : nat) :
  shape (Market.hedges (Data.market batch)) = [b; m; n] ->
  wf (Market.payoff (Data.market batch)) ->
  (forall ag, agent self = Some ag -> agent_wf ag) ->
  (forall u, utility self = Some u \/ utility0 self = Some u -> one_per_path u) ->
  _call tf_make_dim_name self batch training = Ok res ->
  (shape (Out.actions res) = [b; m; n] /\ wf (Out.actions res)) /\
  shape (Out.loss res) = [b] /\ shape (Out.utility res) = [b] /\
  shape (Out.utility0 res) = [b] /\
  (shape (Out.gains res) = [b] /\ wf (Out.gains res)) /\
  (shape (Out.payoff res) = [b] /\ wf (Out.payoff res)) /\
  (shape (Out.pnl res) = [b] /\ wf (Out.pnl res)) /\
  (shape (Out.cost res) = [b] /\ wf (Out.cost res)) /\
  exists ag fs trace,
    agent self = Some ag /\
    _features tf_make_dim_name batch m = Ok (fs, @nil PyObj) /\
    let s0 := initial_rollout ag training (Out.payoff res) b n
                (slice_data b m n (data (Market.cost (Data.market batch))) 0) in
    rollout_trace (step self ag training (Data.market batch) b n fs (@nil PyObj)) m 0 s0
      = Ok trace /\
    length trace = m /\
    forall t i j, t < m -> i < b -> j < n ->
      get3 m n (data (Out.actions res)) i t j =
      get2 n (data (Rollout.action (nth t trace s0))) i j.
Proof.
  intros Hshape Wp Wag Hut H.
  pose proof (history_of_call tf_make_dim_name self batch training res b m n Hshape H)
    as Hhistory.
  apply call_Ok_inv in H.
  destruct H as (ag & ut & ut0 & b' & m' & n' & payoff & fs & sf & ft0 & Eag & Eut & Eut0
                 & Hh & Hc & Hu & Hl & Hflat & Sp & Hm & Hf & Hloop & Fp & Fc & Hft
                 & loss & paid & gains & Hloss & Hpaid & Hgains & E).
  rewrite Hshape in Hh. inversion Hh; subst b' m' n'; clear Hh.
  apply rollout_invariants with (m := m) in Hloop;
    try assumption; try apply length_tabulate2.
  destruct Hloop as [[Sp' [Sc' [Sd' Sa']]] [HZ HR]].
  assert (Wpay : wf payoff) by (eapply flattened_payoff_wf; eassumption).
  destruct (HZ Wpay) as [Lp Lc]. specialize (HR (Wag ag Eag)). unfold recorded in HR.
  replace (Nat.max 1 m) with m in * by lia.
  assert (Spaid : shape paid = [b] /\ length (data paid) = b).
  { unfold tf_add in Hpaid. rewrite tbin_same_shape in Hpaid by congruence.
    inversion Hpaid; subst paid. simpl. rewrite length_map2.
    unfold wf in Wpay. rewrite Sp in Wpay. simpl in Wpay. split; [assumption | lia]. }
  destruct Spaid as [Spd Lpd].
  assert (Sgains : shape gains = [b] /\ length (data gains) = b).
  { unfold tf_sub in Hgains. rewrite tbin_same_shape in Hgains by congruence.
    inversion Hgains; subst gains. simpl. rewrite length_map2. split; [assumption | lia]. }
  assert (Su : shape (ut (UtilityData.mk ft0 payoff (Rollout.pnl sf) (Rollout.cost sf))
                        training) = [b])
    by (rewrite (Hut ut (or_introl Eut)); exact Sp).
  assert (Su0 : shape (ut0 (UtilityData.mk ft0 payoff (tf_scale (Rollout.pnl sf) 0)
                              (tf_scale (Rollout.cost sf) 0)) training) = [b])
    by (rewrite (Hut ut0 (or_intror Eut0)); exact Sp).
  assert (Sloss : shape loss = [b]).
  { unfold tf_sub, tf_neg in Hloss. rewrite tbin_same_shape in Hloss by (simpl; congruence).
    inversion Hloss; subst loss. simpl. exact Su. }
  subst res. simpl in *. unfold wf. rewrite Sa', Sp', Sc', Sp.
  destruct Sgains as [Sg Lg]. rewrite Sg. simpl.
  unfold wf in Wpay. rewrite Sp in Wpay. simpl in Wpay.
  repeat match goal with
         | |- (_ /\ _) /\ _ =>
             split; [split; [first [assumption | reflexivity] | first [assumption | lia]]|]
         | |- _ /\ _ => split; [first [assumption | lia]|]
         end.
  exact Hhistory.
Qed.

Variable AgentFactory : nat -> Config -> string -> Agent.
Variable MonetaryUtility : Config -> string -> Utility.

(** C9.  After [build], [utility] and [utility0] are two instances of the
    monetary utility, made by two calls of its constructor.  In a completed
    rollout the hedged utility is the first instance applied to payoff, pnl,
    cost and the time-zero features; the baseline is the second instance
    applied to the same payoff and features with pnl and cost replaced by
    zeros of the payoff's shape.  Hence any gym that shares [utility0],
    whatever its agent, clip mode and [utility], reports the same
    baseline on the same data. *)
Theorem baseline_utility (self0 self : Gym) (hedges_shape : list nat)
    (batch : Data.t) (training : bool) (res : Out.t) :
  build AgentFactory MonetaryUtility self0 hedges_shape = Ok self ->
  wf (Market.payoff (Data.market batch)) ->
  _call tf_make_dim_name self batch training = Ok res ->
  (exists features_time_0,
     Out.utility res =
       MonetaryUtility (config_objective self0) "utility"
         (UtilityData.mk features_time_0 (Out.payoff res) (Out.pnl res) (Out.cost res))
         training /\
     Out.utility0 res =
       MonetaryUtility (config_objective self0) "utility0"
         (UtilityData.mk features_time_0 (Out.payoff res)
            (zeros_like (Out.payoff res)) (zeros_like (Out.payoff res))) training) /\
  (forall (other : @Gym Config) (res' : Out.t),
     utility0 other = utility0 self ->
     _call tf_make_dim_name other batch training = Ok res' ->
     Out.utility0 res' = Out.utility0 res).
Proof.
  intros Hb Wp H.
  assert (Hinst : utility self = Some (MonetaryUtility (config_objective self0) "utility") /\
                  utility0 self = Some (MonetaryUtility (config_objective self0) "utility0")).
  { unfold build in Hb. destruct (agent self0); [discriminate|].
    destruct (nth_error hedges_shape 2); [|discriminate].
    inversion Hb; subst self. simpl. split; reflexivity. }
  destruct Hinst as [Iu Iu0].
  destruct (utilities_of_call self batch training res Wp H)
    as (ut & ut0 & b & m & n & fs & items & Eu & Eu0 & Hh & Hflat & Hf & Hit & Ru & Ru0).
  rewrite Iu in Eu. rewrite Iu0 in Eu0. inversion Eu; subst ut. inversion Eu0; subst ut0.
  split.
  - exists (dict_update [] items). split; assumption.
  - intros other res' Eo H'.
    destruct (utilities_of_call other batch training res' Wp H')
      as (ut' & ut0' & b' & m' & n' & fs' & items' & _ & Eu0' & Hh' & Hflat' & Hf' & Hit'
          & _ & Ru0').
    rewrite Hh in Hh'. inversion Hh'; subst b' m' n'.
    rewrite Hflat in Hflat'. inversion Hflat' as [Ep].
    rewrite Hf in Hf'. inversion Hf'; subst fs'.
    rewrite Hit in Hit'. inversion Hit'; subst items'.
    rewrite Eo, Iu0 in Eu0'. inversion Eu0'; subst ut0'.
    rewrite Ru0', Ru0, Ep. reflexivity.
Qed.

End Objective.

(** ** The rollout of the zero action *)

Lemma Forall_of_get2 (P : fval -> Prop) (b n : nat) (d : list fval) :
  length d = b * n ->
  (forall i j, i < b -> j < n -> P (get2 n d i j)) -> Forall P d.
Proof.
  intros L H. apply Forall_nth. intros k d0 Hk.
  rewrite (nth_indep d d0 NaN) by exact Hk.
  assert (Hn : n <> 0) by (intros E; subst n; lia).
  pose proof (Nat.div_mod_eq k n) as E.
  assert (Hi : k / n < b) by (apply Nat.Div0.div_lt_upper_bound; lia).
  assert (Hj : k mod n < n) by (apply Nat.mod_upper_bound; exact Hn).
  specialize (H (k / n) (k mod n) Hi Hj). unfold get2 in H.
  replace (k / n * n + k mod n) with k in H by lia. exact H.
Qed.

Lemma get2_in_range (P : fval -> Prop) (n : nat) (d : list fval) (i j : nat) :
  Forall P d -> i * n + j < length d -> P (get2 n d i j).
Proof.
  intros H Hk. unfold get2. rewrite Forall_forall in H. apply H. apply nth_In. exact Hk.
Qed.

Lemma zero_or_nan_get2 (n : nat) (d : list fval) (i j : nat) :
  Forall zero_or_nan d -> zero_or_nan (get2 n d i j).
Proof.
  intros H. unfold get2.
  destruct (Nat.lt_ge_cases (i * n + j) (length d)) as [L | G].
  - rewrite Forall_forall in H. apply H. apply nth_In. exact L.
  - rewrite nth_overflow by exact G. right. reflexivity.
Qed.

Lemma Forall_map2_l {A B C : Type} (P : A -> Prop) (Q : C -> Prop) (f : A -> B -> C)
    (l1 : list A) (l2 : list B) :
  Forall P l1 -> (forall a b, P a -> Q (f a b)) -> Forall Q (map2 f l1 l2).
Proof.
  intros H Hf. revert l2. induction H as [|a l1 Ha Hl IH]; intros [|b l2];
    unfold map2; simpl; constructor.
  - apply Hf. exact Ha.
  - apply IH.
Qed.

Lemma Forall_map2 {A B C : Type} (P : A -> Prop) (P' : B -> Prop) (Q : C -> Prop)
    (f : A -> B -> C) (l1 : list A) (l2 : list B) :
  Forall P l1 -> Forall P' l2 -> (forall a b, P a -> P' b -> Q (f a b)) ->
  Forall Q (map2 f l1 l2).
Proof.
  intros H. revert l2. induction H as [|a l1 Ha Hl IH]; intros l2 H2 Hf;
    destruct H2 as [|b l2 Hb H2]; unfold map2; simpl; constructor.
  - apply Hf; assumption.
  - apply IH; assumption.
Qed.

Lemma zero_or_nan_fmul_zero (a h : fval) : is_zero a -> zero_or_nan (fmul a h).
Proof.
  unfold is_zero. intros ->. destruct h; simpl; unfold inf_scale; rdec; try (right; reflexivity).
  left. f_equal. lra.
Qed.

Lemma zero_or_nan_fadd (a b : fval) : zero_or_nan a -> zero_or_nan b -> zero_or_nan (fadd a b).
Proof.
  intros [-> | ->] [-> | ->]; simpl; try (right; reflexivity). left. f_equal. lra.
Qed.

Lemma zero_or_nan_fsum (l : list fval) : Forall zero_or_nan l -> zero_or_nan (fsum l).
Proof.
  unfold fsum. assert (G : forall acc, zero_or_nan acc -> Forall zero_or_nan l ->
                          zero_or_nan (fold_left fadd l acc)).
  { induction l as [|a l IH]; intros acc Hacc H; simpl; [exact Hacc|].
    inversion H; subst. apply IH; [apply zero_or_nan_fadd; assumption | assumption]. }
  apply G. left. reflexivity.
Qed.

Lemma zero_or_nan_row_sums (b n : nat) (d : list fval) :
  Forall zero_or_nan d -> Forall zero_or_nan (row_sums b n d).
Proof.
  intros H. unfold row_sums. apply Forall_forall. intros x Hx.
  apply in_map_iff in Hx. destruct Hx as [i [<- _]].
  apply zero_or_nan_fsum. apply Forall_forall. intros y Hy.
  apply in_map_iff in Hy. destruct Hy as [j [<- _]].
  apply zero_or_nan_get2. exact H.
Qed.

Lemma is_zero_fabs (a : fval) : is_zero a -> is_zero (fabs a).
Proof. unfold is_zero. intros ->. simpl. rewrite Rabs_R0. reflexivity. Qed.

Lemma finite_zero_or_nan (l : list fval) :
  Forall zero_or_nan l -> forallb is_finite l = true -> l = repeat (Fin 0%R) (length l).
Proof.
  induction 1 as [|a l Ha Hl IH]; simpl; intros F; [reflexivity|].
  apply andb_true_iff in F. destruct F as [Fa Fl].
  rewrite <- IH by exact Fl. destruct Ha as [-> | ->]; [reflexivity | discriminate].
Qed.

Lemma fadd_zero_r (a : fval) : fadd a (Fin 0%R) = a.
Proof. destruct a; simpl; try reflexivity. f_equal. lra. Qed.

Lemma fsub_zero_r (a : fval) : fsub a (Fin 0%R) = a.
Proof. destruct a; simpl; try reflexivity. f_equal. lra. Qed.

Lemma map2_zero_r (f : fval -> fval -> fval) (l : list fval) :
  (forall a, f a (Fin 0%R) = a) -> map2 f l (repeat (Fin 0%R) (length l)) = l.
Proof.
  intros H. induction l as [|a l IH]; [reflexivity|].
  unfold map2 in *. simpl. rewrite H, IH. reflexivity.
Qed.

Section ZeroAction.
Context {Config PyObj : Type}.
Variable tf_make_dim_name : string -> nat -> option PyObj.
Implicit Type self : @Gym Config.

Lemma raw_index_in_range (raw : Tensor) (b n i j : nat) :
  shape raw = [b; n] \/ shape raw = [1; n] -> wf raw -> i < b -> j < n ->
  (if shape_eqb (shape raw) [b; n] then i else 0) * n + j < length (data raw).
Proof.
  intros HA WA Hi Hj. unfold wf in WA. rewrite WA.
  destruct HA as [HA | HA]; rewrite HA.
  - rewrite shape_eqb_refl. simpl. nia.
  - destruct (shape_eqb [1; n] [b; n]) eqn:E; simpl; [|lia].
    apply shape_eqb_eq in E. inversion E; subst. nia.
Qed.

Lemma clip_zero_hard self (raw L U act : Tensor) (b n : nat) :
  hard_clip self = true ->
  shape L = [b; n] -> shape U = [b; n] -> wf L -> wf U ->
  shape raw = [b; n] \/ shape raw = [1; n] -> wf raw ->
  Forall is_zero (data raw) ->
  _clip_actions self raw L U = Ok act ->
  Forall is_zero (data act).
Proof.
  intros Hh HL HU WL WU HA WA Z H.
  destruct (clip_actions_Ok_inv self raw L U act b n HL HU WL WU HA WA H) as [So [Wo Hij]].
  apply (Forall_of_get2 _ b n).
  - unfold wf in Wo. rewrite So in Wo. simpl in Wo. lia.
  - intros i j Hi Hj. destruct (Hij i j Hi Hj) as [Hu [Hl [Ho _]]].
    rewrite Hh in Ho. unfold is_zero. rewrite Ho.
    assert (Ha : is_zero (get2 n (data raw) (if shape_eqb (shape raw) [b; n] then i else 0) j))
      by (apply get2_in_range; [exact Z | apply raw_index_in_range; assumption]).
    rewrite Ha. apply hard_clip_value_zero; assumption.
Qed.

Lemma zero_action_totals self (ag : Agent) (training : bool) (mkt : Market.t)
    (b m n : nat) (fs : dict Tensor) (payoff : Tensor) (cost_0 : list fval)
    (sf : Rollout.t) :
  hard_clip self = true -> zero_policy ag ->
  shape (Market.hedges mkt) = [b; m; n] ->
  shape (Market.cost mkt) = [b; m; n] ->
  shape (Market.ubnd_a mkt) = [b; m; n] ->
  shape (Market.lbnd_a mkt) = [b; m; n] ->
  shape payoff = [b] ->
  main_loop (step self ag training mkt b n fs (@nil PyObj)) m 0
    (initial_rollout ag training payoff b n cost_0) = Ok sf ->
  Forall zero_or_nan (data (Rollout.pnl sf)) /\ Forall zero_or_nan (data (Rollout.cost sf)).
Proof.
  intros Hh Hz Hsh Hc Hu Hl Sp H.
  apply (main_loop_inv _
           (fun t s => shaped b n t s /\
                       Forall zero_or_nan (data (Rollout.pnl s)) /\
                       Forall zero_or_nan (data (Rollout.cost s)))) in H.
  - destruct H as [_ H]. exact H.
  - intros t s1 s2 _ [HS [Zp Zc]] Hstep.
    pose proof HS as [Sp1 [Sc1 [Sd1 Sa1]]].
    destruct (step_Ok_inv self ag training mkt b m n fs t (Nat.max 1 t) s1 s2
                Hsh Hc Hu Hl Sp1 Sc1 Sd1 Sa1 Hstep)
      as [_ [items [raw [state_ [act [_ [Eag [Hraw [Hclip [Sact E]]]]]]]]]].
    subst s2. split; [apply shaped_traded; exact HS|].
    destruct (Hz (live_features ag items s1) training) as [Wraw Zraw].
    rewrite Eag in Wraw, Zraw. simpl in Wraw, Zraw.
    assert (Zact : Forall is_zero (data act)).
    { apply (clip_zero_hard self raw _ _ act b n Hh) in Hclip;
        try reflexivity; try apply wf_slice; assumption. }
    unfold traded. simpl. split.
    + apply (Forall_map2 zero_or_nan zero_or_nan);
        [exact Zp | | intros; apply zero_or_nan_fadd; assumption].
      apply zero_or_nan_row_sums.
      apply (Forall_map2_l is_zero); [exact Zact|].
      intros a h Ha. apply zero_or_nan_fmul_zero. exact Ha.
    + apply (Forall_map2 zero_or_nan zero_or_nan);
        [exact Zc | | intros; apply zero_or_nan_fadd; assumption].
      apply zero_or_nan_row_sums.
      apply (Forall_map2_l is_zero).
      * apply Forall_forall. intros x Hx. apply in_map_iff in Hx.
        destruct Hx as [a [<- Ha]]. apply is_zero_fabs.
        rewrite Forall_forall in Zact. apply Zact. exact Ha.
      * intros a h Ha. apply zero_or_nan_fmul_zero. exact Ha.
  - split; [apply shaped_initial; exact Sp|].
    unfold initial_rollout, zeros_like, tmap. simpl.
    split; apply Forall_forall; intros x Hx; apply in_map_iff in Hx;
      destruct Hx as [a [<- _]]; left; reflexivity.
Qed.

(** C1, amended.  In hard-clip mode, if the policy returns the zero raw
    action at every step, then in the result of every completed rollout
    pnl and cost are zero on every path and the gains are the payoff. *)
Theorem zero_action_rollout self (ag : Agent) (batch : Data.t) (training : bool)
    (res : Out.t) :
  hard_clip self = true ->
  agent self = Some ag -> zero_policy ag ->
  wf (Market.payoff (Data.market batch)) ->
  _call tf_make_dim_name self batch training = Ok res ->
  Out.pnl res = zeros_like (Out.payoff res) /\
  Out.cost res = zeros_like (Out.payoff res) /\
  Out.gains res = Out.payoff res.
Proof.
  intros Hh Eag Hz Wp H. apply call_Ok_inv in H.
  destruct H as (ag' & ut & ut0 & b & m & n & payoff & fs & sf & ft0 & Eag' & Eut & Eut0
                 & Hsh & Hc & Hu & Hl & Hflat & Sp & Hm & Hf & Hloop & Fp & Fc & Hft
                 & loss & paid & gains & Hloss & Hpaid & Hgains & E).
  rewrite Eag in Eag'. inversion Eag'; subst ag'; clear Eag'.
  pose proof Hloop as Hinv.
  apply rollout_invariants with (m := m) in Hinv;
    try assumption; try apply length_tabulate2.
  destruct Hinv as [[Sp' [Sc' _]] [HZ _]].
  assert (Wpay : wf payoff) by (eapply flattened_payoff_wf; eassumption).
  destruct (HZ Wpay) as [Lp Lc].
  apply zero_action_totals with (m := m) in Hloop; try assumption.
  destruct Hloop as [Zp Zc].
  apply finite_zero_or_nan in Zp; [|exact Fp]. apply finite_zero_or_nan in Zc; [|exact Fc].
  rewrite Lp in Zp. rewrite Lc in Zc.
  unfold wf in Wpay. rewrite Sp in Wpay. simpl in Wpay.
  assert (Ep : Rollout.pnl sf = zeros_like payoff).
  { destruct (Rollout.pnl sf) as [sp dp]. simpl in *. subst sp dp.
    unfold zeros_like, tmap. rewrite Sp, map_const_repeat. do 2 f_equal. lia. }
  assert (Ec : Rollout.cost sf = zeros_like payoff).
  { destruct (Rollout.cost sf) as [sc dc]. simpl in *. subst sc dc.
    unfold zeros_like, tmap. rewrite Sp, map_const_repeat. do 2 f_equal. lia. }
  subst res. simpl. split; [exact Ep|]. split; [exact Ec|].
  rewrite Ep in Hpaid. rewrite Ec in Hgains.
  unfold tf_add, zeros_like, tmap in Hpaid.
  rewrite tbin_same_shape in Hpaid by reflexivity. simpl in Hpaid.
  rewrite map_const_repeat, (map2_zero_r fadd _ fadd_zero_r) in Hpaid.
  inversion Hpaid; subst paid; clear Hpaid.
  unfold tf_sub, zeros_like, tmap in Hgains.
  rewrite tbin_same_shape in Hgains by reflexivity. simpl in Hgains.
  rewrite map_const_repeat, (map2_zero_r fsub _ fsub_zero_r) in Hgains.
  inversion Hgains. destruct payoff; reflexivity.
Qed.

End ZeroAction.

(** ** The payoff given as a column *)

Lemma main_loop_ext (body body' : nat -> Rollout.t -> result Rollout.t) (n t : nat)
    (s : Rollout.t) :
  (forall t' s', body t' s' = body' t' s') ->
  main_loop body n t s = main_loop body' n t s.
Proof.
  intros H. revert t s. induction n as [|n IH]; intros t s; simpl; [reflexivity|].
  rewrite H. destruct (body' t s); simpl; [apply IH | reflexivity].
Qed.

Lemma slice_col0_flat (p : Tensor) (b : nat) :
  shape p = [b; 1] ->
  exists flat, slice_col0 p = Ok flat /\ shape flat = [b] /\ (wf p -> data flat = data p).
Proof.
  intros Sp. unfold slice_col0. rewrite Sp. simpl.
  eexists. split; [reflexivity|]. split; [reflexivity|]. simpl.
  unfold wf. rewrite Sp. simpl. intros W.
  apply nth_ext with (d := NaN) (d' := NaN).
  - rewrite length_map, length_seq. lia.
  - intros k Hk. rewrite length_map, length_seq in Hk.
    rewrite (nth_map_lt _ _ _ 0) by (rewrite length_seq; exact Hk).
    rewrite seq_nth by exact Hk. unfold get2. f_equal. lia.
Qed.

Section Payoff.
Context {Config PyObj : Type}.
Variable tf_make_dim_name : string -> nat -> option PyObj.
Implicit Type self : @Gym Config.

Lemma step_ignores_payoff self (ag : Agent) (training : bool) (mkt : Market.t) (p : Tensor)
    (b n : nat) (fs : dict Tensor) (fp : list PyObj) (t : nat) (s : Rollout.t) :
  step self ag training mkt b n fs fp t s =
  step self ag training
    (Market.mk (Market.hedges mkt) (Market.cost mkt) (Market.ubnd_a mkt) (Market.lbnd_a mkt) p)
    b n fs fp t s.
Proof. destruct mkt. reflexivity. Qed.

(** C10.  A payoff of shape [b,1] is flattened to shape [b] before it is
    validated: the validation accepts it and the call is the call on the
    flattened payoff.  A payoff of any shape other than [b] and [b,1] makes
    a built gym fail with a shape-mismatch fault, which names the payoff
    when the other market tensors have the expected shape. *)
Theorem payoff_column_is_flattened self (batch : Data.t) (training : bool) (b m n : nat) :
  shape (Market.hedges (Data.market batch)) = [b; m; n] ->
  let p := Market.payoff (Data.market batch) in
  (shape p = [b; 1] ->
   exists flat,
     slice_col0 p = Ok flat /\ shape flat = [b] /\ (wf p -> data flat = data p) /\
     verify (shape_eqb (shape flat) [b]) (ShapeMismatch "data['market']['payoff']") = Ok tt /\
     _call tf_make_dim_name self batch training =
     _call tf_make_dim_name self (with_payoff batch flat) training) /\
  (shape p <> [b] -> shape p <> [b; 1] ->
   agent self <> None -> utility self <> None ->
   (exists field, _call tf_make_dim_name self batch training = Error (ShapeMismatch field)) /\
   (shape (Market.cost (Data.market batch)) = [b; m; n] ->
    shape (Market.ubnd_a (Data.market batch)) = [b; m; n] ->
    shape (Market.lbnd_a (Data.market batch)) = [b; m; n] ->
    _call tf_make_dim_name self batch training =
    Error (ShapeMismatch "data['market']['payoff']"))).
Proof.
  intros Hh p. split.
  - intros Sp. destruct (slice_col0_flat p b Sp) as [flat [Hflat [Sf Df]]].
    exists flat. split; [exact Hflat|]. split; [exact Sf|]. split; [exact Df|].
    split; [rewrite Sf, shape_eqb_refl; reflexivity|].
    unfold _call, with_payoff. simpl. fold p.
    destruct (match agent self with Some ag => _ | None => _ end) as [ag|e]; [|reflexivity].
    simpl. rewrite Hh. simpl. rewrite Sp, Sf, shape_eqb_refl, Hflat. simpl.
    replace (Nat.eqb b b && false) with false by (rewrite Nat.eqb_refl; reflexivity).
    simpl.
    destruct (verify (shape_eqb (shape (Market.cost (Data.market batch))) [b; m; n]) _);
      [|reflexivity]. simpl.
    destruct (verify (shape_eqb (shape (Market.ubnd_a (Data.market batch))) [b; m; n]) _);
      [|reflexivity]. simpl.
    destruct (verify (shape_eqb (shape (Market.lbnd_a (Data.market batch))) [b; m; n]) _);
      [|reflexivity]. simpl.
    rewrite Sf, shape_eqb_refl. simpl.
    unfold _features. simpl.
    destruct (per_step_features _ _ _) as [fs|e]; [|reflexivity]. simpl.
    destruct (per_path_features _ _) as [fp|e]; [|reflexivity]. simpl.
    destruct (slice_step (Market.cost (Data.market batch)) 0) as [c0|e]; [|reflexivity]. simpl.
    destruct (expand_step c0) as [c0'|e]; [|reflexivity]. cbn [bind].
    destruct (initial_state ag training (zeros_like flat)) as [state|e]; [|reflexivity].
    cbn [bind].
    rewrite (main_loop_ext _ _ _ _ _
               (step_ignores_payoff self ag training (Data.market batch) flat b n fs fp)).
    reflexivity.
  - intros N1 N2 Ha Hu.
    assert (E1 : shape_eqb (shape p) [b; 1] = false).
    { destruct (shape_eqb (shape p) [b; 1]) eqn:E; [|reflexivity].
      apply shape_eqb_eq in E. contradiction. }
    assert (E2 : shape_eqb (shape p) [b] = false).
    { destruct (shape_eqb (shape p) [b]) eqn:E; [|reflexivity].
      apply shape_eqb_eq in E. contradiction. }
    unfold _call. fold p.
    destruct (agent self) as [ag|]; [|contradiction].
    destruct (utility self) as [ut|]; [|contradiction].
    simpl. rewrite Hh. simpl. rewrite E1. simpl. split.
    + unfold verify.
      destruct (shape_eqb (shape (Market.cost (Data.market batch))) [b; m; n]);
        [|eexists; reflexivity]. simpl.
      destruct (shape_eqb (shape (Market.ubnd_a (Data.market batch))) [b; m; n]);
        [|eexists; reflexivity]. simpl.
      destruct (shape_eqb (shape (Market.lbnd_a (Data.market batch))) [b; m; n]);
        [|eexists; reflexivity]. simpl.
      rewrite E2. simpl. eexists; reflexivity.
    + intros Sc Su Sl. rewrite Sc, Su, Sl, !shape_eqb_refl. simpl. rewrite E2. reflexivity.
Qed.

End Payoff.

(** ** Per-path features, and the shape of the action *)

Section PerPath.
Context {Config PyObj : Type}.
Variable tf_make_dim_name : string -> nat -> option PyObj.
Implicit Type self : @Gym Config.

Lemma per_path_features_nonempty (names : list string) (set : list PyObj) :
  names <> [] -> per_path_features tf_make_dim_name names = Ok set -> set <> [].
Proof.
  destruct names as [|k r]; [contradiction|]. intros _ H. simpl in H.
  apply bind_Ok_inv in H. destruct H as [o [_ H]].
  apply bind_Ok_inv in H. destruct H as [os [_ H]].
  inversion H. discriminate.
Qed.

(** C6, as the code behaves.  When the per-path mapping is not empty,
    [_features] returns for it, if anything, a non-empty set and not a
    mapping; a set cannot be subscripted, and [_call] fails on every such
    input. *)
Theorem per_path_features_break_call self (batch : Data.t) (training : bool) :
  Features.per_path (Data.features batch) <> [] ->
  (forall nSteps fs set,
     _features tf_make_dim_name batch nSteps = Ok (fs, set) ->
     set <> [] /\
     subscript_each set = Error (PyTypeError "'set' object is not subscriptable")) /\
  exists e, _call tf_make_dim_name self batch training = Error e.
Proof.
  intros Hne.
  assert (Hset : forall nSteps fs set,
            _features tf_make_dim_name batch nSteps = Ok (fs, set) ->
            set <> [] /\
            subscript_each set = Error (PyTypeError "'set' object is not subscriptable")).
  { intros nSteps fs set H. unfold _features in H.
    apply bind_Ok_inv in H. destruct H as [fs' [_ H]].
    apply bind_Ok_inv in H. destruct H as [set' [Hs H]].
    inversion H; subst fs' set'; clear H.
    apply per_path_features_nonempty in Hs.
    - split; [exact Hs|]. destruct set; [contradiction | reflexivity].
    - unfold dict_keys. destruct (Features.per_path (Data.features batch));
        [contradiction | discriminate]. }
  split; [exact Hset|].
  destruct (_call tf_make_dim_name self batch training) as [res|e] eqn:H;
    [|exists e; reflexivity].
  exfalso. apply call_Ok_inv in H.
  destruct H as (ag & ut & ut0 & b & m & n & payoff & fs & sf & ft0 & _ & _ & _
                 & _ & _ & _ & _ & _ & _ & _ & Hf & _).
  apply Hset in Hf. destruct Hf as [Hf _]. apply Hf. reflexivity.
Qed.

End PerPath.

Section Step.
Context {Config PyObj : Type}.
Implicit Type self : @Gym Config.

Lemma clip_actions_broadcast_rows self (raw L U : Tensor) (b n : nat) :
  shape L = [b; n] -> shape U = [b; n] ->
  shape raw = [b; n] \/ shape raw = [1; n] ->
  _clip_actions self raw L U = _clip_actions self (broadcast_rows b raw) L U /\
  shape (broadcast_rows b raw) = [b; n].
Proof.
  intros HL HU [HA | HA].
  - unfold broadcast_rows. rewrite HA. destruct b as [|[|b]]; simpl; rewrite ?HA; auto.
  - split; [apply (clip_actions_broadcast self raw L U b n); assumption|].
    unfold broadcast_rows. rewrite HA.
    destruct (Nat.eqb_spec b 1); [subst; exact HA | reflexivity].
Qed.

Lemma step_unfolded self (ag : Agent) (training : bool) (mkt : Market.t)
    (b m n : nat) (fs items : dict Tensor) (t : nat) (s : Rollout.t)
    (raw state_ : Tensor) :
  shape (Market.hedges mkt) = [b; m; n] ->
  shape (Market.cost mkt) = [b; m; n] ->
  shape (Market.ubnd_a mkt) = [b; m; n] ->
  shape (Market.lbnd_a mkt) = [b; m; n] ->
  t < m ->
  slice_each fs t = Ok items ->
  agent_call ag (live_features ag items s) training = (raw, state_) ->
  step self ag training mkt b n fs (@nil PyObj) t s =
  (verify (shape_eqb (shape raw) [b; n] || shape_eqb (shape raw) [1; n])
     (ShapeMismatch "action") ;;
   action <- _clip_actions self
               (if Nat.eqb (length (shape raw)) 2 then raw else expand_front raw)
               (mkTensor [b; n] (slice_data b m n (data (Market.lbnd_a mkt)) t))
               (mkTensor [b; n] (slice_data b m n (data (Market.ubnd_a mkt)) t)) ;;
   delta <- tf_add (Rollout.delta s) action ;;
   action_ <- expand_step action ;;
   actions <- (if Nat.ltb 0 t then concat_steps (Rollout.actions s) action_
               else Ok action_) ;;
   paid <- tf_mul (tf_abs action)
             (mkTensor [b; n] (slice_data b m n (data (Market.cost mkt)) t)) ;;
   cost_t <- reduce_sum1 paid ;;
   cost <- tf_add (Rollout.cost s) cost_t ;;
   earned <- tf_mul action
               (mkTensor [b; n] (slice_data b m n (data (Market.hedges mkt)) t)) ;;
   pnl_t <- reduce_sum1 earned ;;
   pnl <- tf_add (Rollout.pnl s) pnl_t ;;
   Ok (Rollout.mk pnl cost delta action actions
         (if is_recurrent ag then state_ else Rollout.state s))).
Proof.
  intros Hh Hc Hu Hl Ht Hit Eag.
  unfold step. simpl subscript_each. simpl bind at 1. rewrite Hit. simpl bind at 1.
  match goal with |- context [agent_call ag ?lf training] =>
    change lf with (live_features ag items s) end.
  rewrite Eag. unfold slice_step. rewrite Hl, Hu, Hc, Hh.
  destruct (Nat.ltb_spec t m) as [_ | G]; [|lia].
  reflexivity.
Qed.

(** A step whose action has an accepted shape is the clip of the action
    followed by the update of the running state. *)
Lemma step_after_clip self (ag : Agent) (training : bool) (mkt : Market.t)
    (b m n : nat) (fs items : dict Tensor) (t k : nat) (s : Rollout.t)
    (raw state_ : Tensor) :
  shape (Market.hedges mkt) = [b; m; n] ->
  shape (Market.cost mkt) = [b; m; n] ->
  shape (Market.ubnd_a mkt) = [b; m; n] ->
  shape (Market.lbnd_a mkt) = [b; m; n] ->
  shape (Rollout.pnl s) = [b] -> shape (Rollout.cost s) = [b] ->
  shape (Rollout.delta s) = [b; n] -> shape (Rollout.actions s) = [b; k; n] ->
  t < m ->
  slice_each fs t = Ok items ->
  agent_call ag (live_features ag items s) training = (raw, state_) ->
  shape raw = [b; n] \/ shape raw = [1; n] ->
  step self ag training mkt b n fs (@nil PyObj) t s =
  (action <- _clip_actions self raw
               (mkTensor [b; n] (slice_data b m n (data (Market.lbnd_a mkt)) t))
               (mkTensor [b; n] (slice_data b m n (data (Market.ubnd_a mkt)) t)) ;;
   Ok (traded mkt b m n ag t k action state_ s)).
Proof.
  intros Hh Hc Hu Hl Sp Sc Sd Sa Ht Hit Eag Hraw.
  rewrite (step_unfolded self ag training mkt b m n fs items t s raw state_)
    by assumption.
  assert (Hv : shape_eqb (shape raw) [b; n] || shape_eqb (shape raw) [1; n] = true)
    by (destruct Hraw as [E | E]; rewrite E, shape_eqb_refl; [reflexivity | apply orb_true_r]).
  rewrite Hv.
  replace (Nat.eqb (length (shape raw)) 2) with true
    by (destruct Hraw as [E | E]; rewrite E; reflexivity).
  simpl bind at 1.
  destruct (_clip_actions self raw _ _) as [act|e] eqn:Hclip; [|reflexivity].
  assert (Sact : shape act = [b; n])
    by (eapply clip_actions_shape; [| | exact Hraw | exact Hclip]; reflexivity).
  simpl bind at 1. simpl bind at 2.
  unfold tf_add, tf_mul, tf_abs.
  rewrite tbin_same_shape by congruence. simpl bind at 1.
  unfold expand_step. rewrite Sact. simpl bind at 1.
  assert (Hacts : (if Nat.ltb 0 t
                   then concat_steps (Rollout.actions s) (mkTensor [b; 1; n] (data act))
                   else Ok (mkTensor [b; 1; n] (data act))) =
                  Ok (Rollout.actions (traded mkt b m n ag t k act state_ s))).
  { unfold traded. simpl. destruct (Nat.ltb 0 t); [|reflexivity].
    unfold concat_steps. rewrite Sa. simpl. rewrite !Nat.eqb_refl. reflexivity. }
  rewrite Hacts. simpl bind at 1.
  unfold reduce_sum1.
  repeat (first [ rewrite tbin_same_shape by (simpl; congruence)
                | progress (simpl shape; rewrite ?Sact) ];
          simpl bind).
  unfold traded. rewrite Sp, Sc, Sd. reflexivity.
Qed.

(** C7.  At the step [t], an action of the policy whose shape is neither
    [b,n] nor [1,n] aborts the step with the shape-mismatch fault of the
    action.  An action of shape [b,n] or [1,n] is accepted: the step is the
    clip of the action broadcast to [b,n], followed by the update of delta,
    pnl, cost and of the action history with the clipped action. *)
Theorem action_shape_contract self (ag : Agent) (training : bool) (mkt : Market.t)
    (b m n : nat) (fs items : dict Tensor) (t k : nat) (s : Rollout.t)
    (raw state_ : Tensor) :
  shape (Market.hedges mkt) = [b; m; n] ->
  shape (Market.cost mkt) = [b; m; n] ->
  shape (Market.ubnd_a mkt) = [b; m; n] ->
  shape (Market.lbnd_a mkt) = [b; m; n] ->
  shape (Rollout.pnl s) = [b] -> shape (Rollout.cost s) = [b] ->
  shape (Rollout.delta s) = [b; n] -> shape (Rollout.actions s) = [b; k; n] ->
  t < m ->
  slice_each fs t = Ok items ->
  agent_call ag (live_features ag items s) training = (raw, state_) ->
  let lbnd_t := mkTensor [b; n] (slice_data b m n (data (Market.lbnd_a mkt)) t) in
  let ubnd_t := mkTensor [b; n] (slice_data b m n (data (Market.ubnd_a mkt)) t) in
  (shape raw <> [b; n] -> shape raw <> [1; n] ->
   step self ag training mkt b n fs (@nil PyObj) t s = Error (ShapeMismatch "action")) /\
  (shape raw = [b; n] \/ shape raw = [1; n] ->
   shape (broadcast_rows b raw) = [b; n] /\
   step self ag training mkt b n fs (@nil PyObj) t s =
   (action <- _clip_actions self (broadcast_rows b raw) lbnd_t ubnd_t ;;
    Ok (traded mkt b m n ag t k action state_ s))).
Proof.
  intros Hh Hc Hu Hl Sp Sc Sd Sa Ht Hit Eag lbnd_t ubnd_t. split.
  - intros N1 N2.
    rewrite (step_unfolded self ag training mkt b m n fs items t s raw state_)
      by assumption.
    replace (shape_eqb (shape raw) [b; n]) with false
      by (symmetry; destruct (shape_eqb (shape raw) [b; n]) eqn:E; [|reflexivity];
          apply shape_eqb_eq in E; contradiction).
    replace (shape_eqb (shape raw) [1; n]) with false
      by (symmetry; destruct (shape_eqb (shape raw) [1; n]) eqn:E; [|reflexivity];
          apply shape_eqb_eq in E; contradiction).
    reflexivity.
  - intros Hraw.
    destruct (clip_actions_broadcast_rows self raw lbnd_t ubnd_t b n eq_refl eq_refl Hraw)
      as [Hbc Sbc].
    split; [exact Sbc|].
    rewrite <- Hbc.
    apply (step_after_clip self ag training mkt b m n fs items t k s raw state_);
      assumption.
Qed.

End Step.

(** ** Bounds and features that pass their checks *)

Lemma sign_bounds_ordered (l u : fval) :
  fgeb u (Fin 0%R) = true -> fleb l (Fin 0%R) = true -> fgeb u l = true.
Proof.
  unfold fgeb. destruct l, u; simpl; intros Hu Hl; try discriminate; try reflexivity.
  fcases; fdone.
Qed.

Lemma forallb_of_nth {A : Type} (p : A -> bool) (l : list A) (d : A) :
  (forall k, k < length l -> p (nth k l d) = true) -> forallb p l = true.
Proof.
  intros H. apply forallb_forall. intros x Hx.
  destruct (In_nth l x d Hx) as [k [Hk E]]. rewrite <- E. apply H. exact Hk.
Qed.



Lemma tf_make_dim_time_major (x : Tensor) (m : nat) :
  2 <= length (shape x) -> nth 1 (shape x) 0 = m ->
  exists b' k', shape (tf_make_dim x 3) = [b'; m; k'].
Proof.
  unfold tf_make_dim. destruct (shape x) as [|b' [|m' [|k' [|k'' r]]]]; simpl; intros L E;
    try lia; subst m'; eauto.
Qed.


Lemma slice_each_returns (fs : dict Tensor) (m t : nat) :
  Forall (time_major m) fs -> t < m -> exists items, slice_each fs t = Ok items.
Proof.
  intros H Ht. induction H as [|[f x] fs [b' [k' Hx]] Hfs [items IH]]; simpl.
  - exists []. reflexivity.
  - simpl in Hx. unfold slice_step. rewrite Hx.
    replace (Nat.ltb t m) with true by (symmetry; apply Nat.ltb_lt; exact Ht).
    simpl. rewrite IH. simpl. eexists. reflexivity.
Qed.

(* ================================================================== *)
(** * Concrete runs *)

Ltac run_step :=
  cbv -[R_ltb R_leb Rplus Rmult Rminus Ropp Rdiv Rinv Rabs IZR softclip01];
  rdec.
Ltac run := repeat (progress run_step).

Lemma zero_policy_const : zero_policy (const_agent (Fin 0%R)).
Proof.
  intros features training. simpl. split; [reflexivity|].
  constructor; [reflexivity | constructor].
Defined.

Lemma zero_action_rollout_witness :
  exists res,
    _call no_name_dim (demo_gym true (Fin 0%R)) demo_data false = Ok res /\
    Out.pnl res = zeros_like (Out.payoff res) /\
    Out.cost res = zeros_like (Out.payoff res) /\
    Out.gains res = Out.payoff res.
Proof.
  eexists. split; [run; reflexivity|].
  apply (zero_action_rollout no_name_dim (demo_gym true (Fin 0%R)) (const_agent (Fin 0%R))
           demo_data false).
  - reflexivity.
  - reflexivity.
  - exact zero_policy_const.
  - reflexivity.
  - run. reflexivity.
Defined.

Lemma zero_action_soft_clip_counterexample :
  zero_policy (const_agent (Fin 0%R)) /\
  exists res,
    _call no_name_dim (demo_gym false (Fin 0%R)) unit_data false = Ok res /\
    Out.pnl res <> zeros_like (Out.payoff res) /\
    Out.cost res <> zeros_like (Out.payoff res) /\
    Out.gains res <> Out.payoff res.
Proof.
  split; [exact zero_policy_const|].
  eexists. split; [run; reflexivity|].
  pose proof (softclip01_range 1 ((0 + - 0) / (1 + - 0)) ltac:(lra)) as Hs.
  cbv -[Rplus Rmult Rminus Ropp Rdiv Rinv Rabs IZR softclip01].
  set (s := softclip01 1 ((0 + - 0) / (1 + - 0))) in *.
  assert (Habs : Rabs (s * (1 + - 0) + 0) = (s * (1 + - 0) + 0)%R)
    by (apply Rabs_pos_eq; lra).
  repeat split; intros E; inversion E as [E']; rewrite ?Habs in E'; lra.
Qed.

Lemma loss_and_gains_identities_witness :
  exists res,
    _call no_name_dim (demo_gym false (Fin (1 / 2))) demo_data false = Ok res /\
    (exists sum, tf_add (Out.utility res) (Out.utility0 res) = Ok sum /\
                 Out.loss res = tf_neg sum) /\
    (exists paid, tf_add (Out.payoff res) (Out.pnl res) = Ok paid /\
                  tf_sub paid (Out.cost res) = Ok (Out.gains res)).
Proof.
  eexists. split; [run; reflexivity|].
  apply (loss_and_gains_identities no_name_dim (demo_gym false (Fin (1 / 2))) demo_data false).
  run. reflexivity.
Defined.



Lemma clip_actions_degenerate_witness :
  (exists out,
     _clip_actions (demo_gym false NaN) (mkTensor [1; 1] [NaN]) zero_bound zero_bound = Ok out /\
     get2 1 (data out) 0 0 = Fin 0%R) /\
  (exists out,
     _clip_actions (demo_gym true NaN) (mkTensor [1; 1] [Fin 3%R]) zero_bound zero_bound
       = Ok out /\
     get2 1 (data out) 0 0 = Fin 0%R).
Proof.
  split; eexists; (split; [run; reflexivity|]).
  - apply (clip_actions_degenerate (demo_gym false NaN) (mkTensor [1; 1] [NaN])
             zero_bound zero_bound _ 1 1 0 0);
      try reflexivity; try lia; try (left; reflexivity); try discriminate.
    run. reflexivity.
  - apply (clip_actions_degenerate (demo_gym true NaN) (mkTensor [1; 1] [Fin 3%R])
             zero_bound zero_bound _ 1 1 0 0);
      try reflexivity; try lia; try (left; reflexivity).
    run. reflexivity.
Defined.

Lemma hard_clip_degenerate_nan_counterexample :
  get2 1 (data zero_bound) 0 0 = get2 1 (data zero_bound) 0 0 /\
  _clip_actions (demo_gym true NaN) (mkTensor [1; 1] [NaN]) zero_bound zero_bound
    = Ok (mkTensor [1; 1] [NaN]) /\
  get2 1 [NaN] 0 0 <> Fin 0%R.
Proof.
  split; [reflexivity|]. split; [run; reflexivity | discriminate].
Qed.



Lemma per_path_features_break_call_witness :
  exists e, _call no_name_dim (demo_gym true (Fin (1 / 2))) demo_data_per_path false = Error e.
Proof.
  apply (per_path_features_break_call no_name_dim (demo_gym true (Fin (1 / 2)))
           demo_data_per_path false).
  discriminate.
Defined.

Lemma per_path_feature_raises :
  _call no_name_dim (demo_gym true (Fin (1 / 2))) demo_data_per_path false
    = Error (PyTypeError "tf_make_dim of a feature name") /\
  _call (fun _ _ => Some tt) (demo_gym true (Fin (1 / 2))) demo_data_per_path false
    = Error (PyTypeError "'set' object is not subscriptable").
Proof. split; run; reflexivity. Qed.

Lemma one_per_path_gains_utility : one_per_path gains_utility.
Proof. intros d training. reflexivity. Defined.

Lemma agent_wf_const (x : fval) : agent_wf (const_agent x).
Proof. intros features training. reflexivity. Defined.

Lemma result_shapes_witness :
  exists res,
    _call no_name_dim (demo_gym false (Fin (1 / 2))) demo_data false = Ok res /\
    (shape (Out.actions res) = [2; 3; 1] /\ wf (Out.actions res)) /\
    shape (Out.loss res) = [2] /\ shape (Out.utility res) = [2] /\
    shape (Out.utility0 res) = [2] /\
    (shape (Out.gains res) = [2] /\ wf (Out.gains res)) /\
    (shape (Out.payoff res) = [2] /\ wf (Out.payoff res)) /\
    (shape (Out.pnl res) = [2] /\ wf (Out.pnl res)) /\
    (shape (Out.cost res) = [2] /\ wf (Out.cost res)) /\
    exists ag fs trace,
      agent (demo_gym false (Fin (1 / 2))) = Some ag /\
      _features no_name_dim demo_data 3 = Ok (fs, @nil unit) /\
      let s0 := initial_rollout ag false (Out.payoff res) 2 1
                  (slice_data 2 3 1 (data (Market.cost (Data.market demo_data))) 0) in
      rollout_trace (step (demo_gym false (Fin (1 / 2))) ag false (Data.market demo_data)
                       2 1 fs (@nil unit)) 3 0 s0 = Ok trace /\
      length trace = 3 /\
      forall t i j, t < 3 -> i < 2 -> j < 1 ->
        get3 3 1 (data (Out.actions res)) i t j =
        get2 1 (data (Rollout.action (nth t trace s0))) i j.
Proof.
  eexists. split; [run; reflexivity|].
  apply (result_shapes no_name_dim (demo_gym false (Fin (1 / 2))) demo_data false _ 2 3 1).
  - reflexivity.
  - reflexivity.
  - intros ag E. inversion E. apply agent_wf_const.
  - intros u [E | E]; inversion E; apply one_per_path_gains_utility.
  - run. reflexivity.
Defined.

Lemma baseline_utility_witness :
  exists res,
    build demo_factory demo_utility_class unbuilt_gym [2; 3; 1]
      = Ok (demo_gym true (Fin (1 / 2))) /\
    _call no_name_dim (demo_gym true (Fin (1 / 2))) demo_data false = Ok res /\
    (exists features_time_0,
       Out.utility res =
         demo_utility_class tt "utility"
           (UtilityData.mk features_time_0 (Out.payoff res) (Out.pnl res) (Out.cost res))
           false /\
       Out.utility0 res =
         demo_utility_class tt "utility0"
           (UtilityData.mk features_time_0 (Out.payoff res)
              (zeros_like (Out.payoff res)) (zeros_like (Out.payoff res))) false) /\
    (forall (other : @Gym unit) (res' : Out.t),
       utility0 other = utility0 (demo_gym true (Fin (1 / 2))) ->
       _call no_name_dim other demo_data false = Ok res' ->
       Out.utility0 res' = Out.utility0 res).
Proof.
  eexists. split; [reflexivity|]. split; [run; reflexivity|].
  apply (baseline_utility no_name_dim demo_factory demo_utility_class unbuilt_gym
           (demo_gym true (Fin (1 / 2))) [2; 3; 1] demo_data false).
  - reflexivity.
  - reflexivity.
  - run. reflexivity.
Defined.

Lemma payoff_column_is_flattened_witness :
  exists flat res,
    slice_col0 (Market.payoff (Data.market demo_data_column)) = Ok flat /\
    shape flat = [2] /\
    _call no_name_dim (demo_gym true (Fin (1 / 2))) demo_data_column false = Ok res /\
    _call no_name_dim (demo_gym true (Fin (1 / 2))) (with_payoff demo_data_column flat) false
      = Ok res.
Proof.
  destruct (proj1 (payoff_column_is_flattened no_name_dim (demo_gym true (Fin (1 / 2)))
                     demo_data_column false 2 3 1 eq_refl) eq_refl)
    as [flat [H1 [H2 [_ [_ H3]]]]].
  exists flat. eexists. split; [exact H1|]. split; [exact H2|].
  rewrite <- H3. split; run; reflexivity.
Defined.

Lemma payoff_other_shape_rejected :
  _call no_name_dim (demo_gym true (Fin (1 / 2)))
    (with_payoff demo_data (mkTensor [1; 2] (fins [5; 7]%R))) false
  = Error (ShapeMismatch "data['market']['payoff']").
Proof. run. reflexivity. Qed.

Lemma action_shape_contract_witness :
  let s := initial_rollout (const_agent (Fin (1 / 2))) false (Market.payoff demo_market) 2 1
             (slice_data 2 3 1 (data (Market.cost demo_market)) 0) in
  let raw := mkTensor [1; 1] [Fin (1 / 2)] in
  shape (broadcast_rows 2 raw) = [2; 1] /\
  step (demo_gym true (Fin (1 / 2))) (const_agent (Fin (1 / 2))) false demo_market 2 1
       [] (@nil unit) 0 s =
  (action <- _clip_actions (demo_gym true (Fin (1 / 2))) (broadcast_rows 2 raw)
               (mkTensor [2; 1] (slice_data 2 3 1 (data (Market.lbnd_a demo_market)) 0))
               (mkTensor [2; 1] (slice_data 2 3 1 (data (Market.ubnd_a demo_market)) 0)) ;;
   Ok (traded demo_market 2 3 1 (const_agent (Fin (1 / 2))) 0 1 action (mkTensor [0] []) s)).
Proof.
  intros s raw.
  apply (proj2 (action_shape_contract (demo_gym true (Fin (1 / 2)))
                  (const_agent (Fin (1 / 2))) false demo_market 2 3 1 [] [] 0 1 s
                  raw (mkTensor [0] [])
                  eq_refl eq_refl eq_refl eq_refl eq_refl eq_refl eq_refl eq_refl
                  ltac:(lia) eq_refl eq_refl)).
  right. reflexivity.
Defined.

Lemma action_of_other_shape_rejected :
  _call no_name_dim (gym_of true (fixed_agent (mkTensor [1] [Fin (1 / 2)]))) demo_data false
    = Error (ShapeMismatch "action") /\
  _call no_name_dim (gym_of true (fixed_agent (mkTensor [3; 1] (fins [1; 1; 1]%R)))) demo_data false
    = Error (ShapeMismatch "action").
Proof. split; run; reflexivity. Qed.

(** The end-to-end example of the specification, in hard-clip mode with the
    constant raw action 1/2: the clipped action is 1/2 at every step, pnl is
    3/2 on the first path and 3 on the second, and there is no cost. *)
Example end_to_end :
  exists res,
    _call no_name_dim (demo_gym true (Fin (1 / 2))) demo_data false = Ok res /\
    Out.actions res = mkTensor [2; 3; 1] (fins [1/2; 1/2; 1/2; 1/2; 1/2; 1/2]%R) /\
    Out.pnl res = mkTensor [2] (fins [3/2; 3]%R) /\
    Out.cost res = mkTensor [2] (fins [0; 0]%R) /\
    Out.gains res = mkTensor [2] (fins [5 + 3/2; 7 + 3]%R).
Proof.
  eexists. split; [run; reflexivity|]. simpl.
  replace (Rabs (1 / 2)) with (1 / 2)%R by (symmetry; apply Rabs_pos_eq; lra).
  repeat split; unfold fins; simpl; repeat (f_equal; try lra).
Qed.



(* ================================================================== *)
(** * Caching *)

Section CacheProps.
Context {Config OptConfig : Type}.
Variable uniqueHash : OptConfig -> string.
Variable set_weights : Weights -> Weights -> option Weights.
Variable optimizer_set_weights : @Optimizer OptConfig -> Weights -> option (@Optimizer OptConfig).
Implicit Type self : @Model Config OptConfig.
Implicit Type cache : @Cache OptConfig.

(** X1.  [create_cache] returns a cache exactly when the gym is built and
    its optimizer has [get_weights]; the cache then holds the id and the
    weights of the model, the configuration of the optimizer with its hash,
    and the weights that [get_weights] of the optimizer gives.  Without an
    optimizer, or with an optimizer that has no [get_weights], the call
    raises although the gym is built: the weights collected from
    [variables()] are never stored. *)
Theorem create_cache_needs_get_weights self :
  (forall c,
     create_cache uniqueHash self = Ok c <->
     exists ag o w,
       agent (gym self) = Some ag /\ optimizer self = Some o /\ get_weights o = Some w /\
       c = mkCache (unique_id self) (weights self) (uniqueHash (serialize o))
             (Some (serialize o)) w) /\
  (agent (gym self) <> None ->
   optimizer self = None \/ (exists o, optimizer self = Some o /\ get_weights o = None) ->
   exists msg, create_cache uniqueHash self = Error (PyTypeError msg)).
Proof.
  unfold create_cache. split.
  - intros c. split.
    + destruct (agent (gym self)) as [ag|]; [|discriminate].
      destruct (optimizer self) as [o|]; simpl; [|discriminate].
      destruct (get_weights o) as [w|] eqn:Ew; simpl; [|discriminate].
      intros E. inversion E. exists ag, o, w. repeat split; try reflexivity. exact Ew.
    + intros (ag & o & w & Eag & Eo & Ew & Ec).
      rewrite Eag, Eo. simpl. rewrite Ew. simpl. subst c. reflexivity.
  - intros Hb [Eo | [o [Eo Ew]]]; destruct (agent (gym self)); try congruence;
      rewrite Eo; simpl; [|rewrite Ew; simpl]; eexists; reflexivity.
Qed.

(** X2.  [restore_from_cache] never restores the optimizer.  Whatever the
    cache holds and whatever [set_weights] of the optimizer would do, the
    function returns from one of its first four [return] statements: the
    optimizer of the model, the gym and its id are afterwards what they
    were, and the warning of the optimizer's weights is never logged.  The
    only exception it raises is the one of a gym that is not built. *)
Theorem restore_never_restores_optimizer cache self :
  match restore_from_cache uniqueHash set_weights optimizer_set_weights cache self with
  | Return b self' =>
      optimizer self' = optimizer self /\ gym self' = gym self /\
      unique_id self' = unique_id self /\
      (In OptimizerWeightsIncompatible (warnings self') ->
       In OptimizerWeightsIncompatible (warnings self))
  | Next _ => False
  | Raise e => e = NotBuilt /\ agent (gym self) = None
  end.
Proof.
  unfold restore_from_cache, then_, when, return_, warn.
  destruct (agent (gym self)) as [ag|]; [|split; reflexivity].
  destruct (negb (String.eqb (gym_uid cache) (unique_id self))); simpl.
  - repeat split; try reflexivity.
    intros H. apply in_app_or in H. destruct H as [H | [H | []]]; [exact H | discriminate].
  - destruct (negb (String.eqb (opt_uid cache) _)); simpl.
    + repeat split; try reflexivity.
      intros H. apply in_app_or in H. destruct H as [H | [H | []]]; [exact H | discriminate].
    + destruct (set_weights (weights self) (gym_weights cache)) as [w|]; simpl.
      * repeat split; try reflexivity. intros H; exact H.
      * repeat split; try reflexivity.
        intros H. apply in_app_or in H. destruct H as [H | [H | []]]; [exact H | discriminate].
Qed.

(** X3.  [restore_from_cache] fails closed.  When it returns [False] the
    weights of the model are untouched and exactly one warning was logged.
    It returns [True] only for a cache with the id of the gym and the hash
    of the configuration of its optimizer whose weights [set_weights]
    accepted: these are then the weights of the model, and nothing was
    logged. *)
Theorem restore_fails_closed cache self (b : bool) (self' : @Model Config OptConfig) :
  restore_from_cache uniqueHash set_weights optimizer_set_weights cache self = Return b self' ->
  (b = false ->
   weights self' = weights self /\ exists w, warnings self' = (warnings self ++ [w])%list) /\
  (b = true ->
   gym_uid cache = unique_id self /\ opt_uid cache = own_opt_uid uniqueHash self /\
   set_weights (weights self) (gym_weights cache) = Some (weights self') /\
   warnings self' = warnings self).
Proof.
  unfold restore_from_cache, then_, when, return_, warn, own_opt_uid.
  destruct (agent (gym self)) as [ag|]; [|discriminate].
  destruct (String.eqb_spec (gym_uid cache) (unique_id self)) as [Eg | Ng]; simpl.
  2:{ intros E; inversion E; subst. split; [|discriminate].
      intros _. simpl. split; [reflexivity | eexists; reflexivity]. }
  assert (Eo : match option_map serialize (optimizer self) with
               | Some c => uniqueHash c | None => "" end =
               match optimizer self with
               | Some o => uniqueHash (serialize o) | None => "" end)
    by (destruct (optimizer self); reflexivity).
  rewrite Eo.
  destruct (String.eqb_spec (opt_uid cache)
              (match optimizer self with
               | Some o => uniqueHash (serialize o) | None => "" end)) as [Eu | Nu]; simpl.
  2:{ intros E; inversion E; subst. split; [|discriminate].
      intros _. simpl. split; [reflexivity | eexists; reflexivity]. }
  destruct (set_weights (weights self) (gym_weights cache)) as [w|] eqn:Ew; simpl.
  - intros E; inversion E; subst. split; [discriminate|].
    intros _. simpl. repeat split; assumption.
  - intros E; inversion E; subst. split; [|discriminate].
    intros _. simpl. split; [reflexivity | eexists; reflexivity].
Qed.

(** X4.  Round trip.  A cache made by [create_cache] is accepted by the
    model it was made from, provided keras accepts the model's own weights
    and keeps them: [restore_from_cache] returns [True] and the model is
    what it was. *)
Theorem cache_round_trip self (c : @Cache OptConfig) :
  create_cache uniqueHash self = Ok c ->
  set_weights (weights self) (weights self) = Some (weights self) ->
  restore_from_cache uniqueHash set_weights optimizer_set_weights c self = Return true self.
Proof.
  intros Hc Hw. unfold create_cache in Hc.
  unfold restore_from_cache, then_, when, return_, warn.
  destruct (agent (gym self)) as [ag|]; [|discriminate].
  destruct (optimizer self) as [o|] eqn:Eo; simpl in Hc; [|discriminate].
  destruct (get_weights o) as [w|]; simpl in Hc; [|discriminate].
  inversion Hc; subst c; clear Hc. simpl.
  rewrite !String.eqb_refl. simpl. rewrite Hw. simpl.
  destruct self; simpl in *. rewrite Eo. reflexivity.
Qed.

(** X5.  A cache carries the weights of the gym from one model to another,
    and nothing of the optimizer.  Restoring the cache of [source] into a
    built [target] with the same id, whose optimizer has the same
    configuration hash, returns [True] when keras accepts the weights; a
    cache made from the target afterwards holds the weights that keras
    installed, next to the target's own optimizer weights. *)
Theorem cache_transfers_gym_weights_only (source target : @Model Config OptConfig)
    (c : @Cache OptConfig) (o : @Optimizer OptConfig) (w own : Weights) :
  create_cache uniqueHash source = Ok c ->
  agent (gym target) <> None ->
  unique_id target = unique_id source ->
  optimizer target = Some o -> uniqueHash (serialize o) = opt_uid c ->
  get_weights o = Some own ->
  set_weights (weights target) (weights source) = Some w ->
  exists target',
    restore_from_cache uniqueHash set_weights optimizer_set_weights c target
      = Return true target' /\
    weights target' = w /\
    create_cache uniqueHash target'
      = Ok (mkCache (gym_uid c) w (opt_uid c) (Some (serialize o)) own).
Proof.
  intros Hc Hb Hid Ho Hh Hown Hw. unfold create_cache in Hc.
  destruct (agent (gym source)) as [ag|]; [|discriminate].
  destruct (optimizer source) as [os|] eqn:Eos; simpl in Hc; [|discriminate].
  destruct (get_weights os) as [ws|]; simpl in Hc; [|discriminate].
  inversion Hc; subst c; clear Hc. simpl in *.
  unfold restore_from_cache, create_cache, then_, when, return_, warn.
  destruct (agent (gym target)) as [agt|] eqn:Eagt; [|congruence].
  simpl. rewrite Ho. simpl. rewrite Hid, Hh, !String.eqb_refl. simpl.
  rewrite Hw. simpl. eexists. split; [reflexivity|]. simpl.
  split; [reflexivity|]. rewrite Eagt, Ho. simpl. rewrite Hown. simpl.
  rewrite Hh, Hid. reflexivity.
Qed.

End CacheProps.

(* ================================================================== *)
(** * Further properties of the rollout *)

(** ** Every step of a completed loop *)

Lemma length_rollout_trace (body : nat -> Rollout.t -> result Rollout.t) (n t : nat)
    (s : Rollout.t) (tr : list Rollout.t) :
  rollout_trace body n t s = Ok tr -> length tr = n.
Proof.
  revert t s tr. induction n as [|n IH]; intros t s tr H; simpl in H.
  - inversion H. reflexivity.
  - apply bind_Ok_inv in H. destruct H as [s1 [H1 H]].
    apply bind_Ok_inv in H. destruct H as [rest [Hrest H]].
    inversion H; subst tr. simpl. f_equal. exact (IH _ _ _ Hrest).
Qed.

(** The step [t + q] of a completed loop leads from the state number [q] to
    the state number [q + 1] of its trace. *)
Lemma rollout_trace_steps (body : nat -> Rollout.t -> result Rollout.t) (n t : nat)
    (s : Rollout.t) (tr : list Rollout.t) :
  rollout_trace body n t s = Ok tr ->
  forall q, q < n -> body (t + q) (nth q (s :: tr) s) = Ok (nth q tr s).
Proof.
  revert t s tr. induction n as [|n IH]; intros t s tr H q Hq; [lia|].
  simpl in H.
  apply bind_Ok_inv in H. destruct H as [s1 [H1 H]].
  apply bind_Ok_inv in H. destruct H as [rest [Hrest H]].
  inversion H; subst tr; clear H.
  destruct q as [|q].
  - rewrite Nat.add_0_r. simpl. exact H1.
  - replace (t + S q) with (S t + q) by lia.
    specialize (IH (S t) s1 rest Hrest q ltac:(lia)).
    pose proof (length_rollout_trace _ _ _ _ _ Hrest) as Hlen.
    change (nth (S q) (s :: s1 :: rest) s) with (nth q (s1 :: rest) s).
    change (nth (S q) (s1 :: rest) s) with (nth q rest s).
    rewrite (nth_indep (s1 :: rest) s s1) by (simpl; lia).
    rewrite (nth_indep rest s s1) by lia.
    exact IH.
Qed.

(** A property that the steps preserve holds of every state of the trace. *)
Lemma rollout_trace_inv (body : nat -> Rollout.t -> result Rollout.t)
    (P : nat -> Rollout.t -> Prop) (n t : nat) (s : Rollout.t) (tr : list Rollout.t) :
  (forall t' s1 s2, t <= t' < t + n -> P t' s1 -> body t' s1 = Ok s2 -> P (S t') s2) ->
  P t s -> rollout_trace body n t s = Ok tr ->
  forall q, q <= n -> P (t + q) (nth q (s :: tr) s).
Proof.
  revert t s tr. induction n as [|n IH]; intros t s tr Hstep H0 H q Hq.
  - replace q with 0 by lia. rewrite Nat.add_0_r. exact H0.
  - simpl in H.
    apply bind_Ok_inv in H. destruct H as [s1 [H1 H]].
    apply bind_Ok_inv in H. destruct H as [rest [Hrest H]].
    inversion H; subst tr; clear H.
    destruct q as [|q]; [rewrite Nat.add_0_r; exact H0|].
    pose proof (length_rollout_trace _ _ _ _ _ Hrest) as Hlen.
    replace (t + S q) with (S t + q) by lia.
    change (nth (S q) (s :: s1 :: rest) s) with (nth q (s1 :: rest) s).
    rewrite (nth_indep (s1 :: rest) s s1) by (simpl; lia).
    apply (IH (S t) s1 rest); [| |exact Hrest|lia].
    + intros t' sa sb Ht'. apply Hstep. lia.
    + apply (Hstep t s s1); [lia | exact H0 | exact H1].
Qed.

Section Steps.
Context {Config PyObj : Type}.
Implicit Type self : @Gym Config.

(** The shapes of the running state are kept by every step. *)
Lemma step_shaped self (ag : Agent) (training : bool) (mkt : Market.t) (b m n : nat)
    (fs : dict Tensor) (t : nat) (s s' : Rollout.t) :
  shape (Market.hedges mkt) = [b; m; n] ->
  shape (Market.cost mkt) = [b; m; n] ->
  shape (Market.ubnd_a mkt) = [b; m; n] ->
  shape (Market.lbnd_a mkt) = [b; m; n] ->
  shaped b n t s ->
  step self ag training mkt b n fs (@nil PyObj) t s = Ok s' ->
  shaped b n (S t) s'.
Proof.
  intros Hh Hc Hu Hl HS H.
  pose proof HS as [Sp [Sc [Sd Sa]]].
  destruct (step_Ok_inv self ag training mkt b m n fs t (Nat.max 1 t) s s'
              Hh Hc Hu Hl Sp Sc Sd Sa H)
    as [_ [items [raw [state_ [act [_ [_ [_ [_ [_ E]]]]]]]]]].
  subst s'. apply shaped_traded. exact HS.
Qed.

(** The states of the trace of a rollout have the shapes of their step. *)
Lemma rollout_trace_shaped self (ag : Agent) (training : bool) (mkt : Market.t)
    (b m n : nat) (fs : dict Tensor) (k : nat) (s : Rollout.t) (tr : list Rollout.t) :
  shape (Market.hedges mkt) = [b; m; n] ->
  shape (Market.cost mkt) = [b; m; n] ->
  shape (Market.ubnd_a mkt) = [b; m; n] ->
  shape (Market.lbnd_a mkt) = [b; m; n] ->
  shaped b n 0 s ->
  rollout_trace (step self ag training mkt b n fs (@nil PyObj)) k 0 s = Ok tr ->
  forall q, q <= k -> shaped b n q (nth q (s :: tr) s).
Proof.
  intros Hh Hc Hu Hl HS H q Hq.
  apply (rollout_trace_inv (step self ag training mkt b n fs (@nil PyObj))
           (fun t s => shaped b n t s) k 0 s tr); try assumption.
  intros t' s1 s2 _ H1 H2.
  exact (step_shaped self ag training mkt b m n fs t' s1 s2 Hh Hc Hu Hl H1 H2).
Qed.

(** What a successful call of [_clip_actions] says of its bounds: the
    checks of the signs have passed. *)
Lemma clip_actions_Ok_bounds self (A L U out : Tensor) :
  _clip_actions self A L U = Ok out ->
  forallb (fun a => fgeb a (Fin 0%R)) (data U) = true /\
  forallb (fun a => fleb a (Fin 0%R)) (data L) = true.
Proof.
  intros H. unfold _clip_actions in H.
  apply bind_Ok_inv in H. destruct H as [[] [_ H]].
  apply bind_Ok_inv in H. destruct H as [[] [HU H]].
  apply bind_Ok_inv in H. destruct H as [[] [HL H]].
  unfold assert_greater_equal_c in HU. unfold assert_less_equal_c in HL.
  apply verify_Ok_inv in HU. apply verify_Ok_inv in HL. split; assumption.
Qed.

(** In soft-clip mode, what [_clip_actions] returns has passed
    [check_numerics]. *)
Lemma clip_actions_soft_finite self (A L U out : Tensor) :
  hard_clip self = false ->
  _clip_actions self A L U = Ok out -> forallb is_finite (data out) = true.
Proof.
  intros Hm H. unfold _clip_actions in H. rewrite Hm in H.
  repeat (apply bind_Ok_inv in H; destruct H as [? [_ H]]).
  unfold check_numerics in H.
  match type of H with context [forallb is_finite ?d] =>
    destruct (forallb is_finite d) eqn:E; [|discriminate] end.
  inversion H; subst out. exact E.
Qed.

End Steps.

Lemma nth_length_cons {A : Type} (l : list A) (d d' : A) :
  nth (length l) (d :: l) d' = last l d.
Proof.
  revert d. induction l as [|x l IH]; intros d; [reflexivity|].
  rewrite last_cons. rewrite <- (IH x). reflexivity.
Qed.

Lemma last_nth {A : Type} (l : list A) (d : A) : last l d = nth (length l) (d :: l) d.
Proof. symmetry. apply nth_length_cons. Qed.

Section Traces.
Context {Config PyObj : Type}.
Variable tf_make_dim_name : string -> nat -> option PyObj.
Implicit Type self : @Gym Config.

(** Every step of the trace of a rollout: the agent is called on the live
    features of the state before the step, its action is clipped against
    the bounds of the step, and the state after the step is the update of
    the state before it. *)
Lemma rollout_trace_traded self (ag : Agent) (training : bool) (mkt : Market.t)
    (b m n : nat) (fs : dict Tensor) (k : nat) (s : Rollout.t) (tr : list Rollout.t) :
  shape (Market.hedges mkt) = [b; m; n] ->
  shape (Market.cost mkt) = [b; m; n] ->
  shape (Market.ubnd_a mkt) = [b; m; n] ->
  shape (Market.lbnd_a mkt) = [b; m; n] ->
  shaped b n 0 s ->
  rollout_trace (step self ag training mkt b n fs (@nil PyObj)) k 0 s = Ok tr ->
  forall q, q < k ->
    q < m /\
    exists items raw state_ act,
      slice_each fs q = Ok items /\
      agent_call ag (live_features ag items (nth q (s :: tr) s)) training = (raw, state_) /\
      (shape raw = [b; n] \/ shape raw = [1; n]) /\
      _clip_actions self raw
        (mkTensor [b; n] (slice_data b m n (data (Market.lbnd_a mkt)) q))
        (mkTensor [b; n] (slice_data b m n (data (Market.ubnd_a mkt)) q)) = Ok act /\
      shape act = [b; n] /\
      nth q tr s = traded mkt b m n ag q (Nat.max 1 q) act state_ (nth q (s :: tr) s).
Proof.
  intros Hh Hc Hu Hl HS Htr q Hq.
  pose proof (rollout_trace_steps _ _ _ _ _ Htr q Hq) as Hstep. simpl in Hstep.
  destruct (rollout_trace_shaped self ag training mkt b m n fs k s tr
              Hh Hc Hu Hl HS Htr q ltac:(lia)) as [Sp [Sc [Sd Sa]]].
  exact (step_Ok_inv self ag training mkt b m n fs q (Nat.max 1 q) _ _
           Hh Hc Hu Hl Sp Sc Sd Sa Hstep).
Qed.

(** A completed call and the trace of its rollout. *)
Lemma call_trace self (batch : Data.t) (training : bool) (res : Out.t) (b m n : nat) :
  shape (Market.hedges (Data.market batch)) = [b; m; n] ->
  _call tf_make_dim_name self batch training = Ok res ->
  let mkt := Data.market batch in
  exists ag fs tr,
    agent self = Some ag /\
    shape (Market.cost mkt) = [b; m; n] /\
    shape (Market.ubnd_a mkt) = [b; m; n] /\
    shape (Market.lbnd_a mkt) = [b; m; n] /\
    shape (Out.payoff res) = [b] /\
    (wf (Market.payoff mkt) -> wf (Out.payoff res)) /\
    0 < m /\
    _features tf_make_dim_name batch m = Ok (fs, @nil PyObj) /\
    let s0 := initial_rollout ag training (Out.payoff res) b n
                (slice_data b m n (data (Market.cost mkt)) 0) in
    shaped b n 0 s0 /\
    rollout_trace (step self ag training mkt b n fs (@nil PyObj)) m 0 s0 = Ok tr /\
    length tr = m /\
    Out.pnl res = Rollout.pnl (nth m (s0 :: tr) s0) /\
    Out.cost res = Rollout.cost (nth m (s0 :: tr) s0) /\
    forallb is_finite (data (Out.pnl res)) = true /\
    forallb is_finite (data (Out.cost res)) = true /\
    forall t i j, t < m -> i < b -> j < n ->
      get3 m n (data (Out.actions res)) i t j =
      get2 n (data (Rollout.action (nth t tr s0))) i j.
Proof.
  intros Hshape H mkt.
  pose proof (history_of_call tf_make_dim_name self batch training res b m n Hshape H) as Hhist.
  apply call_Ok_inv in H. fold mkt in H.
  destruct H as (ag & ut & ut0 & b' & m' & n' & payoff & fs & sf & ft0 & Eag & Eut & Eut0
                 & Hh & Hc & Hu & Hl & Hflat & Sp & Hm & Hf & Hloop & Fp & Fc & Hft
                 & loss & paid & gains & Hloss & Hpaid & Hgains & E).
  fold mkt in Hshape. rewrite Hshape in Hh. inversion Hh; subst b' m' n'; clear Hh.
  destruct Hhist as (ag' & fs' & tr & Eag' & Hf' & Htr & Hlen & Hact).
  rewrite Eag in Eag'. inversion Eag'; subst ag'; clear Eag'.
  rewrite Hf in Hf'. inversion Hf'; subst fs'; clear Hf'.
  exists ag, fs, tr.
  apply main_loop_trace in Hloop. destruct Hloop as [tr' [Htr' [Hlen' Hlast]]].
  subst res. simpl in *. fold mkt in Htr. unfold slice_data in *.
  rewrite Htr in Htr'. inversion Htr'; subst tr'; clear Htr'.
  repeat (split; [assumption|]).
  split; [intros W; eapply flattened_payoff_wf; eassumption|].
  repeat (split; [assumption|]).
  split; [apply shaped_initial; exact Sp|].
  split; [exact Htr|]. split; [exact Hlen|].
  rewrite last_nth, Hlen in Hlast. simpl in Hlast.
  rewrite Hlast. repeat (split; [first [reflexivity | assumption]|]). exact Hact.
Qed.

End Traces.
(** ** The state before the first step *)

Lemma map_flat_map {A B C : Type} (g : B -> C) (h : A -> list B) (l : list A) :
  map g (flat_map h l) = flat_map (fun x => map g (h x)) l.
Proof.
  induction l as [|x l IH]; simpl; [reflexivity|].
  rewrite map_app, IH. reflexivity.
Qed.

Lemma flat_map_ext_in {A B : Type} (f g : A -> list B) (l : list A) :
  (forall x, In x l -> f x = g x) -> flat_map f l = flat_map g l.
Proof.
  induction l as [|x l IH]; intros H; simpl; [reflexivity|].
  rewrite (H x (or_introl eq_refl)), IH; [reflexivity|].
  intros y Hy. apply H. right. exact Hy.
Qed.

Lemma combine_map_same {A B C : Type} (f : A -> B) (g : A -> C) (l : list A) :
  combine (map f l) (map g l) = map (fun x => (f x, g x)) l.
Proof. induction l as [|x l IH]; simpl; [reflexivity | rewrite IH; reflexivity]. Qed.

Lemma indices_rank2 (b k : nat) :
  indices [b; k] = flat_map (fun i => map (fun j => [i; j]) (seq 0 k)) (seq 0 b).
Proof.
  simpl. apply flat_map_ext_in. intros i _.
  induction (seq 0 k) as [|j l IH]; simpl; [reflexivity|]. rewrite IH. reflexivity.
Qed.

Lemma broadcast_shape_column_row (b k : nat) : broadcast_shape [b; 1] [1; k] = Some [b; k].
Proof.
  simpl. destruct k as [|[|k]]; destruct b as [|[|b]]; reflexivity.
Qed.

(** A state of rank 1 is repeated for every path. *)
Lemma state_to_batch_rank1 (pnl state : Tensor) (b k : nat) :
  shape pnl = [b] -> shape state = [k] ->
  state_to_batch pnl state =
  Ok (mkTensor [b; k]
        (tabulate2 b k (fun i j => fadd (fmul (nth i (data pnl) NaN) (Fin 0%R))
                                        (nth j (data state) NaN)))).
Proof.
  intros Sp Ss. unfold state_to_batch, expand_second, expand_front_slice.
  rewrite Sp, Ss. cbn [bind]. unfold tbin_nd, tf_scale, tmap. cbn [shape data length Nat.max].
  change (pad_shape 2 [b; 1]) with [b; 1]. change (pad_shape 2 [1; k]) with [1; k].
  rewrite broadcast_shape_column_row. f_equal. f_equal.
  unfold broadcast_to, map2. cbn [shape data length].
  change (pad_shape 2 [b; 1]) with [b; 1]. change (pad_shape 2 [1; k]) with [1; k].
  rewrite combine_map_same, map_map. cbn [fst snd].
  rewrite indices_rank2, map_flat_map. unfold tabulate2.
  apply flat_map_ext_in. intros i Hi. rewrite map_map.
  apply map_ext_in. intros j Hj.
  apply in_seq in Hi. apply in_seq in Hj.
  assert (E1 : offset [b; 1] [i; j] = i) by (simpl; destruct (Nat.eqb_spec b 1); lia).
  assert (E2 : offset [1; k] [i; j] = j) by (simpl; destruct (Nat.eqb_spec k 1); lia).
  rewrite E1, E2. f_equal.
  change NaN with ((fun a => fmul a (Fin 0%R)) NaN) at 1. apply map_nth.
Qed.


Lemma state_to_batch_scalar (pnl state : Tensor) :
  shape state = [] -> state_to_batch pnl state = Error IndexOutOfRange.
Proof.
  intros Ss. unfold state_to_batch, expand_second, expand_front_slice. rewrite Ss.
  destruct (shape pnl); reflexivity.
Qed.

Lemma zeros_like_twice (x : Tensor) : zeros_like (zeros_like x) = zeros_like x.
Proof. unfold zeros_like, tmap. simpl. rewrite map_map. reflexivity. Qed.

(** The tiled state of a recurrent agent, position by position. *)
Lemma initial_state_rank1 (ag : Agent) (training : bool) (payoff : Tensor) (b k : nat) :
  is_recurrent ag = true -> shape payoff = [b] -> wf payoff ->
  shape (init_state ag training) = [k] ->
  exists state,
    initial_state ag training (zeros_like payoff) = Ok state /\
    shape state = [b; k] /\
    forall i j, i < b -> j < k ->
      get2 k (data state) i j = nth j (data (init_state ag training)) NaN.
Proof.
  intros Hr Sp Wp Ss. unfold initial_state. rewrite Hr.
  rewrite (state_to_batch_rank1 (zeros_like payoff) (init_state ag training) b k Sp Ss).
  eexists. split; [reflexivity|]. split; [reflexivity|].
  intros i j Hi Hj. cbn [data]. rewrite get2_tabulate2 by assumption.
  assert (Lp : length (data payoff) = b) by (unfold wf in Wp; rewrite Wp, Sp; simpl; lia).
  unfold zeros_like, tmap. cbn [data].
  rewrite (nth_map_lt (fun _ => Fin 0%R) (data payoff) i NaN NaN) by lia.
  destruct (nth j (data (init_state ag training)) NaN); simpl; try reflexivity.
  f_equal. lra.
Qed.

Section InitialState.
Context {Config PyObj : Type}.
Variable tf_make_dim_name : string -> nat -> option PyObj.
Implicit Type self : @Gym Config.

(** A completed call has passed the line of the initial state. *)
Lemma call_initial_state self (batch : Data.t) (training : bool) (res : Out.t) :
  _call tf_make_dim_name self batch training = Ok res ->
  exists ag state,
    agent self = Some ag /\
    initial_state ag training (zeros_like (Out.payoff res)) = Ok state.
Proof.
  intros H. unfold _call in H.
  apply bind_Ok_inv in H. destruct H as [ag [Hag H]].
  destruct (agent self) as [ag'|] eqn:Eag; [|discriminate].
  destruct (utility self) as [ut|] eqn:Eut; [|discriminate].
  inversion Hag; subst ag'; clear Hag.
  apply bind_Ok_inv in H. destruct H as [[[b m] n] [_ H]].
  apply bind_Ok_inv in H. destruct H as [payoff [_ H]].
  do 4 (apply bind_Ok_inv in H; destruct H as [[] [_ H]]).
  apply bind_Ok_inv in H. destruct H as [[fs fp] [_ H]].
  apply bind_Ok_inv in H. destruct H as [cost_0 [_ H]].
  apply bind_Ok_inv in H. destruct H as [cost_0_ [_ H]].
  apply bind_Ok_inv in H. destruct H as [state [Hstate H]].
  exists ag, state. split; [reflexivity|].
  do 5 (apply bind_Ok_inv in H; destruct H as [? [_ H]]).
  do 2 (apply bind_Ok_inv in H; destruct H as [? [_ H]]).
  do 3 (apply bind_Ok_inv in H; destruct H as [? [_ H]]).
  inversion H. simpl. exact Hstate.
Qed.

End InitialState.

(** ** What a completed call says of its input *)

Lemma per_step_features_Ok_inv (items : dict Tensor) (m : nat) (acc fs : dict Tensor) :
  per_step_features items m acc = Ok fs ->
  Forall (fun kv : string * Tensor =>
            2 <= length (shape (snd kv)) /\ nth 1 (shape (snd kv)) 0 = m) items.
Proof.
  revert acc. induction items as [|[f x] rest IH]; intros acc H; [constructor|].
  simpl in H.
  apply bind_Ok_inv in H. destruct H as [[] [H1 H]].
  apply bind_Ok_inv in H. destruct H as [[] [H2 H]].
  apply verify_Ok_inv in H1. apply verify_Ok_inv in H2.
  constructor; [|exact (IH _ H)].
  simpl. split; [apply Nat.leb_le; exact H1 | apply Nat.eqb_eq; exact H2].
Qed.

Section Contract.
Context {Config PyObj : Type}.
Variable tf_make_dim_name : string -> nat -> option PyObj.
Implicit Type self : @Gym Config.

(** X6.  A call completes only on a batch of the expected geometry: the
    gym is built; hedges, cost and the two bounds have one and the same
    rank-3 shape [b,m,n] with at least one time step (a batch without
    steps is refused); the payoff has the shape [b] or [b,1]; every
    per-step feature has rank at least 2 with the time axis second; and
    there is no per-path feature. *)
Theorem completed_call_certifies_input self (batch : Data.t) (training : bool) (res : Out.t) :
  _call tf_make_dim_name self batch training = Ok res ->
  let mkt := Data.market batch in
  exists b m n,
    0 < m /\
    shape (Market.hedges mkt) = [b; m; n] /\
    shape (Market.cost mkt) = [b; m; n] /\
    shape (Market.ubnd_a mkt) = [b; m; n] /\
    shape (Market.lbnd_a mkt) = [b; m; n] /\
    (shape (Market.payoff mkt) = [b] \/ shape (Market.payoff mkt) = [b; 1]) /\
    Forall (fun kv : string * Tensor =>
              2 <= length (shape (snd kv)) /\ nth 1 (shape (snd kv)) 0 = m)
      (Features.per_step (Data.features batch)) /\
    Features.per_path (Data.features batch) = [] /\
    agent self <> None /\ utility self <> None /\ utility0 self <> None.
Proof.
  intros H mkt. apply call_Ok_inv in H. fold mkt in H.
  destruct H as (ag & ut & ut0 & b & m & n & payoff & fs & sf & ft0 & Eag & Eut & Eut0
                 & Hh & Hc & Hu & Hl & Hflat & Sp & Hm & Hf & _).
  exists b, m, n.
  repeat (split; [assumption|]).
  split.
  { destruct (shape_eqb (shape (Market.payoff mkt)) [b; 1]) eqn:E.
    - right. apply shape_eqb_eq. exact E.
    - left. inversion Hflat; subst payoff. exact Sp. }
  unfold _features in Hf.
  apply bind_Ok_inv in Hf. destruct Hf as [fs' [Hps Hf]].
  apply bind_Ok_inv in Hf. destruct Hf as [fp [Hpp Hf]].
  inversion Hf; subst fs' fp; clear Hf.
  split; [exact (per_step_features_Ok_inv _ _ _ _ Hps)|].
  split.
  { destruct (Features.per_path (Data.features batch)) as [|kv rest] eqn:E; [reflexivity|].
    exfalso.
    apply (per_path_features_nonempty tf_make_dim_name (dict_keys (kv :: rest)) []);
      [discriminate | exact Hpp | reflexivity]. }
  rewrite Eag, Eut, Eut0. repeat split; discriminate.
Qed.

(** X7.  The bounds are checked at every step of the rollout: when a call
    completes, every lower bound of the batch is at most 0 and every upper
    bound is at least 0, at every path, step and instrument; none of them is
    NaN. *)
Theorem completed_call_certifies_bounds self (batch : Data.t) (training : bool)
    (res : Out.t) (b m n : nat) :
  shape (Market.hedges (Data.market batch)) = [b; m; n] ->
  _call tf_make_dim_name self batch training = Ok res ->
  forall i t j, i < b -> t < m -> j < n ->
    fleb (get3 m n (data (Market.lbnd_a (Data.market batch))) i t j) (Fin 0%R) = true /\
    fgeb (get3 m n (data (Market.ubnd_a (Data.market batch))) i t j) (Fin 0%R) = true.
Proof.
  intros Hshape H i t j Hi Ht Hj. apply call_Ok_inv in H.
  destruct H as (ag & ut & ut0 & b' & m' & n' & payoff & fs & sf & ft0 & Eag & Eut & Eut0
                 & Hh & Hc & Hu & Hl & Hflat & Sp & Hm & Hf & Hloop & _).
  rewrite Hshape in Hh. inversion Hh; subst b' m' n'; clear Hh.
  apply main_loop_trace in Hloop. destruct Hloop as [tr [Htr _]].
  pose proof (rollout_trace_steps _ _ _ _ _ Htr t Ht) as Hstep.
  pose proof (rollout_trace_shaped self ag training (Data.market batch) b m n fs m _ tr
                Hshape Hc Hu Hl (shaped_initial ag training payoff b n _ Sp) Htr t
                ltac:(lia)) as [Sp1 [Sc1 [Sd1 Sa1]]].
  simpl in Hstep.
  destruct (step_Ok_inv self ag training (Data.market batch) b m n fs t (Nat.max 1 t) _ _
              Hshape Hc Hu Hl Sp1 Sc1 Sd1 Sa1 Hstep)
    as [_ [items [raw [state_ [act [_ [_ [_ [Hclip _]]]]]]]]].
  apply clip_actions_Ok_bounds in Hclip. destruct Hclip as [HU HL]. simpl in HU, HL.
  rewrite forallb_forall in HU, HL.
  split.
  - rewrite <- (get2_tabulate2 b n
                  (fun i j => get3 m n (data (Market.lbnd_a (Data.market batch))) i t j) i j Hi Hj).
    apply HL. unfold get2. apply nth_In. unfold slice_data.
    rewrite length_tabulate2. nia.
  - rewrite <- (get2_tabulate2 b n
                  (fun i j => get3 m n (data (Market.ubnd_a (Data.market batch))) i t j) i j Hi Hj).
    apply HU. unfold get2. apply nth_In. unfold slice_data.
    rewrite length_tabulate2. nia.
Qed.

(** X8.  What a completed call reports is finite where the engine checks
    it, and only there: pnl and cost are finite on every path, in both
    modes, and in soft-clip mode every recorded action is finite as well
    (the agent being taken to return well-formed tensors).  The payoff and
    the gains are checked nowhere: on a path whose payoff is infinite or
    NaN, so are the gains that are reported. *)
Theorem completed_call_is_finite self (batch : Data.t) (training : bool)
    (res : Out.t) (b m n : nat) :
  shape (Market.hedges (Data.market batch)) = [b; m; n] ->
  wf (Market.payoff (Data.market batch)) ->
  _call tf_make_dim_name self batch training = Ok res ->
  Forall finite (data (Out.pnl res)) /\ Forall finite (data (Out.cost res)) /\
  (forall i, i < b ->
     is_finite (nth i (data (Out.payoff res)) NaN) = false ->
     is_finite (nth i (data (Out.gains res)) NaN) = false) /\
  (hard_clip self = false -> (forall ag, agent self = Some ag -> agent_wf ag) ->
   forall i t j, i < b -> t < m -> j < n ->
     finite (get3 m n (data (Out.actions res)) i t j)).
Proof.
  intros Hshape Hwf H.
  pose proof (history_of_call tf_make_dim_name self batch training res b m n Hshape H) as Hhist.
  apply call_Ok_inv in H.
  destruct H as (ag & ut & ut0 & b' & m' & n' & payoff & fs & sf & ft0 & Eag & Eut & Eut0
                 & Hh & Hc & Hu & Hl & Hflat & Sp & Hm & Hf & Hloop & Fp & Fc & Hft
                 & loss & paid & gains & Hloss & Hpaid & Hgains & E).
  rewrite Hshape in Hh. inversion Hh; subst b' m' n'; clear Hh.
  assert (Wp : wf payoff) by (eapply flattened_payoff_wf; eassumption).
  destruct (rollout_invariants self ag training (Data.market batch) b m n fs payoff _ sf
              Hshape Hc Hu Hl Sp (length_tabulate2 b n _) Hloop) as [[Sp1 [Sc1 _]] [Hsz _]].
  destruct (Hsz Wp) as [Lp Lc].
  assert (FP : Forall finite (data (Rollout.pnl sf)))
    by (apply Forall_forall; intros x Hx; exact (proj1 (forallb_forall _ _) Fp x Hx)).
  assert (FC : Forall finite (data (Rollout.cost sf)))
    by (apply Forall_forall; intros x Hx; exact (proj1 (forallb_forall _ _) Fc x Hx)).
  subst res. simpl.
  split; [exact FP|]. split; [exact FC|]. split.
  - intros i Hi Hp.
    assert (Lpay : length (data payoff) = b)
      by (unfold wf in Wp; rewrite Wp, Sp; simpl; lia).
    unfold tf_add, tf_sub in Hpaid, Hgains.
    rewrite tbin_same_shape in Hpaid by congruence. inversion Hpaid; subst paid; clear Hpaid.
    rewrite tbin_same_shape in Hgains by (simpl; congruence).
    inversion Hgains; subst gains; clear Hgains. simpl.
    rewrite (nth_map2 fsub _ _ i NaN NaN) by (rewrite ?length_map2; lia).
    rewrite (nth_map2 fadd _ _ i NaN NaN) by lia.
    pose proof (forallb_nth is_finite _ i NaN Fp ltac:(lia)) as F1.
    pose proof (forallb_nth is_finite _ i NaN Fc ltac:(lia)) as F2.
    destruct (nth i (data payoff) NaN), (nth i (data (Rollout.pnl sf)) NaN),
      (nth i (data (Rollout.cost sf)) NaN); simpl in *; congruence.
  - intros Hsoft Hag i t j Hi Ht Hj.
    destruct Hhist as (ag' & fs' & trace & Eag' & Hf' & Htr & Hlen & Hact).
    rewrite Eag in Eag'. inversion Eag'; subst ag'; clear Eag'.
    rewrite Hf in Hf'. inversion Hf'; subst fs'; clear Hf'.
    simpl in Htr, Hact. rewrite (Hact t i j Ht Hi Hj).
    pose proof (rollout_trace_steps _ _ _ _ _ Htr t Ht) as Hstep.
    pose proof (rollout_trace_shaped self ag training (Data.market batch) b m n fs m _ trace
                  Hshape Hc Hu Hl (shaped_initial ag training payoff b n _ Sp) Htr t
                  ltac:(lia)) as [Sp2 [Sc2 [Sd2 Sa2]]].
    simpl in Hstep.
    destruct (step_Ok_inv self ag training (Data.market batch) b m n fs t (Nat.max 1 t) _ _
                Hshape Hc Hu Hl Sp2 Sc2 Sd2 Sa2 Hstep)
      as [_ [items [raw [state_ [act [_ [Ecall [Hraw [Hclip [Sact E]]]]]]]]]].
    rewrite E. unfold traded. simpl Rollout.action.
    assert (Wraw : wf raw).
    { match type of Ecall with agent_call ag ?lf training = _ =>
        pose proof (Hag ag Eag lf training) as W end.
      rewrite Ecall in W. exact W. }
    destruct (clip_actions_Ok_inv self raw
                (mkTensor [b; n] (slice_data b m n (data (Market.lbnd_a (Data.market batch))) t))
                (mkTensor [b; n] (slice_data b m n (data (Market.ubnd_a (Data.market batch))) t))
                act b n eq_refl eq_refl
                (wf_slice b m n _ t) (wf_slice b m n _ t) Hraw Wraw Hclip)
      as [_ [Wact _]].
    pose proof (clip_actions_soft_finite self raw _ _ act Hsoft Hclip) as Ffin.
    unfold finite, get2. apply (forallb_nth is_finite); [exact Ffin|].
    unfold wf in Wact. rewrite Wact, Sact. simpl. nia.
Qed.

End Contract.

(** ** More on the bounded action transform *)

Lemma forallb_false_nth {A : Type} (p : A -> bool) (l : list A) (d : A) :
  forallb p l = false -> exists k, k < length l /\ p (nth k l d) = false.
Proof.
  induction l as [|x l IH]; simpl; [discriminate|].
  destruct (p x) eqn:E; simpl.
  - intros H. destruct (IH H) as [k [Hk Hp]]. exists (S k). split; [lia | exact Hp].
  - intros _. exists 0. split; [lia | exact E].
Qed.

(** A position of a row-major [b,n] buffer is a row and a column. *)
Lemma position_row_column (b n k : nat) :
  k < b * n -> exists i j, i < b /\ j < n /\ k = i * n + j.
Proof.
  intros Hk. assert (Hn : n <> 0) by (intros E; subst n; lia).
  exists (k / n), (k mod n).
  split; [apply Nat.Div0.div_lt_upper_bound; lia|].
  split; [apply Nat.mod_upper_bound; exact Hn|].
  rewrite (Nat.div_mod_eq k n) at 1. lia.
Qed.

Lemma nth_combine {A B : Type} (l1 : list A) (l2 : list B) (k : nat) (d1 : A) (d2 : B) :
  k < length l1 -> k < length l2 ->
  nth k (combine l1 l2) (d1, d2) = (nth k l1 d1, nth k l2 d2).
Proof.
  revert l2 k. induction l1 as [|x l1 IH]; intros [|y l2] [|k] H1 H2; simpl in *;
    try lia; try reflexivity.
  apply IH; lia.
Qed.

(** Two buffers of a [b,n] tensor that agree at every row and column are
    equal. *)
Lemma buffer_ext (b n : nat) (d d' : list fval) :
  length d = b * n -> length d' = b * n ->
  (forall i j, i < b -> j < n -> get2 n d i j = get2 n d' i j) -> d = d'.
Proof.
  intros L L' H. apply (nth_ext d d' NaN NaN); [lia|].
  intros k Hk. rewrite L in Hk.
  destruct (position_row_column b n k Hk) as [i [j [Hi [Hj E]]]]. subst k.
  exact (H i j Hi Hj).
Qed.

(** *** One value *)

Lemma hard_clip_value_idempotent (a l u : fval) :
  fgeb u (Fin 0%R) = true -> fleb l (Fin 0%R) = true ->
  hard_clip_value (hard_clip_value a l u) l u = hard_clip_value a l u.
Proof.
  unfold hard_clip_value, fgeb.
  destruct a, l, u; simpl; intros Hu Hl; try discriminate; fcases; fdone.
Qed.

Lemma hard_clip_value_admissible (a l u : fval) :
  fleb l a = true -> fleb a u = true -> hard_clip_value a l u = a.
Proof.
  unfold hard_clip_value.
  destruct a, l, u; simpl; intros Hl Hu; try discriminate; fcases; fdone.
Qed.

Lemma hard_clip_value_monotone (a a' l u : fval) :
  fgeb u (Fin 0%R) = true -> fleb l (Fin 0%R) = true -> fleb a a' = true ->
  fleb (hard_clip_value a l u) (hard_clip_value a' l u) = true.
Proof.
  unfold hard_clip_value, fgeb.
  destruct a, a', l, u; simpl; intros Hu Hl Ha; try discriminate; fcases; rdec; fdone.
Qed.

Lemma softplus_monotone (c x y : R) :
  (0 < c)%R -> (x <= y)%R -> (softplus c x <= softplus c y)%R.
Proof.
  intros Hc [H | H].
  - left. apply softplus_increasing; assumption.
  - subst y. right. reflexivity.
Qed.

Lemma softclip01_monotone (c x y : R) :
  (0 < c)%R -> (x <= y)%R -> (softclip01 c x <= softclip01 c y)%R.
Proof.
  intros Hc H. unfold softclip01.
  pose proof (softplus_pos c (1 - 0) Hc) as P1.
  assert (H1 : (softplus c (x - 0) <= softplus c (y - 0))%R)
    by (apply softplus_monotone; [exact Hc | lra]).
  assert (H2 : (softplus c (1 - 0 - softplus c (y - 0))
                <= softplus c (1 - 0 - softplus c (x - 0)))%R)
    by (apply softplus_monotone; [exact Hc | lra]).
  assert (H3 : (softplus c (1 - 0 - softplus c (y - 0)) * (1 - 0) / softplus c (1 - 0)
                <= softplus c (1 - 0 - softplus c (x - 0)) * (1 - 0) / softplus c (1 - 0))%R).
  { unfold Rdiv. apply Rmult_le_compat_r; [left; apply Rinv_0_lt_compat; exact P1 | lra]. }
  lra.
Qed.

(** A finite soft-clipped value comes from finite bounds: either the
    interval is degenerate, or both bounds are real numbers. *)
Lemma soft_clip_value_finite_bounds (outer : bool) (K c : R) (a l u : fval) :
  (0 < c)%R -> fgeb u (Fin 0%R) = true -> fleb l (Fin 0%R) = true ->
  finite (soft_clip_value outer K c a l u) ->
  fgtb (fsub u l) (Fin 0%R) = false \/
  exists x y, l = Fin x /\ u = Fin y /\ (x < y)%R.
Proof.
  intros Hc Hu Hl. unfold soft_clip_value, finite.
  set (a' := if outer then _ else a). clearbody a'.
  unfold fgeb in Hu.
  destruct (fgtb (fsub u l) (Fin 0%R)) eqn:Hd; [|intros _; left; reflexivity].
  intros Hfin. right.
  destruct (fsoftclip_range c (fdiv (fsub a' l) (fsub u l)) Hc) as [[_ E] | [s [E Hs]]];
    rewrite E in Hfin; clear E.
  - destruct l, u; simpl in *; try discriminate.
  - destruct l as [x| | |], u as [y| | |]; simpl in *; try discriminate;
      unfold fgtb, inf_scale in *; simpl in *; fcases; try discriminate.
    exists x, y. repeat split. lra.
Qed.

Lemma soft_clip_value_monotone (outer : bool) (K c : R) (a a' l u : fval) :
  (0 < c)%R -> fgeb u (Fin 0%R) = true -> fleb l (Fin 0%R) = true ->
  fleb a a' = true ->
  finite (soft_clip_value outer K c a l u) -> finite (soft_clip_value outer K c a' l u) ->
  fleb (soft_clip_value outer K c a l u) (soft_clip_value outer K c a' l u) = true.
Proof.
  intros Hc Hu Hl Ha Hf Hf'.
  destruct (soft_clip_value_finite_bounds outer K c a l u Hc Hu Hl Hf)
    as [Hd | [x [y [El [Eu Hxy]]]]].
  - unfold soft_clip_value. rewrite Hd. simpl. rdec. reflexivity.
  - subst l u. unfold soft_clip_value in *. unfold finite in *.
    assert (Hclamp : exists a1 a1',
              (if outer then fmax (fmin a (fmul (Fin y) (Fin K))) (fmul (Fin x) (Fin K)) else a)
                = a1 /\
              (if outer then fmax (fmin a' (fmul (Fin y) (Fin K))) (fmul (Fin x) (Fin K)) else a')
                = a1' /\
              fleb a1 a1' = true).
    { destruct outer.
      - eexists. eexists. split; [reflexivity|]. split; [reflexivity|].
        destruct a, a'; simpl in *; try discriminate; fcases; rdec; fdone.
      - exists a, a'. repeat split. exact Ha. }
    destruct Hclamp as [a1 [a1' [E1 [E1' Hle]]]].
    rewrite E1 in *. rewrite E1' in *. clear E1 E1' Ha a a'.
    unfold fgtb, fsub in *. simpl in *.
    assert (Hd : (0 < y + - x)%R) by lra.
    rewrite (R_ltb_true 0 (y + - x) Hd) in *.
    destruct a1 as [r| | |], a1' as [r'| | |]; simpl in *; try discriminate;
      rewrite ?(R_ltb_true 0 (y + - x) Hd) in *; rewrite ?(R_ltb_false (y + - x) 0) in * by lra;
      simpl in *; try discriminate.
    + apply R_leb_true.
      assert (Hr : (r <= r')%R)
        by (unfold R_leb in Hle; destruct (Rle_dec r r'); [assumption | discriminate]).
      assert (Hq : ((r + - x) / (y + - x) <= (r' + - x) / (y + - x))%R).
      { unfold Rdiv. apply Rmult_le_compat_r; [left; apply Rinv_0_lt_compat; exact Hd | lra]. }
      pose proof (softclip01_monotone c _ _ Hc Hq). nra.
    + apply R_leb_true.
      pose proof (softclip01_range c ((r + - x) / (y + - x)) Hc). nra.
    + apply R_leb_true. lra.
    + apply R_leb_true.
      pose proof (softclip01_range c ((r' + - x) / (y + - x)) Hc). nra.
    + apply R_leb_true. nra.
    + apply R_leb_true. lra.
Qed.

(** *** The transform on tensors *)

Section ClipMore.
Context {Config : Type}.
Implicit Type self : @Gym Config.

(** After its three checks, [_clip_actions] raises no fault of the bounds. *)
Lemma clip_actions_checks self (A L U : Tensor) :
  exists rest : result Tensor,
    _clip_actions self A L U =
    (assert_greater_equal U L "Upper bound for actions must be bigger than lower bound" ;;
     assert_greater_equal_c U 0 "Upper bound for actions must not be negative" ;;
     assert_less_equal_c L 0 "Lower bound for actions must not be positive" ;;
     rest) /\
    forall msg, rest <> Error (BoundViolation msg).
Proof.
  unfold _clip_actions. eexists. split; [reflexivity|].
  intros msg H.
  unfold tf_minimum, tf_maximum, tf_sub, tf_div, tf_mul, tf_add, tf_where_pos in H.
  destruct (hard_clip self).
  - repeat (apply bind_Error_inv in H;
            destruct H as [H | [? [_ H]]]; [apply tbin_Error in H; discriminate|]).
    discriminate.
  - apply bind_Error_inv in H. destruct H as [H | [? [_ H]]].
    { destruct (outer_clip self); [|discriminate].
      apply bind_Error_inv in H.
      destruct H as [H | [? [_ H]]]; apply tbin_Error in H; discriminate. }
    repeat (apply bind_Error_inv in H;
            destruct H as [H | [? [_ H]]]; [apply tbin_Error in H; discriminate|]).
    unfold check_numerics in H. destruct (forallb _ _); discriminate.
Qed.

(** X9.  The checks of the bounds come first and do not look at the action
    or at the mode: [_clip_actions] raises the fault of the bounds exactly
    when, at some position, the lower bound is not at most 0 or the upper
    bound is not at least 0 (a NaN bound is neither).  The check that the
    upper bound is at least the lower one fails only where one of the two
    sign checks fails as well. *)
Theorem clip_actions_bound_check self (actions lbnd_a ubnd_a : Tensor) (b n : nat) :
  shape lbnd_a = [b; n] -> shape ubnd_a = [b; n] -> wf lbnd_a -> wf ubnd_a ->
  (exists msg, _clip_actions self actions lbnd_a ubnd_a = Error (BoundViolation msg)) <->
  (exists i j, i < b /\ j < n /\
     (fleb (get2 n (data lbnd_a) i j) (Fin 0%R) = false \/
      fgeb (get2 n (data ubnd_a) i j) (Fin 0%R) = false)).
Proof.
  intros SL SU WL WU.
  assert (LL : length (data lbnd_a) = b * n) by (unfold wf in WL; rewrite WL, SL; simpl; lia).
  assert (LU : length (data ubnd_a) = b * n) by (unfold wf in WU; rewrite WU, SU; simpl; lia).
  destruct (clip_actions_checks self actions lbnd_a ubnd_a) as [rest [E Hrest]].
  rewrite E. clear E.
  unfold assert_greater_equal, assert_greater_equal_c, assert_less_equal_c.
  rewrite broadcast2_same_shape by congruence. cbn [bind].
  split.
  - intros [msg H].
    destruct (forallb (fun p => fgeb (fst p) (snd p)) (combine (data ubnd_a) (data lbnd_a)))
      eqn:H1; cbn [bind verify] in H.
    + destruct (forallb (fun a => fgeb a (Fin 0%R)) (data ubnd_a)) eqn:H2;
        cbn [bind verify] in H.
      * destruct (forallb (fun a => fleb a (Fin 0%R)) (data lbnd_a)) eqn:H3;
          cbn [bind verify] in H.
        { exfalso. exact (Hrest msg H). }
        apply (forallb_false_nth _ _ NaN) in H3. destruct H3 as [k [Hk Hp]].
        rewrite LL in Hk.
        destruct (position_row_column b n k Hk) as [i [j [Hi [Hj Ek]]]]. subst k.
        exists i, j. repeat split; try assumption. left. exact Hp.
      * apply (forallb_false_nth _ _ NaN) in H2. destruct H2 as [k [Hk Hp]].
        rewrite LU in Hk.
        destruct (position_row_column b n k Hk) as [i [j [Hi [Hj Ek]]]]. subst k.
        exists i, j. repeat split; try assumption. right. exact Hp.
    + apply (forallb_false_nth _ _ (NaN, NaN)) in H1. destruct H1 as [k [Hk Hp]].
      rewrite length_combine, LU, LL, Nat.min_id in Hk.
      rewrite nth_combine in Hp by lia. cbn [fst snd] in Hp.
      destruct (position_row_column b n k Hk) as [i [j [Hi [Hj Ek]]]]. subst k.
      exists i, j. repeat split; try assumption.
      destruct (fleb (get2 n (data lbnd_a) i j) (Fin 0%R)) eqn:El; [|left; reflexivity].
      destruct (fgeb (get2 n (data ubnd_a) i j) (Fin 0%R)) eqn:Eu; [|right; reflexivity].
      pose proof (sign_bounds_ordered _ _ Eu El) as Ho.
      unfold get2 in Ho. congruence.
  - intros [i [j [Hi [Hj Hv]]]].
    assert (Hk : i * n + j < b * n) by nia.
    destruct (forallb (fun p => fgeb (fst p) (snd p)) (combine (data ubnd_a) (data lbnd_a)));
      cbn [bind verify]; [|eexists; reflexivity].
    destruct (forallb (fun a => fgeb a (Fin 0%R)) (data ubnd_a)) eqn:H2; cbn [bind verify];
      [|eexists; reflexivity].
    destruct (forallb (fun a => fleb a (Fin 0%R)) (data lbnd_a)) eqn:H3; cbn [bind verify];
      [|eexists; reflexivity].
    exfalso. destruct Hv as [Hv | Hv]; unfold get2 in Hv.
    + rewrite (forallb_nth _ _ _ NaN H3) in Hv by lia. discriminate.
    + rewrite (forallb_nth _ _ _ NaN H2) in Hv by lia. discriminate.
Qed.

(** In hard-clip mode, on tensors of one shape, the transform is its three
    checks followed by the minimum and the maximum. *)
Lemma clip_actions_hard_same_shape self (A L U : Tensor) :
  hard_clip self = true -> shape A = shape L -> shape U = shape L ->
  _clip_actions self A L U =
  (assert_greater_equal U L "Upper bound for actions must be bigger than lower bound" ;;
   assert_greater_equal_c U 0 "Upper bound for actions must not be negative" ;;
   assert_less_equal_c L 0 "Lower bound for actions must not be positive" ;;
   Ok (mkTensor (shape L) (map2 fmax (map2 fmin (data A) (data U)) (data L)))).
Proof.
  intros Hm SA SU. unfold _clip_actions. rewrite Hm.
  unfold tf_minimum, tf_maximum.
  rewrite tbin_same_shape by congruence. simpl bind.
  rewrite tbin_same_shape by (simpl; congruence). simpl. rewrite SA. reflexivity.
Qed.

(** X10.  The hard clip is a projection.  Clipping what it returned gives
    the same tensor again, and an action that is within its bounds at every
    position is returned as it is. *)
Theorem hard_clip_is_projection self (actions lbnd_a ubnd_a out : Tensor) (b n : nat) :
  hard_clip self = true ->
  shape lbnd_a = [b; n] -> shape ubnd_a = [b; n] -> wf lbnd_a -> wf ubnd_a ->
  shape actions = [b; n] \/ shape actions = [1; n] -> wf actions ->
  _clip_actions self actions lbnd_a ubnd_a = Ok out ->
  _clip_actions self out lbnd_a ubnd_a = Ok out /\
  (shape actions = [b; n] ->
   (forall i j, i < b -> j < n ->
      fleb (get2 n (data lbnd_a) i j) (get2 n (data actions) i j) = true /\
      fleb (get2 n (data actions) i j) (get2 n (data ubnd_a) i j) = true) ->
   out = actions).
Proof.
  intros Hm SL SU WL WU SA WA H.
  assert (LL : length (data lbnd_a) = b * n) by (unfold wf in WL; rewrite WL, SL; simpl; lia).
  assert (LU : length (data ubnd_a) = b * n) by (unfold wf in WU; rewrite WU, SU; simpl; lia).
  destruct (clip_actions_Ok_inv self actions lbnd_a ubnd_a out b n SL SU WL WU SA WA H)
    as [So [Wo Hval]].
  assert (Lo : length (data out) = b * n) by (unfold wf in Wo; rewrite Wo, So; simpl; lia).
  rewrite Hm in Hval.
  split.
  - destruct (clip_actions_broadcast_rows self actions lbnd_a ubnd_a b n SL SU SA) as [E SB].
    rewrite E in H.
    rewrite clip_actions_hard_same_shape in H by congruence.
    rewrite clip_actions_hard_same_shape by congruence.
    destruct (assert_greater_equal ubnd_a lbnd_a _) as [[]|]; [|discriminate]. simpl bind in *.
    destruct (assert_greater_equal_c ubnd_a 0 _) as [[]|]; [|discriminate]. simpl bind in *.
    destruct (assert_less_equal_c lbnd_a 0 _) as [[]|]; [|discriminate]. simpl bind in *.
    f_equal. destruct out as [so dout]. simpl in *. f_equal; [congruence|].
    apply (buffer_ext b n); [rewrite !length_map2; lia | exact Lo |].
    intros i j Hi Hj. unfold get2.
    rewrite (nth_map2 _ _ _ _ NaN NaN) by (rewrite ?length_map2; nia).
    rewrite (nth_map2 _ _ _ _ NaN NaN) by nia.
    destruct (Hval i j Hi Hj) as [Hu [Hl [Ev _]]]. unfold get2 in Ev, Hu, Hl.
    change (fmax (fmin (nth (i * n + j) dout NaN) (nth (i * n + j) (data ubnd_a) NaN))
              (nth (i * n + j) (data lbnd_a) NaN))
      with (hard_clip_value (nth (i * n + j) dout NaN) (nth (i * n + j) (data lbnd_a) NaN)
              (nth (i * n + j) (data ubnd_a) NaN)).
    rewrite Ev. apply hard_clip_value_idempotent; assumption.
  - intros SA' Hadm.
    assert (LA : length (data actions) = b * n)
      by (unfold wf in WA; rewrite WA, SA'; simpl; lia).
    destruct out as [so dout], actions as [sa da]. simpl in *. f_equal; [congruence|].
    apply (buffer_ext b n); [exact Lo | exact LA |].
    intros i j Hi Hj.
    destruct (Hval i j Hi Hj) as [_ [_ [Ev _]]]. rewrite Ev.
    rewrite SA', shape_eqb_refl.
    destruct (Hadm i j Hi Hj) as [H1 H2].
    apply hard_clip_value_admissible; assumption.
Qed.

(** X11.  The transform keeps the order of the raw actions, in both modes:
    of two actions for the same bounds, the one that is nowhere larger is
    clipped to an action that is nowhere larger. *)
Theorem clip_actions_monotone self (actions actions' lbnd_a ubnd_a out out' : Tensor)
    (b n : nat) :
  (0 < hinge_softness self)%R ->
  shape lbnd_a = [b; n] -> shape ubnd_a = [b; n] -> wf lbnd_a -> wf ubnd_a ->
  shape actions = [b; n] -> wf actions -> shape actions' = [b; n] -> wf actions' ->
  (forall i j, i < b -> j < n ->
     fleb (get2 n (data actions) i j) (get2 n (data actions') i j) = true) ->
  _clip_actions self actions lbnd_a ubnd_a = Ok out ->
  _clip_actions self actions' lbnd_a ubnd_a = Ok out' ->
  forall i j, i < b -> j < n ->
    fleb (get2 n (data out) i j) (get2 n (data out') i j) = true.
Proof.
  intros Hc SL SU WL WU SA WA SA' WA' Hle H H' i j Hi Hj.
  destruct (clip_actions_Ok_inv self actions lbnd_a ubnd_a out b n SL SU WL WU
              (or_introl SA) WA H) as [_ [_ Hval]].
  destruct (clip_actions_Ok_inv self actions' lbnd_a ubnd_a out' b n SL SU WL WU
              (or_introl SA') WA' H') as [_ [_ Hval']].
  destruct (Hval i j Hi Hj) as [Hu [Hl [Ev Hf]]].
  destruct (Hval' i j Hi Hj) as [_ [_ [Ev' Hf']]].
  rewrite SA, shape_eqb_refl in Ev. rewrite SA', shape_eqb_refl in Ev'.
  specialize (Hle i j Hi Hj).
  destruct (hard_clip self).
  - rewrite Ev, Ev'. apply hard_clip_value_monotone; assumption.
  - specialize (Hf eq_refl). specialize (Hf' eq_refl).
    rewrite Ev in Hf |- *. rewrite Ev' in Hf' |- *.
    apply soft_clip_value_monotone; assumption.
Qed.

End ClipMore.

(** ** The totals and the recorded actions *)

Lemma accumulated_S (m n : nat) (term : nat -> nat -> fval) :
  accumulated (S m) n term =
  fadd (accumulated m n term) (fsum (map (term m) (seq 0 n))).
Proof.
  unfold accumulated. rewrite seq_S, fold_left_app. reflexivity.
Qed.

Lemma accumulated_ext (m n : nat) (f g : nat -> nat -> fval) :
  (forall t j, t < m -> j < n -> f t j = g t j) ->
  accumulated m n f = accumulated m n g.
Proof.
  induction m as [|m IH]; intros H; [reflexivity|].
  rewrite !accumulated_S, IH by (intros; apply H; lia).
  f_equal. f_equal. apply map_ext_in. intros j Hj. apply in_seq in Hj. apply H; lia.
Qed.

Lemma nth_row_sums (b n : nat) (d : list fval) (i : nat) :
  i < b -> nth i (row_sums b n d) NaN = fsum (map (get2 n d i) (seq 0 n)).
Proof.
  intros Hi. unfold row_sums.
  rewrite (nth_map_lt _ _ _ 0) by (rewrite length_seq; exact Hi).
  rewrite seq_nth by exact Hi. reflexivity.
Qed.

(** The totals of one path after a step. *)
Lemma traded_totals_at (mkt : Market.t) (b m n : nat) (ag : Agent) (t k : nat)
    (act state_ : Tensor) (s : Rollout.t) (i : nat) :
  i < b -> sized b s -> length (data act) = b * n ->
  let s' := traded mkt b m n ag t k act state_ s in
  nth i (data (Rollout.pnl s')) NaN =
    fadd (nth i (data (Rollout.pnl s)) NaN)
      (fsum (map (fun j => fmul (get2 n (data act) i j)
                              (get3 m n (data (Market.hedges mkt)) i t j)) (seq 0 n))) /\
  nth i (data (Rollout.cost s')) NaN =
    fadd (nth i (data (Rollout.cost s)) NaN)
      (fsum (map (fun j => fmul (fabs (get2 n (data act) i j))
                              (get3 m n (data (Market.cost mkt)) i t j)) (seq 0 n))).
Proof.
  intros Hi [Lp Lc] La. unfold traded. simpl.
  split.
  - rewrite (nth_map2 _ _ _ _ NaN NaN) by (rewrite ?length_row_sums; lia).
    rewrite nth_row_sums by exact Hi. f_equal. f_equal.
    apply map_ext_in. intros j Hj. apply in_seq in Hj. unfold get2.
    rewrite (nth_map2 _ _ _ _ NaN NaN) by (rewrite ?length_slice_data; nia).
    f_equal.
    exact (get2_tabulate2 b n (fun i j => get3 m n (data (Market.hedges mkt)) i t j) i j
             Hi ltac:(lia)).
  - rewrite (nth_map2 _ _ _ _ NaN NaN) by (rewrite ?length_row_sums; lia).
    rewrite nth_row_sums by exact Hi. f_equal. f_equal.
    apply map_ext_in. intros j Hj. apply in_seq in Hj. unfold get2.
    rewrite (nth_map2 _ _ _ _ NaN NaN) by (rewrite ?length_map, ?length_slice_data; nia).
    rewrite (nth_map_lt _ _ _ NaN) by nia.
    f_equal.
    exact (get2_tabulate2 b n (fun i j => get3 m n (data (Market.cost mkt)) i t j) i j
             Hi ltac:(lia)).
Qed.

Section Accounting.
Context {Config PyObj : Type}.
Variable tf_make_dim_name : string -> nat -> option PyObj.
Implicit Type self : @Gym Config.

(** The totals of the states of a trace, from the actions of its states. *)
Lemma trace_totals self (ag : Agent) (training : bool) (mkt : Market.t)
    (b m n : nat) (fs : dict Tensor) (k : nat) (s0 : Rollout.t) (tr : list Rollout.t) :
  shape (Market.hedges mkt) = [b; m; n] ->
  shape (Market.cost mkt) = [b; m; n] ->
  shape (Market.ubnd_a mkt) = [b; m; n] ->
  shape (Market.lbnd_a mkt) = [b; m; n] ->
  shaped b n 0 s0 -> sized b s0 -> agent_wf ag ->
  (forall i, i < b -> nth i (data (Rollout.pnl s0)) NaN = Fin 0%R /\
                      nth i (data (Rollout.cost s0)) NaN = Fin 0%R) ->
  rollout_trace (step self ag training mkt b n fs (@nil PyObj)) k 0 s0 = Ok tr ->
  forall q, q <= k ->
    sized b (nth q (s0 :: tr) s0) /\
    forall i, i < b ->
      nth i (data (Rollout.pnl (nth q (s0 :: tr) s0))) NaN =
        accumulated q n
          (fun t j => fmul (get2 n (data (Rollout.action (nth t tr s0))) i j)
                           (get3 m n (data (Market.hedges mkt)) i t j)) /\
      nth i (data (Rollout.cost (nth q (s0 :: tr) s0))) NaN =
        accumulated q n
          (fun t j => fmul (fabs (get2 n (data (Rollout.action (nth t tr s0))) i j))
                           (get3 m n (data (Market.cost mkt)) i t j)).
Proof.
  intros Hh Hc Hu Hl HS Hsz Hag H0 Htr q.
  induction q as [|q IH]; intros Hq.
  - simpl. split; [exact Hsz|]. intros i Hi. exact (H0 i Hi).
  - destruct (IH ltac:(lia)) as [Hsq Hq'].
    destruct (rollout_trace_traded self ag training mkt b m n fs k s0 tr
                Hh Hc Hu Hl HS Htr q ltac:(lia))
      as [Hqm [items [raw [state_ [act [_ [Ecall [Hraw [Hclip [Sact E]]]]]]]]]].
    assert (Wraw : wf raw).
    { match type of Ecall with agent_call ag ?lf training = _ =>
        pose proof (Hag lf training) as W end.
      rewrite Ecall in W. exact W. }
    destruct (clip_actions_Ok_inv self raw
                (mkTensor [b; n] (slice_data b m n (data (Market.lbnd_a mkt)) q))
                (mkTensor [b; n] (slice_data b m n (data (Market.ubnd_a mkt)) q))
                act b n eq_refl eq_refl
                (wf_slice b m n _ q) (wf_slice b m n _ q) Hraw Wraw Hclip)
      as [_ [Wact _]].
    assert (La : length (data act) = b * n)
      by (unfold wf in Wact; rewrite Wact, Sact; simpl; lia).
    change (nth (S q) (s0 :: tr) s0) with (nth q tr s0).
    split; [rewrite E; apply sized_traded; exact Hsq|].
    intros i Hi. rewrite !accumulated_S.
    destruct (Hq' i Hi) as [Ep Ec]. rewrite <- Ep, <- Ec.
    assert (Eact : Rollout.action (nth q tr s0) = act) by (rewrite E; reflexivity).
    rewrite Eact. rewrite E at 1 2.
    exact (traded_totals_at mkt b m n ag q (Nat.max 1 q) act state_ _ i Hi Hsq La).
Qed.

(** X12.  The totals that a completed call reports are those of the
    actions it reports.  On every path, pnl is the sum, accumulated step
    after step, of the recorded action times the return of the hedge over
    the instruments, and cost is the same sum of the absolute recorded
    action times the cost rate: both can be recomputed from the result and
    the market data. *)
Theorem totals_follow_from_actions self (batch : Data.t) (training : bool)
    (res : Out.t) (b m n : nat) :
  shape (Market.hedges (Data.market batch)) = [b; m; n] ->
  wf (Market.payoff (Data.market batch)) ->
  (forall ag, agent self = Some ag -> agent_wf ag) ->
  _call tf_make_dim_name self batch training = Ok res ->
  forall i, i < b ->
    nth i (data (Out.pnl res)) NaN =
      accumulated m n
        (fun t j => fmul (get3 m n (data (Out.actions res)) i t j)
                         (get3 m n (data (Market.hedges (Data.market batch))) i t j)) /\
    nth i (data (Out.cost res)) NaN =
      accumulated m n
        (fun t j => fmul (fabs (get3 m n (data (Out.actions res)) i t j))
                         (get3 m n (data (Market.cost (Data.market batch))) i t j)).
Proof.
  intros Hshape Hwf Hag H i Hi.
  destruct (call_trace tf_make_dim_name self batch training res b m n Hshape H)
    as (ag & fs & tr & Eag & Hc & Hu & Hl & Sp & Wp & Hm & Hf & HS & Htr & Hlen
        & Epnl & Ecost & Fp & Fc & Hact).
  specialize (Wp Hwf).
  set (s0 := initial_rollout ag training (Out.payoff res) b n
               (slice_data b m n (data (Market.cost (Data.market batch))) 0)) in *.
  assert (Hsz : sized b s0) by (apply sized_initial; assumption).
  assert (H0 : forall i, i < b -> nth i (data (Rollout.pnl s0)) NaN = Fin 0%R /\
                                  nth i (data (Rollout.cost s0)) NaN = Fin 0%R).
  { intros i' Hi'. unfold s0, initial_rollout, zeros_like, tmap. simpl.
    assert (Lp : length (data (Out.payoff res)) = b)
      by (unfold wf in Wp; rewrite Wp, Sp; simpl; lia).
    rewrite (nth_map_lt _ _ _ NaN) by lia. split; reflexivity. }
  destruct (trace_totals self ag training (Data.market batch) b m n fs m s0 tr
              Hshape Hc Hu Hl HS Hsz (Hag ag Eag) H0 Htr m (le_n m)) as [_ Htot].
  destruct (Htot i Hi) as [Ep Ec].
  rewrite Epnl, Ecost, Ep, Ec.
  split; apply accumulated_ext; intros t j Ht Hj; rewrite (Hact t i j Ht Hi Hj); reflexivity.
Qed.

End Accounting.

(** ** The sign of the cost *)

Lemma nonneg_or_nan_fabs (a : fval) : nonneg_or_nan (fabs a).
Proof.
  destruct a; simpl; [right | right | right | left]; try reflexivity.
  simpl. apply R_leb_true. apply Rabs_pos.
Qed.

Lemma nonneg_or_nan_fmul (a c : fval) :
  nonneg_or_nan a -> nonneg_or_nan c -> nonneg_or_nan (fmul a c).
Proof.
  unfold nonneg_or_nan.
  intros [Ha | Ha] [Hc | Hc]; subst; try (left; destruct a; reflexivity);
    try (left; reflexivity).
  destruct a as [r| | |], c as [s| | |]; simpl in *; try discriminate;
    unfold inf_scale; fcases;
    first [left; reflexivity | right; reflexivity | exfalso; nra].
Qed.

Lemma nonneg_or_nan_fadd (a c : fval) :
  nonneg_or_nan a -> nonneg_or_nan c -> nonneg_or_nan (fadd a c).
Proof.
  unfold nonneg_or_nan.
  intros [Ha | Ha] [Hc | Hc]; subst; try (left; destruct a; reflexivity);
    try (left; reflexivity).
  destruct a as [r| | |], c as [s| | |]; simpl in *; try discriminate;
    fcases; first [right; reflexivity | exfalso; lra].
Qed.

Lemma nonneg_or_nan_zero : nonneg_or_nan (Fin 0%R).
Proof. right. simpl. apply R_leb_true. lra. Qed.

Lemma nonneg_or_nan_fsum (l : list fval) : Forall nonneg_or_nan l -> nonneg_or_nan (fsum l).
Proof.
  unfold fsum. generalize nonneg_or_nan_zero. generalize (Fin 0%R).
  induction l as [|x l IH]; intros acc Hacc H; [exact Hacc|].
  inversion H; subst. simpl. apply IH; [apply nonneg_or_nan_fadd|]; assumption.
Qed.

Lemma nonneg_or_nan_accumulated (m n : nat) (term : nat -> nat -> fval) :
  (forall t j, t < m -> j < n -> nonneg_or_nan (term t j)) ->
  nonneg_or_nan (accumulated m n term).
Proof.
  induction m as [|m IH]; intros H; [exact nonneg_or_nan_zero|].
  rewrite accumulated_S. apply nonneg_or_nan_fadd; [apply IH; intros; apply H; lia|].
  apply nonneg_or_nan_fsum. apply Forall_forall. intros x Hx.
  apply in_map_iff in Hx. destruct Hx as [j [E Hj]]. apply in_seq in Hj. subst x.
  apply H; lia.
Qed.

Lemma zero_or_nan_accumulated (m n : nat) (term : nat -> nat -> fval) :
  (forall t j, t < m -> j < n -> zero_or_nan (term t j)) ->
  zero_or_nan (accumulated m n term).
Proof.
  induction m as [|m IH]; intros H; [left; reflexivity|].
  rewrite accumulated_S. apply zero_or_nan_fadd; [apply IH; intros; apply H; lia|].
  apply zero_or_nan_fsum. apply Forall_forall. intros x Hx.
  apply in_map_iff in Hx. destruct Hx as [j [E Hj]]. apply in_seq in Hj. subst x.
  apply H; lia.
Qed.

Lemma zero_or_nan_fmul_zero_r (a : fval) : zero_or_nan (fmul a (Fin 0%R)).
Proof.
  destruct a; simpl; unfold inf_scale; rdec; [left | right | right | right];
    try reflexivity.
  unfold is_zero. f_equal. lra.
Qed.

Section Cost.
Context {Config PyObj : Type}.
Variable tf_make_dim_name : string -> nat -> option PyObj.
Implicit Type self : @Gym Config.

(** The cost of a completed call, path by path, from the trace. *)
Lemma cost_of_call self (batch : Data.t) (training : bool) (res : Out.t) (b m n : nat) :
  shape (Market.hedges (Data.market batch)) = [b; m; n] ->
  wf (Market.payoff (Data.market batch)) ->
  (forall ag, agent self = Some ag -> agent_wf ag) ->
  _call tf_make_dim_name self batch training = Ok res ->
  forall i, i < b ->
    finite (nth i (data (Out.cost res)) NaN) /\
    exists act : nat -> nat -> fval,
      nth i (data (Out.cost res)) NaN =
      accumulated m n
        (fun t j => fmul (fabs (act t j))
                         (get3 m n (data (Market.cost (Data.market batch))) i t j)).
Proof.
  intros Hshape Hwf Hag H i Hi.
  destruct (call_trace tf_make_dim_name self batch training res b m n Hshape H)
    as (ag & fs & tr & Eag & Hc & Hu & Hl & Sp & Wp & Hm & Hf & HS & Htr & Hlen
        & Epnl & Ecost & Fp & Fc & Hact).
  specialize (Wp Hwf).
  set (s0 := initial_rollout ag training (Out.payoff res) b n
               (slice_data b m n (data (Market.cost (Data.market batch))) 0)) in *.
  assert (Hsz : sized b s0) by (apply sized_initial; assumption).
  assert (H0 : forall i, i < b -> nth i (data (Rollout.pnl s0)) NaN = Fin 0%R /\
                                  nth i (data (Rollout.cost s0)) NaN = Fin 0%R).
  { intros i' Hi'. unfold s0, initial_rollout, zeros_like, tmap. simpl.
    assert (Lp : length (data (Out.payoff res)) = b)
      by (unfold wf in Wp; rewrite Wp, Sp; simpl; lia).
    rewrite (nth_map_lt _ _ _ NaN) by lia. split; reflexivity. }
  destruct (trace_totals self ag training (Data.market batch) b m n fs m s0 tr
              Hshape Hc Hu Hl HS Hsz (Hag ag Eag) H0 Htr m (le_n m)) as [[_ Lc] Htot].
  destruct (Htot i Hi) as [_ Ec].
  split.
  - unfold finite. apply (forallb_nth is_finite); [exact Fc|].
    rewrite Ecost. lia.
  - eexists. rewrite Ecost. exact Ec.
Qed.

(** X13.  Trading never pays.  When no cost rate of the batch is negative,
    the cost that a completed call reports is a real number that is not
    negative, on every path. *)
Theorem cost_is_not_negative self (batch : Data.t) (training : bool)
    (res : Out.t) (b m n : nat) :
  shape (Market.hedges (Data.market batch)) = [b; m; n] ->
  wf (Market.payoff (Data.market batch)) ->
  (forall ag, agent self = Some ag -> agent_wf ag) ->
  (forall i t j, i < b -> t < m -> j < n ->
     fleb (Fin 0%R) (get3 m n (data (Market.cost (Data.market batch))) i t j) = true) ->
  _call tf_make_dim_name self batch training = Ok res ->
  forall i, i < b ->
    exists r, nth i (data (Out.cost res)) NaN = Fin r /\ (0 <= r)%R.
Proof.
  intros Hshape Hwf Hag Hrate H i Hi.
  destruct (cost_of_call self batch training res b m n Hshape Hwf Hag H i Hi)
    as [Hfin [act E]].
  assert (Hnn : nonneg_or_nan (nth i (data (Out.cost res)) NaN)).
  { rewrite E. apply nonneg_or_nan_accumulated. intros t j Ht Hj.
    apply nonneg_or_nan_fmul; [apply nonneg_or_nan_fabs|].
    right. apply Hrate; assumption. }
  destruct (nth i (data (Out.cost res)) NaN) as [r| | |]; try discriminate.
  exists r. split; [reflexivity|].
  destruct Hnn as [Hn | Hn]; [discriminate|].
  simpl in Hn. unfold R_leb in Hn. destruct (Rle_dec 0 r); [assumption | discriminate].
Qed.

(** X14.  A market without friction costs nothing.  When every cost rate of
    the batch is 0, the cost that a completed call reports is exactly 0 on
    every path, whatever the agent does and in both clip modes. *)
Theorem frictionless_market_costs_nothing self (batch : Data.t) (training : bool)
    (res : Out.t) (b m n : nat) :
  shape (Market.hedges (Data.market batch)) = [b; m; n] ->
  wf (Market.payoff (Data.market batch)) ->
  (forall ag, agent self = Some ag -> agent_wf ag) ->
  (forall i t j, i < b -> t < m -> j < n ->
     get3 m n (data (Market.cost (Data.market batch))) i t j = Fin 0%R) ->
  _call tf_make_dim_name self batch training = Ok res ->
  forall i, i < b -> nth i (data (Out.cost res)) NaN = Fin 0%R.
Proof.
  intros Hshape Hwf Hag Hrate H i Hi.
  destruct (cost_of_call self batch training res b m n Hshape Hwf Hag H i Hi)
    as [Hfin [act E]].
  assert (Hz : zero_or_nan (nth i (data (Out.cost res)) NaN)).
  { rewrite E. apply zero_or_nan_accumulated. intros t j Ht Hj.
    rewrite (Hrate i t j Hi Ht Hj). apply zero_or_nan_fmul_zero_r. }
  destruct Hz as [Hz | Hz]; [exact Hz|].
  rewrite Hz in Hfin. discriminate.
Qed.

End Cost.

(** ** The position *)

Lemma fsum_snoc (l : list fval) (x : fval) : fsum (l ++ [x]) = fadd (fsum l) x.
Proof. unfold fsum. rewrite fold_left_app. reflexivity. Qed.

Section Position.
Context {Config PyObj : Type}.
Variable tf_make_dim_name : string -> nat -> option PyObj.
Implicit Type self : @Gym Config.

(** X15.  The running position is the sum of the recorded actions.  In a
    completed call, the state in which the step [q] starts holds as delta,
    for every path and instrument, the sum of the actions recorded at the
    steps before [q], and as action the action recorded at the step before
    (zero at the first step); after the last step, delta is the sum of all
    recorded actions. *)
Theorem position_is_sum_of_actions self (batch : Data.t) (training : bool)
    (res : Out.t) (b m n : nat) :
  shape (Market.hedges (Data.market batch)) = [b; m; n] ->
  wf (Market.payoff (Data.market batch)) ->
  (forall ag, agent self = Some ag -> agent_wf ag) ->
  _call tf_make_dim_name self batch training = Ok res ->
  exists ag fs tr,
    agent self = Some ag /\
    _features tf_make_dim_name batch m = Ok (fs, @nil PyObj) /\
    let s0 := initial_rollout ag training (Out.payoff res) b n
                (slice_data b m n (data (Market.cost (Data.market batch))) 0) in
    rollout_trace (step self ag training (Data.market batch) b n fs (@nil PyObj)) m 0 s0
      = Ok tr /\
    forall q i j, q <= m -> i < b -> j < n ->
      get2 n (data (Rollout.delta (nth q (s0 :: tr) s0))) i j =
        fsum (map (fun t => get3 m n (data (Out.actions res)) i t j) (seq 0 q)) /\
      get2 n (data (Rollout.action (nth q (s0 :: tr) s0))) i j =
        match q with
        | 0 => Fin 0%R
        | S p => get3 m n (data (Out.actions res)) i p j
        end.
Proof.
  intros Hshape Hwf Hag H.
  destruct (call_trace tf_make_dim_name self batch training res b m n Hshape H)
    as (ag & fs & tr & Eag & Hc & Hu & Hl & Sp & Wp & Hm & Hf & HS & Htr & Hlen
        & _ & _ & _ & _ & Hact).
  exists ag, fs, tr. split; [exact Eag|]. split; [exact Hf|].
  intros s0. split; [exact Htr|]. fold s0 in Htr, Hact, HS.
  assert (Hinv : forall q, q <= m ->
            length (data (Rollout.delta (nth q (s0 :: tr) s0))) = b * n /\
            forall i j, i < b -> j < n ->
              get2 n (data (Rollout.delta (nth q (s0 :: tr) s0))) i j =
                fsum (map (fun t => get3 m n (data (Out.actions res)) i t j) (seq 0 q)) /\
              get2 n (data (Rollout.action (nth q (s0 :: tr) s0))) i j =
                match q with
                | 0 => Fin 0%R
                | S p => get3 m n (data (Out.actions res)) i p j
                end).
  { induction q as [|q IH]; intros Hq.
    - simpl. unfold zeros_like, tmap. simpl.
      rewrite length_map, length_slice_data. split; [reflexivity|].
      intros i j Hi Hj. unfold get2.
      rewrite (nth_map_lt _ _ _ NaN) by (rewrite length_slice_data; nia).
      split; reflexivity.
    - destruct (IH ltac:(lia)) as [Ld Hq'].
      destruct (rollout_trace_traded self ag training (Data.market batch) b m n fs m s0 tr
                  Hshape Hc Hu Hl HS Htr q ltac:(lia))
        as [_ [items [raw [state_ [act [_ [Ecall [Hraw [Hclip [Sact E]]]]]]]]]].
      assert (Wraw : wf raw).
      { match type of Ecall with agent_call ag ?lf training = _ =>
          pose proof (Hag ag Eag lf training) as W end.
        rewrite Ecall in W. exact W. }
      destruct (clip_actions_Ok_inv self raw
                  (mkTensor [b; n] (slice_data b m n (data (Market.lbnd_a (Data.market batch))) q))
                  (mkTensor [b; n] (slice_data b m n (data (Market.ubnd_a (Data.market batch))) q))
                  act b n eq_refl eq_refl
                  (wf_slice b m n _ q) (wf_slice b m n _ q) Hraw Wraw Hclip)
        as [_ [Wact _]].
      assert (La : length (data act) = b * n)
        by (unfold wf in Wact; rewrite Wact, Sact; simpl; lia).
      change (nth (S q) (s0 :: tr) s0) with (nth q tr s0).
      assert (Eact : Rollout.action (nth q tr s0) = act) by (rewrite E; reflexivity).
      assert (Edelta : data (Rollout.delta (nth q tr s0)) =
                       map2 fadd (data (Rollout.delta (nth q (s0 :: tr) s0))) (data act))
        by (rewrite E at 1; reflexivity).
      rewrite Edelta, Eact. split; [rewrite length_map2; lia|].
      intros i j Hi Hj.
      rewrite seq_S, map_app. cbn [map]. rewrite fsum_snoc, Nat.add_0_l.
      rewrite (Hact q i j ltac:(lia) Hi Hj), Eact.
      split; [|reflexivity].
      unfold get2 at 1. rewrite (nth_map2 _ _ _ _ NaN NaN) by nia.
      fold (get2 n (data (Rollout.delta (nth q (s0 :: tr) s0))) i j).
      fold (get2 n (data act) i j).
      rewrite (proj1 (Hq' i j Hi Hj)). reflexivity. }
  intros q i j Hq Hi Hj. exact (proj2 (Hinv q Hq) i j Hi Hj).
Qed.

End Position.

(** ** Dictionaries *)

Lemma dict_get_set_same {V : Type} (k : string) (v : V) (d : dict V) :
  dict_get k (dict_set k v d) = Some v.
Proof.
  induction d as [|[k' v'] d IH]; simpl.
  - rewrite String.eqb_refl. reflexivity.
  - destruct (String.eqb k k') eqn:E; simpl; rewrite ?String.eqb_refl, ?E; auto.
Qed.

Lemma dict_get_set_other {V : Type} (k k' : string) (v : V) (d : dict V) :
  k <> k' -> dict_get k (dict_set k' v d) = dict_get k d.
Proof.
  intros N. induction d as [|[k1 v1] d IH]; simpl.
  - apply String.eqb_neq in N. rewrite N. reflexivity.
  - destruct (String.eqb_spec k' k1) as [E | E]; simpl.
    + subst k1. apply String.eqb_neq in N. rewrite N. reflexivity.
    + destruct (String.eqb k k1); [reflexivity | exact IH].
Qed.

Lemma dict_get_absent {V : Type} (k : string) (d : dict V) :
  ~ In k (dict_keys d) -> dict_get k d = None.
Proof.
  induction d as [|[k' v'] d IH]; simpl; intros N; [reflexivity|].
  destruct (String.eqb_spec k k') as [E | E]; [exfalso; apply N; left; auto|].
  apply IH. intros H. apply N. right. exact H.
Qed.

(** [d.update( e )]: the entries of [e] win over those of [d]. *)
Lemma dict_get_update {V : Type} (k : string) (d e : dict V) :
  NoDup (dict_keys e) ->
  dict_get k (dict_update d e) =
  match dict_get k e with Some v => Some v | None => dict_get k d end.
Proof.
  unfold dict_update. revert d. induction e as [|[k1 v1] e IH]; intros d ND; [reflexivity|].
  simpl in *. inversion ND as [|? ? Hn ND']; subst.
  rewrite (IH _ ND').
  destruct (String.eqb_spec k k1) as [E | E].
  - subst k1. rewrite (dict_get_absent k e Hn). apply dict_get_set_same.
  - rewrite (dict_get_set_other k k1 v1 d E). reflexivity.
Qed.

Lemma dict_set_fresh {V : Type} (k : string) (v : V) (d : dict V) :
  ~ In k (dict_keys d) -> dict_set k v d = (d ++ [(k, v)])%list.
Proof.
  induction d as [|[k' v'] d IH]; simpl; intros N; [reflexivity|].
  destruct (String.eqb_spec k k') as [E | E]; [exfalso; apply N; left; auto|].
  f_equal. apply IH. intros H. apply N. right. exact H.
Qed.

(** ** The features of a step *)

Lemma slice_each_keys (fs items : dict Tensor) (t : nat) :
  slice_each fs t = Ok items -> dict_keys items = dict_keys fs.
Proof.
  revert items. induction fs as [|[f x] fs IH]; intros items H; simpl in H.
  - inversion H. reflexivity.
  - apply bind_Ok_inv in H. destruct H as [xt [_ H]].
    apply bind_Ok_inv in H. destruct H as [rest [Hr H]].
    inversion H; subst items. simpl. f_equal. exact (IH _ Hr).
Qed.

Lemma slice_each_get (fs items : dict Tensor) (t : nat) (key : string) (x : Tensor) :
  slice_each fs t = Ok items -> dict_get key fs = Some x ->
  exists xt, slice_step x t = Ok xt /\ dict_get key items = Some xt.
Proof.
  revert items. induction fs as [|[f y] fs IH]; intros items H G; simpl in H, G;
    [discriminate|].
  apply bind_Ok_inv in H. destruct H as [yt [Hy H]].
  apply bind_Ok_inv in H. destruct H as [rest [Hr H]].
  inversion H; subst items. simpl.
  destruct (String.eqb key f).
  - inversion G; subst y. exists yt. split; [exact Hy | reflexivity].
  - exact (IH _ Hr G).
Qed.

(** The order in which the live features are written decides which of two
    entries of one name the agent sees. *)
Lemma live_features_get (ag : Agent) (items : dict Tensor) (s : Rollout.t) (key : string) :
  NoDup (dict_keys items) ->
  (is_recurrent ag = true -> key <> state_feature_name ag) ->
  dict_get key (live_features ag items s) =
  if String.eqb key "action" then Some (Rollout.action s)
  else if String.eqb key "delta" then Some (Rollout.delta s)
  else match dict_get key items with
       | Some x => Some x
       | None => if String.eqb key "cost" then Some (Rollout.cost s)
                 else if String.eqb key "pnl" then Some (Rollout.pnl s)
                 else None
       end.
Proof.
  intros ND Hk. unfold live_features.
  set (base := [("action", Rollout.action s); ("delta", Rollout.delta s);
                ("cost", Rollout.cost s); ("pnl", Rollout.pnl s)]).
  set (lf := dict_update (dict_update base []) items).
  assert (E : dict_get key (dict_set "action" (Rollout.action s)
                              (dict_set "delta" (Rollout.delta s) lf)) =
              if String.eqb key "action" then Some (Rollout.action s)
              else if String.eqb key "delta" then Some (Rollout.delta s)
              else match dict_get key items with
                   | Some x => Some x
                   | None => if String.eqb key "cost" then Some (Rollout.cost s)
                             else if String.eqb key "pnl" then Some (Rollout.pnl s)
                             else None
                   end).
  { destruct (String.eqb_spec key "action") as [Ea | Ea];
      [subst key; apply dict_get_set_same|].
    rewrite dict_get_set_other by exact Ea.
    destruct (String.eqb_spec key "delta") as [Ed | Ed];
      [subst key; apply dict_get_set_same|].
    rewrite dict_get_set_other by exact Ed.
    unfold lf. rewrite dict_get_update by exact ND.
    destruct (dict_get key items); [reflexivity|].
    unfold base, dict_update. simpl.
    apply String.eqb_neq in Ea, Ed. rewrite Ea, Ed. reflexivity. }
  destruct (is_recurrent ag); [|exact E].
  rewrite dict_get_set_other by (apply Hk; reflexivity). exact E.
Qed.

Section FeaturesOfStep.
Context {Config PyObj : Type}.
Variable tf_make_dim_name : string -> nat -> option PyObj.
Implicit Type self : @Gym Config.

(** X16.  What the agent is shown at a step, name by name.  The step calls
    the agent on the dictionary [shown] that it builds from the running
    state and the slices of the per-step features, and goes on with the
    answer: the clip of the action is what the step trades.  In [shown],
    the running action and delta are written last: a per-step feature
    called "action" or "delta" is hidden by them.  The running cost and pnl
    are written first: a per-step feature called "cost" or "pnl" takes
    their place.  Every other per-step feature is shown as its slice at the
    step.  (For a recurrent agent, the name of its state is apart.) *)
Theorem live_feature_precedence self (ag : Agent) (training : bool) (mkt : Market.t)
    (b m n : nat) (fs : dict Tensor) (t k : nat) (s s' : Rollout.t) :
  shape (Market.hedges mkt) = [b; m; n] ->
  shape (Market.cost mkt) = [b; m; n] ->
  shape (Market.ubnd_a mkt) = [b; m; n] ->
  shape (Market.lbnd_a mkt) = [b; m; n] ->
  shape (Rollout.pnl s) = [b] -> shape (Rollout.cost s) = [b] ->
  shape (Rollout.delta s) = [b; n] -> shape (Rollout.actions s) = [b; k; n] ->
  NoDup (dict_keys fs) ->
  step self ag training mkt b n fs (@nil PyObj) t s = Ok s' ->
  exists items act,
    slice_each fs t = Ok items /\
    let shown := live_features ag items s in
    _clip_actions self (fst (agent_call ag shown training))
      (mkTensor [b; n] (slice_data b m n (data (Market.lbnd_a mkt)) t))
      (mkTensor [b; n] (slice_data b m n (data (Market.ubnd_a mkt)) t)) = Ok act /\
    s' = traded mkt b m n ag t k act (snd (agent_call ag shown training)) s /\
    forall key, (is_recurrent ag = true -> key <> state_feature_name ag) ->
      dict_get key shown =
      if String.eqb key "action" then Some (Rollout.action s)
      else if String.eqb key "delta" then Some (Rollout.delta s)
      else match dict_get key fs with
           | Some x =>
               match slice_step x t with Ok xt => Some xt | Error _ => None end
           | None => if String.eqb key "cost" then Some (Rollout.cost s)
                     else if String.eqb key "pnl" then Some (Rollout.pnl s)
                     else None
           end.
Proof.
  intros Hh Hc Hu Hl Sp Sc Sd Sa ND H.
  destruct (step_Ok_inv self ag training mkt b m n fs t k s s' Hh Hc Hu Hl Sp Sc Sd Sa H)
    as [_ [items [raw [state_ [act [Hit [Ecall [_ [Hclip [_ E]]]]]]]]]].
  exists items, act. split; [exact Hit|]. cbv zeta. rewrite Ecall. cbn [fst snd].
  split; [exact Hclip|]. split; [exact E|].
  intros key Hk.
  pose proof (slice_each_keys fs items t Hit) as Ekeys.
  rewrite live_features_get by (rewrite ?Ekeys; assumption).
  destruct (String.eqb key "action"); [reflexivity|].
  destruct (String.eqb key "delta"); [reflexivity|].
  destruct (dict_get key fs) as [x|] eqn:G.
  - destruct (slice_each_get fs items t key x Hit G) as [xt [E1 E2]].
    rewrite E1, E2. reflexivity.
  - assert (N : dict_get key items = None).
    { apply dict_get_absent. rewrite Ekeys. intros Hin.
      clear - G Hin. induction fs as [|[f y] fs IH]; simpl in *; [contradiction|].
      destruct (String.eqb_spec key f) as [E | E]; [discriminate|].
      destruct Hin as [Hin | Hin]; [congruence | exact (IH G Hin)]. }
    rewrite N. reflexivity.
Qed.

(** X17.  The state of a recurrent agent is threaded through the rollout.
    In a completed call of a recurrent agent, [init_state] is not a scalar;
    when it has the shape [k], the loop starts from the state of shape
    [b,k] that repeats it for every path.  At every step the agent is
    shown the state before the step under its [state_feature_name],
    whatever other feature has that name, and the state after the step is
    the one the agent answered with.  For an agent that is not recurrent
    the state is a vector of zeros at every step.  The steps are those of
    the call: their actions are the ones it reports. *)
Theorem recurrent_state_is_threaded self (batch : Data.t) (training : bool)
    (res : Out.t) (b m n : nat) :
  shape (Market.hedges (Data.market batch)) = [b; m; n] ->
  wf (Market.payoff (Data.market batch)) ->
  _call tf_make_dim_name self batch training = Ok res ->
  exists ag fs tr,
    agent self = Some ag /\
    _features tf_make_dim_name batch m = Ok (fs, @nil PyObj) /\
    let s0 := initial_rollout ag training (Out.payoff res) b n
                (slice_data b m n (data (Market.cost (Data.market batch))) 0) in
    rollout_trace (step self ag training (Data.market batch) b n fs (@nil PyObj)) m 0 s0
      = Ok tr /\
    (forall t i j, t < m -> i < b -> j < n ->
       get3 m n (data (Out.actions res)) i t j =
       get2 n (data (Rollout.action (nth t tr s0))) i j) /\
    (is_recurrent ag = true ->
     shape (init_state ag training) <> [] /\
     (forall k, shape (init_state ag training) = [k] ->
        shape (Rollout.state s0) = [b; k] /\
        forall i j, i < b -> j < k ->
          get2 k (data (Rollout.state s0)) i j = nth j (data (init_state ag training)) NaN) /\
     forall q, q < m ->
       exists items,
         slice_each fs q = Ok items /\
         let s := nth q (s0 :: tr) s0 in
         let shown := live_features ag items s in
         dict_get (state_feature_name ag) shown = Some (Rollout.state s) /\
         Rollout.state (nth (S q) (s0 :: tr) s0) = snd (agent_call ag shown training)) /\
    (is_recurrent ag = false ->
     forall q, q <= m -> Rollout.state (nth q (s0 :: tr) s0) = zeros_like (Out.payoff res)).
Proof.
  intros Hshape Wp H.
  destruct (call_initial_state tf_make_dim_name self batch training res H)
    as [ag0 [state [Eag0 Hstate]]].
  destruct (call_trace tf_make_dim_name self batch training res b m n Hshape H)
    as (ag & fs & tr & Eag & Hc & Hu & Hl & Spay & Wpay & Hm & Hf & HS & Htr & Hlen
        & _ & _ & _ & _ & Hact).
  rewrite Eag in Eag0. inversion Eag0; subst ag0; clear Eag0.
  specialize (Wpay Wp).
  exists ag, fs, tr. split; [exact Eag|]. split; [exact Hf|]. cbv zeta.
  set (s0 := initial_rollout ag training (Out.payoff res) b n
               (slice_data b m n (data (Market.cost (Data.market batch))) 0)) in *.
  split; [exact Htr|]. split; [exact Hact|].
  assert (Hsteps : forall q, q < m ->
            exists items raw state_ act,
              slice_each fs q = Ok items /\
              agent_call ag (live_features ag items (nth q (s0 :: tr) s0)) training
                = (raw, state_) /\
              nth q tr s0 = traded (Data.market batch) b m n ag q (Nat.max 1 q) act state_
                              (nth q (s0 :: tr) s0)).
  { intros q Hq.
    destruct (rollout_trace_traded self ag training (Data.market batch) b m n fs m s0 tr
                Hshape Hc Hu Hl HS Htr q Hq)
      as [_ [items [raw [state_ [act [Hit [Ecall [_ [_ [_ E]]]]]]]]]].
    exists items, raw, state_, act. auto. }
  split.
  - intros Hr. split; [|split].
    + intros Ss. unfold initial_state in Hstate. rewrite Hr in Hstate.
      rewrite (state_to_batch_scalar _ _ Ss) in Hstate. discriminate.
    + intros k Ss.
      destruct (initial_state_rank1 ag training (Out.payoff res) b k Hr Spay Wpay Ss)
        as [state' [E [Sst Hst]]].
      unfold s0, initial_rollout. cbn [Rollout.state]. rewrite E. split; assumption.
    + intros q Hq.
      destruct (Hsteps q Hq) as [items [raw [state_ [act [Hit [Ecall E]]]]]].
      exists items. split; [exact Hit|]. cbv zeta. rewrite Ecall. cbn [snd].
      split.
      * unfold live_features. rewrite Hr. apply dict_get_set_same.
      * change (nth (S q) (s0 :: tr) s0) with (nth q tr s0).
        rewrite E. unfold traded. cbn [Rollout.state]. rewrite Hr. reflexivity.
  - intros Hr q Hq. induction q as [|q IH].
    + unfold s0, initial_rollout, initial_state. cbn [Rollout.state nth]. rewrite Hr.
      apply zeros_like_twice.
    + destruct (Hsteps q ltac:(lia)) as [items [raw [state_ [act [_ [_ E]]]]]].
      change (nth (S q) (s0 :: tr) s0) with (nth q tr s0).
      rewrite E. unfold traded. cbn [Rollout.state]. rewrite Hr. apply IH. lia.
Qed.

End FeaturesOfStep.

(** ** The per-step features *)

Lemma per_step_features_fresh (items : dict Tensor) (m : nat) (acc fs : dict Tensor) :
  NoDup (dict_keys acc ++ dict_keys items)%list ->
  per_step_features items m acc = Ok fs ->
  fs = (acc ++ map (fun kv => (fst kv, tf_make_dim (snd kv) 3)) items)%list.
Proof.
  revert acc. induction items as [|[f x] rest IH]; intros acc ND H; simpl in H.
  - inversion H. rewrite app_nil_r. reflexivity.
  - apply bind_Ok_inv in H. destruct H as [[] [_ H]].
    apply bind_Ok_inv in H. destruct H as [[] [_ H]].
    simpl in ND.
    assert (Nf : ~ In f (dict_keys acc)).
    { intros Hin. apply NoDup_remove_2 in ND. apply ND. apply in_or_app. left. exact Hin. }
    rewrite (dict_set_fresh f _ acc Nf) in H.
    assert (ND' : NoDup (dict_keys (acc ++ [(f, tf_make_dim x 3)])%list ++ dict_keys rest))
      by (unfold dict_keys in *; rewrite map_app, <- app_assoc; exact ND).
    rewrite (IH _ ND' H). rewrite <- app_assoc. reflexivity.
Qed.

Section PerStep.
Context {PyObj : Type}.
Variable tf_make_dim_name : string -> nat -> option PyObj.

(** X18.  What [_features] returns for the per-step features.  When it
    returns, every per-step feature of the batch has rank at least 2 and
    [nSteps] as its second dimension, and the result maps the same names,
    in the same order, to [tf_make_dim( feature, 3 )]: a tensor with the
    time axis second, which can be sliced at every step. *)
Theorem per_step_features_normalised (batch : Data.t) (nSteps : nat)
    (fs : dict Tensor) (set : list PyObj) :
  NoDup (dict_keys (Features.per_step (Data.features batch))) ->
  _features tf_make_dim_name batch nSteps = Ok (fs, set) ->
  fs = map (fun kv => (fst kv, tf_make_dim (snd kv) 3))
         (Features.per_step (Data.features batch)) /\
  (forall f x, In (f, x) (Features.per_step (Data.features batch)) ->
     2 <= length (shape x) /\ nth 1 (shape x) 0 = nSteps /\
     exists b' k', shape (tf_make_dim x 3) = [b'; nSteps; k']) /\
  (forall t, t < nSteps -> exists items, slice_each fs t = Ok items).
Proof.
  intros ND H. unfold _features in H.
  apply bind_Ok_inv in H. destruct H as [fs' [Hps H]].
  apply bind_Ok_inv in H. destruct H as [fp [_ H]].
  inversion H; subst fs' fp; clear H.
  pose proof (per_step_features_Ok_inv _ _ _ _ Hps) as Hvalid.
  assert (E : fs = map (fun kv => (fst kv, tf_make_dim (snd kv) 3))
                     (Features.per_step (Data.features batch)))
    by (apply (per_step_features_fresh _ nSteps [] fs); [exact ND | exact Hps]).
  split; [exact E|]. split.
  - intros f x Hin. rewrite Forall_forall in Hvalid.
    destruct (Hvalid (f, x) Hin) as [H1 H2]. simpl in H1, H2.
    repeat split; try assumption. apply tf_make_dim_time_major; assumption.
  - intros t Ht. apply (slice_each_returns fs nSteps t); [|exact Ht].
    rewrite E. apply Forall_forall. intros [f y] Hin.
    apply in_map_iff in Hin. destruct Hin as [[f' x] [E' Hin]].
    inversion E'; subst f y. rewrite Forall_forall in Hvalid.
    destruct (Hvalid (f', x) Hin) as [H1 H2].
    apply tf_make_dim_time_major; assumption.
Qed.

(** X19.  The fault of a per-step feature names the first feature that
    fails the check: one of rank below 2, or whose second dimension is not
    [nSteps].  The features before it have passed, and those after it are
    not looked at. *)
Theorem per_step_feature_fault (batch : Data.t) (nSteps : nat)
    (before after : dict Tensor) (f : string) (x : Tensor) :
  Features.per_step (Data.features batch) = (before ++ (f, x) :: after)%list ->
  Forall (fun kv : string * Tensor =>
            2 <= length (shape (snd kv)) /\ nth 1 (shape (snd kv)) 0 = nSteps) before ->
  length (shape x) < 2 \/ nth 1 (shape x) 0 <> nSteps ->
  _features tf_make_dim_name batch nSteps = Error (FeatureShapeMismatch f).
Proof.
  intros E Hb Hx. unfold _features. rewrite E. clear E.
  assert (G : forall acc,
            per_step_features (before ++ (f, x) :: after)%list nSteps acc
            = Error (FeatureShapeMismatch f)).
  { induction Hb as [|[g y] before [H1 H2] Hb IH]; intros acc;
      cbn [app per_step_features].
    - destruct Hx as [Hx | Hx].
      + rewrite (proj2 (Nat.leb_gt 2 (length (shape x))) Hx). reflexivity.
      + destruct (Nat.leb 2 (length (shape x))); [|reflexivity]. cbn [verify bind].
        rewrite (proj2 (Nat.eqb_neq _ _) Hx). reflexivity.
    - cbn [snd] in H1, H2.
      rewrite (proj2 (Nat.leb_le 2 (length (shape y))) H1).
      rewrite (proj2 (Nat.eqb_eq _ _) H2).
      cbn [verify bind]. apply IH. }
  rewrite G. reflexivity.
Qed.

End PerStep.

(** ** What the utilities are shown *)

Lemma dict_get_map {V W : Type} (g : V -> W) (k : string) (d : dict V) :
  dict_get k (map (fun kv => (fst kv, g (snd kv))) d) = option_map g (dict_get k d).
Proof.
  induction d as [|[k' v] d IH]; simpl; [reflexivity|].
  destruct (String.eqb k k'); [reflexivity | exact IH].
Qed.

Section ObjectiveFeatures.
Context {Config PyObj : Type}.
Variable tf_make_dim_name : string -> nat -> option PyObj.
Implicit Type self : @Gym Config.

(** X20.  The utilities are shown the features of the first step only.  In
    a completed call, both utilities receive one and the same dictionary
    [features_time_0]: it holds every per-step feature of the batch under
    its name, as the slice at the step 0 of [tf_make_dim( feature, 3 )],
    and nothing else; nothing of the later steps reaches the objective. *)
Theorem utilities_see_time_zero self (batch : Data.t) (training : bool) (res : Out.t) :
  wf (Market.payoff (Data.market batch)) ->
  NoDup (dict_keys (Features.per_step (Data.features batch))) ->
  _call tf_make_dim_name self batch training = Ok res ->
  exists ut ut0 features_time_0,
    utility self = Some ut /\ utility0 self = Some ut0 /\
    Out.utility res =
      ut (UtilityData.mk features_time_0 (Out.payoff res) (Out.pnl res) (Out.cost res))
         training /\
    Out.utility0 res =
      ut0 (UtilityData.mk features_time_0 (Out.payoff res)
             (zeros_like (Out.payoff res)) (zeros_like (Out.payoff res))) training /\
    forall f,
      dict_get f features_time_0 =
      match dict_get f (Features.per_step (Data.features batch)) with
      | Some x =>
          match slice_step (tf_make_dim x 3) 0 with Ok x0 => Some x0 | Error _ => None end
      | None => None
      end.
Proof.
  intros Hwf ND H.
  destruct (utilities_of_call tf_make_dim_name self batch training res Hwf H)
    as (ut & ut0 & b & m & n & fs & items & Eut & Eut0 & _ & _ & Hf & Hit & Eu & Eu0).
  exists ut, ut0, (dict_update [] items).
  repeat (split; [assumption|]).
  intros f.
  assert (Efs : fs = map (fun kv => (fst kv, tf_make_dim (snd kv) 3))
                       (Features.per_step (Data.features batch))).
  { unfold _features in Hf.
    apply bind_Ok_inv in Hf. destruct Hf as [fs' [Hps Hf]].
    apply bind_Ok_inv in Hf. destruct Hf as [fp [_ Hf]].
    inversion Hf; subst fs' fp.
    apply (per_step_features_fresh _ m [] fs); [exact ND | exact Hps]. }
  pose proof (slice_each_keys fs items 0 Hit) as Ekeys.
  assert (NDi : NoDup (dict_keys items)).
  { rewrite Ekeys, Efs. unfold dict_keys. rewrite map_map. simpl. exact ND. }
  rewrite (dict_get_update f [] items NDi).
  assert (Eget : dict_get f fs =
                 option_map (fun x => tf_make_dim x 3)
                   (dict_get f (Features.per_step (Data.features batch))))
    by (rewrite Efs; apply (dict_get_map (fun x => tf_make_dim x 3))).
  destruct (dict_get f (Features.per_step (Data.features batch))) as [x|]; simpl in Eget.
  - destruct (slice_each_get fs items 0 f _ Hit Eget) as [x0 [E1 E2]].
    rewrite E1, E2. reflexivity.
  - assert (N : dict_get f items = None).
    { apply dict_get_absent. rewrite Ekeys. intros Hin.
      clear - Eget Hin. induction fs as [|[g y] fs IH]; simpl in *; [contradiction|].
      destruct (String.eqb_spec f g) as [E | E]; [discriminate|].
      destruct Hin as [Hin | Hin]; [congruence | exact (IH Eget Hin)]. }
    rewrite N. reflexivity.
Qed.

End ObjectiveFeatures.

(** ** What the actions depend on *)

(** Two loops whose bodies agree before the step [horizon] pass through the
    same states before that step. *)
Lemma rollout_trace_prefix (body body' : nat -> Rollout.t -> result Rollout.t)
    (horizon n t : nat) (s : Rollout.t) (tr tr' : list Rollout.t) :
  (forall t' s', t' < horizon -> body t' s' = body' t' s') ->
  rollout_trace body n t s = Ok tr -> rollout_trace body' n t s = Ok tr' ->
  forall q d, q < n -> t + q < horizon -> nth q tr d = nth q tr' d.
Proof.
  intros Hbody. revert t s tr tr'.
  induction n as [|n IH]; intros t s tr tr' H H' q d Hq Hh; [lia|].
  simpl in H, H'.
  apply bind_Ok_inv in H. destruct H as [s1 [H1 H]].
  apply bind_Ok_inv in H. destruct H as [rest [Hrest H]].
  apply bind_Ok_inv in H'. destruct H' as [s1' [H1' H']].
  apply bind_Ok_inv in H'. destruct H' as [rest' [Hrest' H']].
  inversion H; subst tr. inversion H'; subst tr'. clear H H'.
  rewrite (Hbody t s ltac:(lia)) in H1. rewrite H1 in H1'. inversion H1'; subst s1'.
  destruct q as [|q]; [reflexivity|]. simpl.
  apply (IH (S t) s1 rest rest' Hrest Hrest'); lia.
Qed.

Lemma zeros_like_ext (x y : Tensor) :
  shape x = shape y -> length (data x) = length (data y) -> zeros_like x = zeros_like y.
Proof.
  intros S L. unfold zeros_like, tmap. rewrite S. f_equal.
  rewrite !map_const_repeat, L. reflexivity.
Qed.

(** The loop starts from a state that depends on the payoff and on the cost
    rates through their shapes only. *)
Lemma initial_rollout_ext (ag : Agent) (training : bool) (p p' : Tensor) (b n : nat)
    (c c' : list fval) :
  shape p = shape p' -> length (data p) = length (data p') -> length c = length c' ->
  initial_rollout ag training p b n c = initial_rollout ag training p' b n c'.
Proof.
  intros S L Lc. unfold initial_rollout.
  rewrite (zeros_like_ext p p' S L).
  rewrite (zeros_like_ext (mkTensor [b; n] c) (mkTensor [b; n] c') eq_refl Lc).
  rewrite (zeros_like_ext (mkTensor [b; 1; n] c) (mkTensor [b; 1; n] c') eq_refl Lc).
  reflexivity.
Qed.

Lemma bind_ext {A B : Type} (m : result A) (k k' : A -> result B) :
  (forall a, k a = k' a) -> bind m k = bind m k'.
Proof. intros H. destruct m; [apply H | reflexivity]. Qed.

Section Causality.
Context {Config PyObj : Type}.
Variable tf_make_dim_name : string -> nat -> option PyObj.
Implicit Type self : @Gym Config.

(** A step reads the market and the per-step features at its own time
    index only. *)
Lemma step_reads_its_slices self (ag : Agent) (training : bool) (mkt mkt' : Market.t)
    (b n : nat) (fs fs' : dict Tensor) (fp : list PyObj) (t : nat) (s : Rollout.t) :
  slice_step (Market.hedges mkt) t = slice_step (Market.hedges mkt') t ->
  slice_step (Market.cost mkt) t = slice_step (Market.cost mkt') t ->
  slice_step (Market.ubnd_a mkt) t = slice_step (Market.ubnd_a mkt') t ->
  slice_step (Market.lbnd_a mkt) t = slice_step (Market.lbnd_a mkt') t ->
  slice_each fs t = slice_each fs' t ->
  step self ag training mkt b n fs fp t s = step self ag training mkt' b n fs' fp t s.
Proof.
  intros Hh Hc Hu Hl Hf. unfold step. rewrite Hh, Hc, Hu, Hl, Hf. reflexivity.
Qed.

(** X21.  The rollout does not look ahead.  Two batches of the same
    geometry that agree up to a horizon, in the returns, cost rates and
    bounds of every step before it and in the per-step features of those
    steps, are answered with the same actions at every step before the
    horizon, whatever the batches hold from the horizon on and whatever
    their payoffs are. *)
Theorem actions_do_not_look_ahead self (batch batch' : Data.t) (training : bool)
    (res res' : Out.t) (b m n horizon : nat) (fs fs' : dict Tensor) :
  shape (Market.hedges (Data.market batch)) = [b; m; n] ->
  shape (Market.hedges (Data.market batch')) = [b; m; n] ->
  wf (Market.payoff (Data.market batch)) -> wf (Market.payoff (Data.market batch')) ->
  _features tf_make_dim_name batch m = Ok (fs, @nil PyObj) ->
  _features tf_make_dim_name batch' m = Ok (fs', @nil PyObj) ->
  (forall t, t < horizon ->
     slice_step (Market.hedges (Data.market batch)) t
       = slice_step (Market.hedges (Data.market batch')) t /\
     slice_step (Market.cost (Data.market batch)) t
       = slice_step (Market.cost (Data.market batch')) t /\
     slice_step (Market.ubnd_a (Data.market batch)) t
       = slice_step (Market.ubnd_a (Data.market batch')) t /\
     slice_step (Market.lbnd_a (Data.market batch)) t
       = slice_step (Market.lbnd_a (Data.market batch')) t /\
     slice_each fs t = slice_each fs' t) ->
  _call tf_make_dim_name self batch training = Ok res ->
  _call tf_make_dim_name self batch' training = Ok res' ->
  forall t i j, t < horizon -> t < m -> i < b -> j < n ->
    get3 m n (data (Out.actions res)) i t j = get3 m n (data (Out.actions res')) i t j.
Proof.
  intros Hs Hs' Hw Hw' Hfs Hfs' Hagree H H' t i j Hth Ht Hi Hj.
  destruct (call_trace tf_make_dim_name self batch training res b m n Hs H)
    as (ag & fs1 & tr & Eag & Hc & Hu & Hl & Sp & Wp & Hm & Hf & HS & Htr & Hlen
        & _ & _ & _ & _ & Hact).
  destruct (call_trace tf_make_dim_name self batch' training res' b m n Hs' H')
    as (ag' & fs1' & tr' & Eag' & Hc' & Hu' & Hl' & Sp' & Wp' & Hm' & Hf' & HS' & Htr' & Hlen'
        & _ & _ & _ & _ & Hact').
  rewrite Eag in Eag'. inversion Eag'; subst ag'; clear Eag'.
  rewrite Hfs in Hf. inversion Hf; subst fs1; clear Hf.
  rewrite Hfs' in Hf'. inversion Hf'; subst fs1'; clear Hf'.
  specialize (Wp Hw). specialize (Wp' Hw').
  assert (E0 : initial_rollout ag training (Out.payoff res') b n
                 (slice_data b m n (data (Market.cost (Data.market batch'))) 0) =
               initial_rollout ag training (Out.payoff res) b n
                 (slice_data b m n (data (Market.cost (Data.market batch))) 0)).
  { apply initial_rollout_ext.
    - congruence.
    - unfold wf in Wp, Wp'. rewrite Wp, Wp', Sp, Sp'. reflexivity.
    - rewrite !length_slice_data. reflexivity. }
  rewrite E0 in Htr', Hact'.
  set (s0 := initial_rollout ag training (Out.payoff res) b n
               (slice_data b m n (data (Market.cost (Data.market batch))) 0)) in *.
  rewrite (Hact t i j Ht Hi Hj), (Hact' t i j Ht Hi Hj).
  f_equal. f_equal. f_equal.
  apply (rollout_trace_prefix
           (step self ag training (Data.market batch) b n fs (@nil PyObj))
           (step self ag training (Data.market batch') b n fs' (@nil PyObj))
           horizon m 0 s0 tr tr'); try assumption; try lia.
  intros t' s' Ht'. destruct (Hagree t' Ht') as (A1 & A2 & A3 & A4 & A5).
  apply step_reads_its_slices; assumption.
Qed.

(** X22.  The state that an agent returns is looked at only if the agent
    is recurrent.  Replacing the agent of a gym by another agent that is
    not recurrent either and answers with the same actions gives the same
    call, result or fault, whatever states the two agents return. *)
Theorem stateless_agent_state_is_ignored self (ag ag' : Agent) (batch : Data.t)
    (training : bool) :
  agent self = Some ag ->
  is_recurrent ag = false -> is_recurrent ag' = false ->
  (forall features training,
     fst (agent_call ag features training) = fst (agent_call ag' features training)) ->
  _call tf_make_dim_name (with_agent self ag') batch training =
  _call tf_make_dim_name self batch training.
Proof.
  intros Eag Hr Hr' Hsame.
  assert (Ebody : forall b n (fsx : dict Tensor) (fpx : list PyObj) t s,
            step (with_agent self ag') ag' training (Data.market batch) b n fsx fpx t s =
            step self ag training (Data.market batch) b n fsx fpx t s).
  { intros b n fsx fpx t s. unfold step. rewrite Hr, Hr'.
    apply bind_ext; intros ppi. apply bind_ext; intros psi.
    match goal with |- context [agent_call ag' ?lf training] =>
      pose proof (Hsame lf training) as E;
      destruct (agent_call ag' lf training) as [a' st'];
      destruct (agent_call ag lf training) as [a st] end.
    simpl in E. subst a'. reflexivity. }
  unfold _call.
  change (agent (with_agent self ag')) with (Some ag').
  change (utility (with_agent self ag')) with (utility self).
  change (utility0 (with_agent self ag')) with (utility0 self).
  rewrite Eag.
  destruct (utility self) as [ut|]; cbn [bind]; [|reflexivity].
  apply bind_ext; intros [[b m] n].
  apply bind_ext; intros payoff.
  do 4 (apply bind_ext; intros []).
  apply bind_ext; intros [fsx fpx].
  apply bind_ext; intros cost_0.
  apply bind_ext; intros cost_0_.
  unfold initial_state. rewrite Hr, Hr'. cbn [bind].
  rewrite (main_loop_ext _ _ m 0 _ (Ebody b n fsx fpx)).
  reflexivity.
Qed.

End Causality.

(** ** The faults of a call *)






Section FaultLemmas.
Context {Config PyObj : Type}.
Variable tf_make_dim_name : string -> nat -> option PyObj.
Implicit Type self : @Gym Config.









End FaultLemmas.

(** ** Building the gym *)

Section Build.
Context {Config PyObj : Type}.
Variable AgentFactory : nat -> Config -> string -> Agent.
Variable MonetaryUtility : Config -> string -> Utility.
Variable tf_make_dim_name : string -> nat -> option PyObj.
Implicit Type self : @Gym Config.


End Build.

Section Faults.
Context {Config PyObj : Type}.
Variable tf_make_dim_name : string -> nat -> option PyObj.
Implicit Type self : @Gym Config.


End Faults.

(* ================================================================== *)
(** * Concrete runs of the further properties *)

(** Enumerate the values of an index below a bound. *)
Ltac below H :=
  match type of H with
  | ?x < 0 => exfalso; exact (Nat.nlt_0_r x H)
  | ?x < S _ => destruct x as [|x]; [| apply PeanoNat.lt_S_n in H; below H]
  end.

(** ** Caching *)

Lemma restore_fails_closed_witness :
  exists self',
    restore_from_cache demo_hash demo_set_weights demo_optimizer_set_weights
      stale_cache (demo_model 1) = Return false self' /\
    weights self' = weights (demo_model 1) /\
    exists w, warnings self' = (warnings (demo_model 1) ++ [w])%list.
Proof.
  eexists. split; [reflexivity|].
  apply (proj1 (restore_fails_closed demo_hash demo_set_weights demo_optimizer_set_weights
                  stale_cache (demo_model 1) false _ eq_refl)).
  reflexivity.
Defined.

Lemma cache_round_trip_witness :
  exists c,
    create_cache demo_hash (demo_model 1) = Ok c /\
    restore_from_cache demo_hash demo_set_weights demo_optimizer_set_weights c (demo_model 1)
      = Return true (demo_model 1).
Proof.
  eexists. split; [reflexivity|].
  apply (cache_round_trip demo_hash demo_set_weights demo_optimizer_set_weights
           (demo_model 1)); reflexivity.
Defined.

Lemma cache_transfers_gym_weights_only_witness :
  exists c target',
    create_cache demo_hash (demo_model 1) = Ok c /\
    restore_from_cache demo_hash demo_set_weights demo_optimizer_set_weights c (demo_model 2)
      = Return true target' /\
    weights target' = weights (demo_model 1) /\
    create_cache demo_hash target'
      = Ok (mkCache (gym_uid c) (weights (demo_model 1)) (opt_uid c) (Some "Adam")
              [mkTensor [1] [Fin 2%R]]).
Proof.
  eexists.
  destruct (cache_transfers_gym_weights_only demo_hash demo_set_weights
              demo_optimizer_set_weights (demo_model 1) (demo_model 2)
              _ (demo_optimizer 2) (weights (demo_model 1)) [mkTensor [1] [Fin 2%R]]
              eq_refl ltac:(discriminate) eq_refl eq_refl eq_refl eq_refl eq_refl)
    as [target' [H1 [H2 H3]]].
  exists target'. split; [reflexivity|]. repeat split; assumption.
Defined.

(** ** The call *)

(** Run the call and keep its result. *)
Ltac call_of gym batch :=
  let H := fresh "Hcall" in
  assert (H : exists res, _call no_name_dim gym batch false = Ok res)
    by (eexists; run; reflexivity);
  destruct H as [res H]; exists res.

Lemma completed_call_certifies_input_witness :
  exists res b m n,
    _call no_name_dim (demo_gym true (Fin (1 / 2))) demo_data_features false = Ok res /\
    0 < m /\
    shape (Market.hedges demo_market) = [b; m; n] /\
    shape (Market.cost demo_market) = [b; m; n] /\
    Forall (fun kv : string * Tensor =>
              2 <= length (shape (snd kv)) /\ nth 1 (shape (snd kv)) 0 = m)
      (Features.per_step (Data.features demo_data_features)).
Proof.
  call_of (demo_gym true (Fin (1 / 2))) demo_data_features.
  destruct (completed_call_certifies_input no_name_dim (demo_gym true (Fin (1 / 2)))
              demo_data_features false res Hcall)
    as (b & m & n & Hm & Hh & Hc & _ & _ & _ & Hf & _).
  exists b, m, n. split; [exact Hcall|]. repeat split; assumption.
Defined.

Lemma completed_call_certifies_bounds_witness :
  exists res,
    _call no_name_dim (demo_gym false (Fin 3%R)) demo_data false = Ok res /\
    forall i t j, i < 2 -> t < 3 -> j < 1 ->
      fleb (get3 3 1 (data (Market.lbnd_a demo_market)) i t j) (Fin 0%R) = true /\
      fgeb (get3 3 1 (data (Market.ubnd_a demo_market)) i t j) (Fin 0%R) = true.
Proof.
  call_of (demo_gym false (Fin 3%R)) demo_data. split; [exact Hcall|].
  exact (completed_call_certifies_bounds no_name_dim (demo_gym false (Fin 3%R)) demo_data
           false res 2 3 1 eq_refl Hcall).
Defined.

Lemma completed_call_is_finite_witness :
  exists res,
    _call no_name_dim (demo_gym false (Fin 3%R)) demo_data_infinite_payoff false = Ok res /\
    Forall finite (data (Out.pnl res)) /\ Forall finite (data (Out.cost res)) /\
    is_finite (nth 0 (data (Out.gains res)) NaN) = false /\
    forall i t j, i < 2 -> t < 3 -> j < 1 ->
      finite (get3 3 1 (data (Out.actions res)) i t j).
Proof.
  call_of (demo_gym false (Fin 3%R)) demo_data_infinite_payoff. split; [exact Hcall|].
  destruct (completed_call_is_finite no_name_dim (demo_gym false (Fin 3%R))
              demo_data_infinite_payoff false res 2 3 1 eq_refl eq_refl Hcall)
    as [Hp [Hc [Hg Ha]]].
  split; [exact Hp|]. split; [exact Hc|]. split.
  - apply Hg; [lia|].
    assert (E : Out.payoff res = mkTensor [2] [PInf; Fin 7%R]).
    { revert Hcall. run. intros Hcall. inversion Hcall. reflexivity. }
    rewrite E. reflexivity.
  - apply Ha; [reflexivity|]. intros ag E. inversion E. apply agent_wf_const.
Defined.

Lemma totals_follow_from_actions_witness :
  exists res,
    _call no_name_dim (demo_gym true (Fin (1 / 2))) demo_data false = Ok res /\
    forall i, i < 2 ->
      nth i (data (Out.pnl res)) NaN =
        accumulated 3 1
          (fun t j => fmul (get3 3 1 (data (Out.actions res)) i t j)
                           (get3 3 1 (data (Market.hedges demo_market)) i t j)) /\
      nth i (data (Out.cost res)) NaN =
        accumulated 3 1
          (fun t j => fmul (fabs (get3 3 1 (data (Out.actions res)) i t j))
                           (get3 3 1 (data (Market.cost demo_market)) i t j)).
Proof.
  call_of (demo_gym true (Fin (1 / 2))) demo_data. split; [exact Hcall|].
  apply (totals_follow_from_actions no_name_dim (demo_gym true (Fin (1 / 2))) demo_data
           false res 2 3 1 eq_refl eq_refl).
  - intros ag E. inversion E. apply agent_wf_const.
  - exact Hcall.
Defined.

Lemma demo_cost_rates (i t j : nat) :
  i < 2 -> t < 3 -> j < 1 -> get3 3 1 (data (Market.cost demo_market)) i t j = Fin 0%R.
Proof. intros Hi Ht Hj. below Hi; below Ht; below Hj; reflexivity. Defined.

Lemma cost_is_not_negative_witness :
  exists res,
    _call no_name_dim (demo_gym false (Fin 3%R)) demo_data false = Ok res /\
    forall i, i < 2 -> exists r, nth i (data (Out.cost res)) NaN = Fin r /\ (0 <= r)%R.
Proof.
  call_of (demo_gym false (Fin 3%R)) demo_data. split; [exact Hcall|].
  apply (cost_is_not_negative no_name_dim (demo_gym false (Fin 3%R)) demo_data
           false res 2 3 1 eq_refl eq_refl).
  - intros ag E. inversion E. apply agent_wf_const.
  - intros i t j Hi Ht Hj. change (Data.market demo_data) with demo_market.
    rewrite (demo_cost_rates i t j Hi Ht Hj). simpl. apply R_leb_true. lra.
  - exact Hcall.
Defined.

Lemma frictionless_market_costs_nothing_witness :
  exists res,
    _call no_name_dim (demo_gym false (Fin 3%R)) demo_data false = Ok res /\
    forall i, i < 2 -> nth i (data (Out.cost res)) NaN = Fin 0%R.
Proof.
  call_of (demo_gym false (Fin 3%R)) demo_data. split; [exact Hcall|].
  apply (frictionless_market_costs_nothing no_name_dim (demo_gym false (Fin 3%R)) demo_data
           false res 2 3 1 eq_refl eq_refl).
  - intros ag E. inversion E. apply agent_wf_const.
  - exact demo_cost_rates.
  - exact Hcall.
Defined.

Lemma position_is_sum_of_actions_witness :
  exists res ag fs tr,
    _call no_name_dim (demo_gym true (Fin (1 / 2))) demo_data false = Ok res /\
    agent (demo_gym true (Fin (1 / 2))) = Some ag /\
    let s0 := initial_rollout ag false (Out.payoff res) 2 1
                (slice_data 2 3 1 (data (Market.cost demo_market)) 0) in
    rollout_trace (step (demo_gym true (Fin (1 / 2))) ag false demo_market 2 1 fs (@nil unit))
      3 0 s0 = Ok tr /\
    forall q i j, q <= 3 -> i < 2 -> j < 1 ->
      get2 1 (data (Rollout.delta (nth q (s0 :: tr) s0))) i j =
        fsum (map (fun t => get3 3 1 (data (Out.actions res)) i t j) (seq 0 q)).
Proof.
  call_of (demo_gym true (Fin (1 / 2))) demo_data.
  destruct (position_is_sum_of_actions no_name_dim (demo_gym true (Fin (1 / 2))) demo_data
              false res 2 3 1 eq_refl eq_refl
              ltac:(intros ag E; inversion E; apply agent_wf_const) Hcall)
    as (ag & fs & tr & Eag & _ & Htr & H).
  exists ag, fs, tr. split; [exact Hcall|]. split; [exact Eag|].
  split; [exact Htr|]. intros q i j Hq Hi Hj. exact (proj1 (H q i j Hq Hi Hj)).
Defined.

(** ** The bounded action transform *)

Lemma clip_actions_bound_check_witness :
  (exists msg,
     _clip_actions (demo_gym false NaN) (mkTensor [1; 1] [Fin 3%R])
       (mkTensor [2; 1] (fins [1; 0]%R)) bounds_hi = Error (BoundViolation msg)) /\
  ~ (exists msg,
       _clip_actions (demo_gym false NaN) (mkTensor [1; 1] [Fin 3%R]) bounds_lo bounds_hi
       = Error (BoundViolation msg)).
Proof.
  split.
  - apply (proj2 (clip_actions_bound_check (demo_gym false NaN) (mkTensor [1; 1] [Fin 3%R])
                    (mkTensor [2; 1] (fins [1; 0]%R)) bounds_hi 2 1
                    eq_refl eq_refl eq_refl eq_refl)).
    exists 0, 0. split; [lia|]. split; [lia|]. left. simpl. apply R_leb_false. lra.
  - intros H.
    apply (proj1 (clip_actions_bound_check (demo_gym false NaN) (mkTensor [1; 1] [Fin 3%R])
                    bounds_lo bounds_hi 2 1 eq_refl eq_refl eq_refl eq_refl)) in H.
    destruct H as (i & j & Hi & Hj & H).
    below Hi; below Hj; unfold fgeb in H; simpl in H;
      rewrite !R_leb_true in H by lra; destruct H; discriminate.
Defined.

Lemma hard_clip_is_projection_witness :
  exists out,
    _clip_actions (demo_gym true NaN) (mkTensor [1; 1] [Fin 3%R]) bounds_lo bounds_hi = Ok out /\
    _clip_actions (demo_gym true NaN) out bounds_lo bounds_hi = Ok out.
Proof.
  eexists. split; [run; reflexivity|].
  apply (proj1 (hard_clip_is_projection (demo_gym true NaN) (mkTensor [1; 1] [Fin 3%R])
                  bounds_lo bounds_hi _ 2 1 eq_refl eq_refl eq_refl eq_refl eq_refl
                  (or_intror eq_refl) eq_refl ltac:(run; reflexivity))).
Defined.

Lemma clip_actions_monotone_witness :
  exists out out',
    _clip_actions (demo_gym false NaN) (mkTensor [2; 1] (fins [0; 0]%R)) bounds_lo bounds_hi
      = Ok out /\
    _clip_actions (demo_gym false NaN) (mkTensor [2; 1] (fins [3; 0]%R)) bounds_lo bounds_hi
      = Ok out' /\
    forall i j, i < 2 -> j < 1 ->
      fleb (get2 1 (data out) i j) (get2 1 (data out') i j) = true.
Proof.
  eexists. eexists. split; [run; reflexivity|]. split; [run; reflexivity|].
  apply (clip_actions_monotone (demo_gym false NaN) (mkTensor [2; 1] (fins [0; 0]%R))
           (mkTensor [2; 1] (fins [3; 0]%R)) bounds_lo bounds_hi _ _ 2 1).
  - simpl. lra.
  - reflexivity.
  - reflexivity.
  - reflexivity.
  - reflexivity.
  - reflexivity.
  - reflexivity.
  - reflexivity.
  - reflexivity.
  - intros i j Hi Hj. below Hi; below Hj; simpl; apply R_leb_true; lra.
  - run. reflexivity.
  - run. reflexivity.
Defined.

(** ** Features and state *)

Lemma live_feature_precedence_witness :
  exists s' items,
    step (demo_gym true (Fin (1 / 2))) (const_agent (Fin (1 / 2))) false demo_market
      2 1 demo_per_step (@nil unit) 0 (demo_start (const_agent (Fin (1 / 2)))) = Ok s' /\
    slice_each demo_per_step 0 = Ok items /\
    let shown := live_features (const_agent (Fin (1 / 2))) items
                   (demo_start (const_agent (Fin (1 / 2)))) in
    dict_get "pnl" shown = Some (mkTensor [2; 1] (fins [7; 8]%R)) /\
    dict_get "cost" shown = Some (Rollout.cost (demo_start (const_agent (Fin (1 / 2))))) /\
    dict_get "price" shown = Some (mkTensor [2; 1] (fins [10; 20]%R)).
Proof.
  assert (H : exists s',
            step (demo_gym true (Fin (1 / 2))) (const_agent (Fin (1 / 2))) false demo_market
              2 1 demo_per_step (@nil unit) 0 (demo_start (const_agent (Fin (1 / 2)))) = Ok s')
    by (eexists; run; reflexivity).
  destruct H as [s' H]. exists s'.
  destruct (live_feature_precedence (demo_gym true (Fin (1 / 2))) (const_agent (Fin (1 / 2)))
              false demo_market 2 3 1 demo_per_step 0 1
              (demo_start (const_agent (Fin (1 / 2)))) s'
              eq_refl eq_refl eq_refl eq_refl eq_refl eq_refl eq_refl eq_refl
              ltac:(repeat constructor; simpl; intuition discriminate) H)
    as (items & act & Hit & _ & _ & Hget).
  exists items. split; [exact H|]. split; [exact Hit|]. cbv zeta.
  split; [|split]; rewrite Hget by (intros E; discriminate E); reflexivity.
Defined.

Lemma recurrent_state_is_threaded_witness :
  exists res fs tr,
    _call no_name_dim (gym_of true counting_agent) demo_data false = Ok res /\
    let s0 := initial_rollout counting_agent false (Out.payoff res) 2 1
                (slice_data 2 3 1 (data (Market.cost demo_market)) 0) in
    rollout_trace (step (gym_of true counting_agent) counting_agent false demo_market
                     2 1 fs (@nil unit)) 3 0 s0 = Ok tr /\
    shape (Rollout.state s0) = [2; 1] /\
    get2 1 (data (Rollout.state s0)) 1 0 = Fin 0%R /\
    forall q, q < 3 ->
      exists items,
        slice_each fs q = Ok items /\
        let s := nth q (s0 :: tr) s0 in
        let shown := live_features counting_agent items s in
        dict_get "steps" shown = Some (Rollout.state s) /\
        Rollout.state (nth (S q) (s0 :: tr) s0) = snd (agent_call counting_agent shown false).
Proof.
  call_of (gym_of true counting_agent) demo_data.
  destruct (recurrent_state_is_threaded no_name_dim (gym_of true counting_agent) demo_data
              false res 2 3 1 eq_refl eq_refl Hcall)
    as (ag & fs & tr & Eag & _ & Htr & _ & Hrec & _).
  inversion Eag; subst ag; clear Eag.
  destruct (Hrec eq_refl) as (_ & Htile & Hsteps).
  destruct (Htile 1 eq_refl) as [Hshape Hvalues].
  exists fs, tr. split; [exact Hcall|]. cbv zeta.
  split; [exact Htr|]. split; [exact Hshape|].
  split; [exact (Hvalues 1 0 ltac:(lia) ltac:(lia)) | exact Hsteps].
Defined.

Lemma per_step_features_normalised_witness :
  exists fs,
    _features no_name_dim demo_data_features 3 = Ok (fs, []) /\
    fs = demo_per_step /\
    forall t, t < 3 -> exists items, slice_each fs t = Ok items.
Proof.
  eexists. split; [reflexivity|].
  destruct (per_step_features_normalised no_name_dim demo_data_features 3 _ []
              ltac:(repeat constructor; simpl; intuition discriminate) eq_refl)
    as [E [_ Hs]].
  split; [exact E | exact Hs].
Defined.

Lemma per_step_feature_fault_witness :
  _features no_name_dim demo_data_short_feature 3 = Error (FeatureShapeMismatch "vol").
Proof.
  apply (per_step_feature_fault no_name_dim demo_data_short_feature 3
           [("price", demo_price)] [] "vol" (mkTensor [2; 2] (fins [1; 2; 3; 4]%R))).
  - reflexivity.
  - repeat constructor.
  - right. simpl. lia.
Defined.

(** ** The objective *)

Lemma utilities_see_time_zero_witness :
  exists res features_time_0,
    _call no_name_dim (demo_gym true (Fin (1 / 2))) demo_data_features false = Ok res /\
    Out.utility res =
      gains_utility
        (UtilityData.mk features_time_0 (Out.payoff res) (Out.pnl res) (Out.cost res)) false /\
    dict_get "price" features_time_0 = Some (mkTensor [2; 1] (fins [10; 20]%R)) /\
    dict_get "cost" features_time_0 = None.
Proof.
  call_of (demo_gym true (Fin (1 / 2))) demo_data_features.
  destruct (utilities_see_time_zero no_name_dim (demo_gym true (Fin (1 / 2)))
              demo_data_features false res eq_refl
              ltac:(repeat constructor; simpl; intuition discriminate) Hcall)
    as (ut & ut0 & ft0 & Eut & _ & Eu & _ & Hget).
  inversion Eut; subst ut.
  exists ft0. split; [exact Hcall|]. split; [exact Eu|].
  split; rewrite Hget; reflexivity.
Defined.

(** ** What the actions depend on *)

Lemma actions_do_not_look_ahead_witness :
  exists res res',
    _call no_name_dim (demo_gym true (Fin 3%R)) demo_data false = Ok res /\
    _call no_name_dim (demo_gym true (Fin 3%R)) demo_data_later false = Ok res' /\
    get3 3 1 (data (Out.actions res)) 0 2 0 <> get3 3 1 (data (Out.actions res')) 0 2 0 /\
    forall t i j, t < 2 -> t < 3 -> i < 2 -> j < 1 ->
      get3 3 1 (data (Out.actions res)) i t j = get3 3 1 (data (Out.actions res')) i t j.
Proof.
  assert (H : exists res,
            _call no_name_dim (demo_gym true (Fin 3%R)) demo_data false = Ok res /\
            get3 3 1 (data (Out.actions res)) 0 2 0 = Fin 1%R)
    by (eexists; split; [run; reflexivity | reflexivity]).
  assert (H' : exists res,
             _call no_name_dim (demo_gym true (Fin 3%R)) demo_data_later false = Ok res /\
             get3 3 1 (data (Out.actions res)) 0 2 0 = Fin 3%R)
    by (eexists; split; [run; reflexivity | reflexivity]).
  destruct H as [res [H A]]. destruct H' as [res' [H' A']]. exists res, res'.
  split; [exact H|]. split; [exact H'|]. split.
  - rewrite A, A'. intros E. inversion E. lra.
  - apply (actions_do_not_look_ahead no_name_dim (demo_gym true (Fin 3%R))
             demo_data demo_data_later false res res' 2 3 1 2 [] []);
      try reflexivity; try assumption.
    intros t Ht. below Ht; repeat split; reflexivity.
Defined.

Lemma stateless_agent_state_is_ignored_witness :
  _call no_name_dim (with_agent (demo_gym true (Fin (1 / 2))) chatty_agent) demo_data false =
  _call no_name_dim (demo_gym true (Fin (1 / 2))) demo_data false.
Proof.
  apply (stateless_agent_state_is_ignored no_name_dim (demo_gym true (Fin (1 / 2)))
           (const_agent (Fin (1 / 2))) chatty_agent demo_data false).
  - reflexivity.
  - reflexivity.
  - reflexivity.
  - intros features training. reflexivity.
Defined.

(** ** Building the gym *)



(** ** The faults of a call *)

